(** * A shallow embedding of the Node bridge of the Kokoro TTS processor

    The modelled code is [mcp_server.js] (the Streamable HTTP server, the
    second program in that file) and the shared helpers of
    [kokoro-reverse-client.js].

    Conventions of the embedding:
    - a JavaScript string is its list of UTF-16 code units ([list Z]), so
      [.length] is [length] and the whitespace class [\s] (and [trim]) is the
      full ECMAScript set of white-space and line-terminator code units;
    - a JavaScript number is a rational [Q]; the bridge only stores and
      compares the numbers it receives, except for [Math.round] of a ratio of
      two part counts, whose IEEE 754 double arithmetic is written out ([fl]);
    - a value produced by [JSON.parse] is a [json] tree; reading a property
      that does not exist yields [None] ([undefined]);
    - every mutation of the global [state] object is explicit state passing,
      and every observable side effect (a WebSocket broadcast, a console line,
      a line written to the processor's stdin, a directory creation) is an
      [Effect] in an output list, in program order;
    - [uuidv4()] draws the next value of a counter kept in the state (a
      value never returned before), and [new Date().toISOString()] and
      [process.env.MP3_HOST_PREFIX] are inputs of the functions that read
      them. *)

From Stdlib Require Import ZArith QArith Qround Qpower Strings.String Strings.Ascii
  Numbers.DecimalString Numbers.DecimalPos Qminmax Lia Lqa.
From stdpp Require Import base list gmap.

Open Scope Z_scope.
#[local] Set Warnings "-register-all -abstract-large-number".


(* ------------------------------------------------------------------ *)
(** ** JavaScript strings *)

Abbreviation jsstr := (list Z).

(** A source literal, as the code units of its (ASCII) characters. *)
Definition js (s : string) : jsstr :=
  map (fun a => Z.of_nat (nat_of_ascii a)) (list_ascii_of_string s).

(** ECMAScript WhiteSpace and LineTerminator code points: the class [\s] of
    regular expressions and the characters removed by [String.prototype.trim]. *)
Definition is_ws (c : Z) : bool :=
  (9 <=? c) && (c <=? 13) || (c =? 32) || (c =? 160) || (c =? 5760)
  || (8192 <=? c) && (c <=? 8202) || (c =? 8232) || (c =? 8233)
  || (c =? 8239) || (c =? 8287) || (c =? 12288) || (c =? 65279).

Fixpoint trim_start (s : jsstr) : jsstr :=
  match s with
  | c :: r => if is_ws c then trim_start r else s
  | [] => []
  end.

(** [s.trim()] *)
Definition trim (s : jsstr) : jsstr := rev' (trim_start (rev' (trim_start s))).

(** [a.startsWith(p)] *)
Fixpoint starts_with (a p : jsstr) : bool :=
  match p, a with
  | [], _ => true
  | c :: p', d :: a' => (c =? d) && starts_with a' p'
  | _ :: _, [] => false
  end.

(** Decimal rendering of an integer, as in a template literal. *)
Definition js_of_Z (z : Z) : jsstr := js (NilEmpty.string_of_int (Z.to_int z)).

(* ------------------------------------------------------------------ *)
(** ** Values produced by [JSON.parse] *)

Inductive json : Type :=
| JNull
| JBool (b : bool)
| JNum (q : Q)
| JStr (s : jsstr)
| JArr (l : list json)
| JObj (fields : list (jsstr * json)).

(** [v.k] for a value [v] other than [null]: the own property [k] of an
    object (with [JSON.parse], a repeated key keeps its last value);
    primitives and arrays have none of the property names read by the
    bridge. *)
Definition get_field (v : json) (k : jsstr) : option json :=
  match v with
  | JObj fs =>
      match find (fun kv => bool_decide (kv.1 = k)) (rev fs) with
      | Some kv => Some kv.2
      | None => None
      end
  | _ => None
  end.
#[global] Arguments get_field : simpl never.

(** JavaScript truthiness ([None] is [undefined]). *)
Definition truthy (v : option json) : bool :=
  match v with
  | None => false
  | Some JNull => false
  | Some (JBool b) => b
  | Some (JNum q) => negb (Qeq_bool q 0)
  | Some (JStr s) => negb (bool_decide (s = []))
  | Some (JArr _) | Some (JObj _) => true
  end.

(** [a || b] where [b] is defined. *)
Definition jor (a : option json) (b : json) : json :=
  match a with
  | Some v => if truthy a then v else b
  | None => b
  end.

(** [v === "lit"] *)
Definition is_str (v : option json) (lit : string) : bool :=
  match v with
  | Some (JStr s) => bool_decide (s = js lit)
  | _ => false
  end.

(** [Math.round(x)]: the nearest integer, halves rounded up. *)
Definition js_round (x : Q) : Z := Qfloor (x + (1 # 2))%Q.

(** IEEE 754 binary64 arithmetic: an operation on doubles yields its exact
    result rounded to the nearest double, ties to an even significand.  The
    exponent range is not bounded: the only values rounded by the bridge are
    ratios of part counts (at least 2^-53 when not 0) and these times 100,
    far from the overflow and subnormal ranges. *)

(** The integer nearest to [y], ties to even. *)
Definition round_ne (y : Q) : Z :=
  let f := Qfloor y in
  match (2 * (y - inject_Z f) ?= 1)%Q with
  | Lt => f
  | Gt => f + 1
  | Eq => if Z.even f then f else f + 1
  end.

(** floor(log2 x) for [x > 0]: the exponent [e] with 2^e <= x < 2^(e+1). *)
Definition binade (x : Q) : Z :=
  let e0 := Z.log2 (Qnum x) - Z.log2 (Zpos (Qden x)) in
  if Qle_bool (2 ^ e0) x then e0 else e0 - 1.

(** The double nearest to [x > 0]: a 53-bit significand times 2^(e-52). *)
Definition fl_pos (x : Q) : Q :=
  let e := binade x - 52 in
  (inject_Z (round_ne (x * 2 ^ (- e))) * 2 ^ e)%Q.

(** The double nearest to [x]. *)
Definition fl (x : Q) : Q :=
  let x := Qred x in
  match Qnum x with
  | Z0 => 0
  | Zpos _ => fl_pos x
  | Zneg _ => - fl_pos (- x)
  end.

(* ------------------------------------------------------------------ *)
(** ** The bridge state *)

(** An MP3 combine job, as registered by [speak_mp3_combined]. *)
Record Job := mkJob {
  job_id : jsstr;
  job_type : jsstr;
  job_status : jsstr;
  totalParts : Z;
  completedParts : Z;
  percent : json;
  phase : json;
  detail : option json;
  partPaths : list jsstr;
  outputPath : jsstr;
  cleanupParts : bool;
  createdAt : jsstr
}.

(** A speak payload; a history entry is one with a [timestamp]. *)
Record Item := mkItem {
  it_id : jsstr;
  it_jobId : option jsstr;
  it_text : jsstr;
  it_voice : jsstr;
  it_speed : Q;
  it_mp3 : bool;
  it_mp3_path : option jsstr;
  it_mp3announce : bool;
  it_timestamp : option jsstr
}.

(** The global [state] object (the playback sub-object is not used by the
    modelled functions), with the position of the [uuidv4] generator. *)
Record State := mkState {
  status : option json;
  current_text : json;
  current_voice : jsstr;
  default_voice : jsstr;
  history : list Item;
  jobs : gmap jsstr Job;
  uuid_seed : nat
}.

(** Lines written to the processor's stdin. *)
Inductive Payload : Type :=
| PSpeak (it : Item)
| PCombine (jobId : jsstr) (paths : list jsstr) (out : jsstr) (cleanup : bool).

Inductive Effect : Type :=
| BroadcastStatus
| BroadcastProgress (jobId percent phase detail : option json)
| BroadcastError (message : option json)
| BroadcastHistory
| ConsoleError (message : option json)
| ConsoleLog (line : jsstr)
| StdinWrite (p : Payload)
| MkdirSync (dir : jsstr).

Definition set_status (st : State) (s : option json) (t : json) : State :=
  mkState s t st.(current_voice) st.(default_voice) st.(history) st.(jobs)
    st.(uuid_seed).

Definition set_jobs (st : State) (m : gmap jsstr Job) : State :=
  mkState st.(status) st.(current_text) st.(current_voice) st.(default_voice)
    st.(history) m st.(uuid_seed).

Definition set_history (st : State) (h : list Item) : State :=
  mkState st.(status) st.(current_text) st.(current_voice) st.(default_voice)
    h st.(jobs) st.(uuid_seed).

Definition set_seed (st : State) (n : nat) : State :=
  mkState st.(status) st.(current_text) st.(current_voice) st.(default_voice)
    st.(history) st.(jobs) n.

(** [state.jobs.get(key)]: the keys are the [uuidv4] strings of the jobs, so
    a key that is not a string finds nothing. *)
Definition lookup_job (st : State) (key : option json) : option (jsstr * Job) :=
  match key with
  | Some (JStr k) => match st.(jobs) !! k with Some j => Some (k, j) | None => None end
  | _ => None
  end.

Definition job_progress (j : Job) (pct ph : json) (det : option json) : Job :=
  mkJob j.(job_id) j.(job_type) j.(job_status) j.(totalParts) j.(completedParts)
    pct ph det j.(partPaths) j.(outputPath) j.(cleanupParts) j.(createdAt).

Definition job_count (j : Job) (c : Z) (pct : json) : Job :=
  mkJob j.(job_id) j.(job_type) j.(job_status) j.(totalParts) c
    pct j.(phase) j.(detail) j.(partPaths) j.(outputPath) j.(cleanupParts)
    j.(createdAt).

(* ------------------------------------------------------------------ *)
(** ** [combineMp3Parts] and [handlePythonMessage] *)

(** [combineMp3Parts(job)]: the job object after the call, and the effects
    (the function is [async] but has no [await], so it runs to the end
    synchronously). [job.cleanupParts !== false] is the boolean itself. *)
Definition combineMp3Parts (j : Job) : Job * list Effect :=
  (mkJob j.(job_id) j.(job_type) (js "combining") j.(totalParts)
     j.(completedParts) j.(percent) (JStr (js "combining")) j.(detail)
     j.(partPaths) j.(outputPath) j.(cleanupParts) j.(createdAt),
   [BroadcastProgress (Some (JStr j.(job_id))) (Some (JNum 95))
      (Some (JStr (js "combining"))) (Some (JStr (js "Concatenating parts")));
    StdinWrite (PCombine j.(job_id) j.(partPaths) j.(outputPath) j.(cleanupParts))]).

(** [Math.round((completedParts / totalParts) * 100)] on doubles: the
    quotient and the product are each rounded to a double.  Both counts are
    integers below 2^53, so exact doubles; [totalParts] is at least 1 for
    every job [speak_mp3_combined] registers. *)
Definition part_percent (c t : Z) : Z :=
  js_round (fl (fl (inject_Z c / inject_Z t) * inject_Z 100)).

(** The body of [handlePythonMessage(msg)] for a [msg] other than [null]. *)
Definition handle_msg (st : State) (msg : json) : State * list Effect :=
  let ty := get_field msg (js "type") in
  if is_str ty "status" then
    let s := get_field msg (js "state") in
    let status' := if is_str s "ready" then Some (JStr (js "idle")) else s in
    let text' := if is_str s "processing"
                 then jor (get_field msg (js "text")) st.(current_text)
                 else JStr [] in
    (set_status st status' text', [BroadcastStatus])
  else if is_str ty "progress" then
    let jid := get_field msg (js "jobId") in
    let pct := get_field msg (js "percent") in
    let ph := get_field msg (js "phase") in
    let det := get_field msg (js "detail") in
    let st' := match lookup_job st jid with
               | Some (k, j) =>
                   set_jobs st (<[k := job_progress j (jor pct (JNum 0))
                                        (jor ph j.(phase)) (Some (jor det (JStr [])))]>
                                 st.(jobs))
               | None => st
               end in
    (st', [BroadcastProgress jid pct ph det])
  else if is_str ty "mp3_complete" then
    let jid := get_field msg (js "jobId") in
    match lookup_job st jid with
    | Some (k, j) =>
      if bool_decide (j.(job_type) = js "combine") then
        let c := j.(completedParts) + 1 in
        let p := part_percent c j.(totalParts) in
        let j1 := job_count j c (JNum (inject_Z p)) in
        let e1 := BroadcastProgress jid (Some (JNum (inject_Z p)))
                    (Some (JStr (js "generating")))
                    (Some (JStr (js "Part " ++ js_of_Z c ++ js "/" ++ js_of_Z j.(totalParts)))) in
        if j.(totalParts) <=? c then
          let (j2, e2) := combineMp3Parts j1 in
          (set_jobs st (<[k := j2]> st.(jobs)), e1 :: e2)
        else (set_jobs st (<[k := j1]> st.(jobs)), [e1])
      else (st, [])
    | None => (st, [])
    end
  else if is_str ty "error" then
    let m := get_field msg (js "message") in
    (st, [ConsoleError m; BroadcastError m])
  else (st, []).

(** [handlePythonMessage(msg)]; [None] is the [TypeError] thrown by reading
    [msg.type] when [msg] is [null] (no other statement of the function can
    throw). *)
Definition handlePythonMessage (st : State) (msg : json) : option (State * list Effect) :=
  match msg with
  | JNull => None
  | _ => Some (handle_msg st msg)
  end.

(* ------------------------------------------------------------------ *)
(** ** [JSON.parse] (ECMA-404 grammar) *)

Definition is_json_ws (c : Z) : bool := (c =? 9) || (c =? 10) || (c =? 13) || (c =? 32).

Fixpoint skip_jws (s : jsstr) : jsstr :=
  match s with
  | c :: r => if is_json_ws c then skip_jws r else s
  | [] => []
  end.

Definition is_digit (c : Z) : bool := (48 <=? c) && (c <=? 57).

Definition hex_val (c : Z) : option Z :=
  if is_digit c then Some (c - 48)
  else if (97 <=? c) && (c <=? 102) then Some (c - 87)
  else if (65 <=? c) && (c <=? 70) then Some (c - 55)
  else None.

(** The characters of a string literal after its opening quote: the decoded
    code units and the input after the closing quote. *)
Fixpoint parse_str_body (s : jsstr) (acc : jsstr) : option (jsstr * jsstr) :=
  match s with
  | [] => None
  | 34 :: r => Some (rev acc, r)
  | 92 :: e :: r =>
      if e =? 117 then
        match r with
        | a :: b :: c :: d :: r' =>
            match hex_val a, hex_val b, hex_val c, hex_val d with
            | Some a', Some b', Some c', Some d' =>
                parse_str_body r' ((((a' * 16 + b') * 16 + c') * 16 + d') :: acc)
            | _, _, _, _ => None
            end
        | _ => None
        end
      else
        let u := if e =? 34 then Some 34 else if e =? 92 then Some 92
                 else if e =? 47 then Some 47 else if e =? 98 then Some 8
                 else if e =? 102 then Some 12 else if e =? 110 then Some 10
                 else if e =? 114 then Some 13 else if e =? 116 then Some 9
                 else None in
        match u with Some u' => parse_str_body r (u' :: acc) | None => None end
  | c :: r => if c <? 32 then None else parse_str_body r (c :: acc)
  end.

Fixpoint take_digits (s : jsstr) : jsstr * jsstr :=
  match s with
  | c :: r => if is_digit c then let (d, rest) := take_digits r in (c :: d, rest) else ([], s)
  | [] => ([], [])
  end.

Definition digits_val (ds : jsstr) : Z := fold_left (fun a d => a * 10 + (d - 48)) ds 0.

(** [-? (0 | [1-9][0-9]* ) (. [0-9]+)? ([eE] [+-]? [0-9]+)?], valued exactly. *)
Definition parse_number (s : jsstr) : option (json * jsstr) :=
  let '(neg, s1) := match s with 45 :: r => (true, r) | _ => (false, s) end in
  let ip := match s1 with
            | 48 :: r => Some ([48], r)
            | c :: _ => if is_digit c then Some (take_digits s1) else None
            | [] => None
            end in
  match ip with
  | None => None
  | Some (idg, s2) =>
    let fp := match s2 with
              | 46 :: r => let (fd, s3) := take_digits r in
                           match fd with [] => None | _ => Some (fd, s3) end
              | _ => Some ([], s2)
              end in
    match fp with
    | None => None
    | Some (fdg, s3) =>
      let ep := match s3 with
                | e :: r =>
                    if (e =? 69) || (e =? 101) then
                      let '(sg, r1) := match r with
                                       | 43 :: r1 => (1, r1) | 45 :: r1 => (-1, r1)
                                       | _ => (1, r) end in
                      let (ed, s4) := take_digits r1 in
                      match ed with [] => None | _ => Some (sg * digits_val ed, s4) end
                    else Some (0, s3)
                | [] => Some (0, s3)
                end in
      match ep with
      | None => None
      | Some (ex, s4) =>
        let m := digits_val (idg ++ fdg) in
        let m' := if neg then - m else m in
        let e := ex - Z.of_nat (length fdg) in
        let q := if 0 <=? e then inject_Z (m' * 10 ^ e) else Qmake m' (Z.to_pos (10 ^ (- e))) in
        Some (JNum q, s4)
      end
    end
  end.

Fixpoint parse_value (fuel : nat) (s : jsstr) : option (json * jsstr) :=
  match fuel with
  | O => None
  | S f =>
    let members := fix members (n : nat) (s : jsstr) (acc : list (jsstr * json))
                     : option (json * jsstr) :=
      match n with
      | O => None
      | S n' =>
        match skip_jws s with
        | 34 :: r =>
          match parse_str_body r [] with
          | Some (k, r1) =>
            match skip_jws r1 with
            | 58 :: r2 =>
              match parse_value f r2 with
              | Some (v, r3) =>
                match skip_jws r3 with
                | 44 :: r4 => members n' r4 ((k, v) :: acc)
                | 125 :: r4 => Some (JObj (rev ((k, v) :: acc)), r4)
                | _ => None
                end
              | None => None
              end
            | _ => None
            end
          | None => None
          end
        | _ => None
        end
      end in
    let elements := fix elements (n : nat) (s : jsstr) (acc : list json)
                      : option (json * jsstr) :=
      match n with
      | O => None
      | S n' =>
        match parse_value f s with
        | Some (v, r3) =>
          match skip_jws r3 with
          | 44 :: r4 => elements n' r4 (v :: acc)
          | 93 :: r4 => Some (JArr (rev (v :: acc)), r4)
          | _ => None
          end
        | None => None
        end
      end in
    match skip_jws s with
    | 123 :: r => match skip_jws r with
                  | 125 :: r' => Some (JObj [], r')
                  | _ => members f r []
                  end
    | 91 :: r => match skip_jws r with
                 | 93 :: r' => Some (JArr [], r')
                 | _ => elements f r []
                 end
    | 34 :: r => match parse_str_body r [] with
                 | Some (str, r') => Some (JStr str, r')
                 | None => None
                 end
    | 116 :: 114 :: 117 :: 101 :: r => Some (JBool true, r)
    | 102 :: 97 :: 108 :: 115 :: 101 :: r => Some (JBool false, r)
    | 110 :: 117 :: 108 :: 108 :: r => Some (JNull, r)
    | s' => parse_number s'
    end
  end.

(** [JSON.parse(text)]; [None] is the [SyntaxError]. Every nested value
    consumes at least one code unit, so [length text + 1] steps suffice. *)
Definition JSON_parse (text : jsstr) : option json :=
  match parse_value (S (length text)) text with
  | Some (v, rest) => if bool_decide (skip_jws rest = []) then Some v else None
  | None => None
  end.

(* ------------------------------------------------------------------ *)
(** ** The stdout handler: [python.stdout.on("data", ...)] *)

(** [s.split("\n")] *)
Fixpoint split_nl_aux (s cur : jsstr) : list jsstr :=
  match s with
  | [] => [rev cur]
  | c :: r => if c =? 10 then rev cur :: split_nl_aux r [] else split_nl_aux r (c :: cur)
  end.

Definition split_nl (s : jsstr) : list jsstr := split_nl_aux s [].

(** One iteration of the [for (const line of lines)] loop: blank lines are
    skipped; the [try] block parses the line and hands it to
    [handlePythonMessage]; the [catch] block logs the line. *)
Definition process_line (st : State) (line : jsstr) : State * list Effect :=
  if bool_decide (trim line = []) then (st, [])
  else
    let logged := (st, [ConsoleLog (js "[Python Log]: " ++ line)]) in
    match JSON_parse line with
    | None => logged
    | Some msg =>
        match handlePythonMessage st msg with
        | Some r => r
        | None => logged
        end
    end.

Fixpoint process_lines (st : State) (lines : list jsstr) : State * list Effect :=
  match lines with
  | [] => (st, [])
  | l :: ls =>
      let (st1, e1) := process_line st l in
      let (st2, e2) := process_lines st1 ls in
      (st2, e1 ++ e2)
  end.

(** The ["data"] listener on one chunk of the processor's stdout. *)
Definition on_stdout_data (st : State) (data : jsstr) : State * list Effect :=
  process_lines st (split_nl data).

(** The [state] object at start-up, before any processor output. *)
Definition init_state : State :=
  mkState (Some (JStr (js "initializing"))) (JStr []) (js "af_heart") (js "af_heart")
    [] ∅ 0.

(** A JSON line written with single quotes for readability. *)
Definition jsq (s : string) : jsstr := map (fun c => if c =? 39 then 34 else c) (js s).

(* ------------------------------------------------------------------ *)
(** ** Observations on runs of the stdout handler *)

(** [msg] is an [mp3_complete] event for the job [j]. *)
Definition completes (msg : json) (j : jsstr) : bool :=
  is_str (get_field msg (js "type")) "mp3_complete" &&
  match get_field msg (js "jobId") with
  | Some (JStr k) => bool_decide (k = j)
  | _ => false
  end.

(** The stdout line [l] carries an [mp3_complete] event for [j]. *)
Definition line_completes (j : jsstr) (l : jsstr) : bool :=
  negb (bool_decide (trim l = [])) &&
  match JSON_parse l with Some v => completes v j | None => false end.

Fixpoint count_completing (j : jsstr) (lines : list jsstr) : nat :=
  match lines with
  | [] => 0%nat
  | l :: ls => ((if line_completes j l then 1 else 0) + count_completing j ls)%nat
  end.

(** The number of [combine_mp3] commands written for the job [j]. *)
Fixpoint count_combine (j : jsstr) (effs : list Effect) : nat :=
  match effs with
  | [] => 0%nat
  | StdinWrite (PCombine k _ _ _) :: es =>
      ((if bool_decide (k = j) then 1 else 0) + count_combine j es)%nat
  | _ :: es => count_combine j es
  end.

(** Every job is stored under its own id, as [speak_mp3_combined] does with
    [state.jobs.set(jobId, { id: jobId, ... })]. *)
Definition jobs_wf (st : State) : Prop :=
  map_Forall (fun k jb => jb.(job_id) = k) st.(jobs).

(** The job registered by [speak_mp3_combined] for [n] sections. *)
Definition demo_job (n : Z) : Job :=
  mkJob (js "job-1") (js "combine") (js "generating") n 0 (JNum 0)
    (JStr (js "generating")) None [js "/app/data/mp3/out-part-001.mp3"]
    (js "/app/data/mp3/out.mp3") true (js "2026-01-01T00:00:00.000Z").

Definition demo_state (n : Z) : State := set_jobs init_state {[ js "job-1" := demo_job n ]}.

(** Modelled from the spec: the processor's report of a failed synthesis
    ([processor.py] is not part of the sources). Sections 4.3 and 4.6: when
    the synthesizer errors, the worker emits an [error] event carrying the
    task id and the message, and no [mp3_complete] event for that part. *)
Definition processor_part_error (taskId message : jsstr) : json :=
  JObj [(js "type", JStr (js "error")); (js "id", JStr taskId); (js "message", JStr message)].

(** Processor output lines for the job of [demo_state]. *)
Definition mp3_complete_line : jsstr := jsq "{'type':'mp3_complete','jobId':'job-1','part_index':0}".

Definition done_progress_line : jsstr :=
  jsq "{'type':'progress','jobId':'job-1','percent':100,'phase':'done','detail':'Combined'}".

Definition job_after (st : State) (lines : list jsstr) : option Job :=
  (process_lines st lines).1.(jobs) !! js "job-1".

(* ------------------------------------------------------------------ *)
(** ** Path translation (identical in both source files) *)

Definition CONTAINER_DATA_PREFIX : jsstr := js "/app/data".

(** [process.env.MP3_HOST_PREFIX || "~/.tts"] *)
Definition MP3_HOST_PREFIX (env : option jsstr) : jsstr :=
  match env with
  | Some e => if bool_decide (e = []) then js "~/.tts" else e
  | None => js "~/.tts"
  end.

(** [containerToHostPath(containerPath)]; [None] is [null]. *)
Definition containerToHostPath (env : option jsstr) (p : option jsstr) : option jsstr :=
  match p with
  | None => None
  | Some s =>
      if bool_decide (s = []) then p
      else if starts_with s CONTAINER_DATA_PREFIX
      then Some (MP3_HOST_PREFIX env ++ drop (length CONTAINER_DATA_PREFIX) s)
      else p
  end.

(** [hostToContainerPath(hostPath)] *)
Definition hostToContainerPath (env : option jsstr) (p : option jsstr) : option jsstr :=
  match p with
  | None => None
  | Some s =>
      if bool_decide (s = []) then p
      else if starts_with s (MP3_HOST_PREFIX env)
      then Some (CONTAINER_DATA_PREFIX ++ drop (length (MP3_HOST_PREFIX env)) s)
      else p
  end.

(* ------------------------------------------------------------------ *)
(** ** History *)

(** [addToHistory(item)]: [unshift], then [pop] past 50 entries. *)
Definition addToHistory (st : State) (item : Item) : State * list Effect :=
  let h := item :: st.(history) in
  let h' := if 50 <? Z.of_nat (length h) then removelast h else h in
  (set_history st h', [BroadcastHistory]).

Definition insert_all (st : State) (items : list Item) : State :=
  fold_left (fun s it => (addToHistory s it).1) items st.

(** A history entry used in the examples. *)
Definition demo_item (n : Z) : Item :=
  mkItem [n] None (js "hello") (js "af_heart") 1 false None false (Some (js "2026-01-01T00:00:00.000Z")).

(* ------------------------------------------------------------------ *)
(** ** Identifiers and speak payloads *)

(** [uuidv4()]: the [n]-th value drawn from the generator.  A v4 UUID is
    random; the model only keeps what the code relies on, that a drawn value
    differs from every value drawn before it. *)
Definition uuid_of (n : nat) : jsstr := js "uuid-" ++ [Z.of_nat n].

Definition uuidv4 (st : State) : jsstr * State :=
  (uuid_of st.(uuid_seed), set_seed st (S st.(uuid_seed))).

(** [{ ...item, id: newId }] *)
Definition with_id (it : Item) (i : jsstr) : Item :=
  mkItem i it.(it_jobId) it.(it_text) it.(it_voice) it.(it_speed) it.(it_mp3)
    it.(it_mp3_path) it.(it_mp3announce) it.(it_timestamp).

(** [{ ...payload, timestamp: new Date().toISOString() }] *)
Definition with_timestamp (it : Item) (ts : jsstr) : Item :=
  mkItem it.(it_id) it.(it_jobId) it.(it_text) it.(it_voice) it.(it_speed) it.(it_mp3)
    it.(it_mp3_path) it.(it_mp3announce) (Some ts).

(** [voice || state.default_voice] *)
Definition select_voice (st : State) (voice : option jsstr) : jsstr :=
  match voice with
  | Some v => if bool_decide (v = []) then st.(default_voice) else v
  | None => st.(default_voice)
  end.

(** [speed || 1.0] *)
Definition select_speed (speed : option Q) : Q :=
  match speed with
  | Some q => if Qeq_bool q 0 then 1 else q
  | None => 1
  end.

(** [new Date().toISOString().replace(/[:.]/g, "-")] *)
Definition iso_to_filename (ts : jsstr) : jsstr :=
  map (fun c => if (c =? 58) || (c =? 46) then 45 else c) ts.

(** The value of a template literal [${p}] for a path or [null]. *)
Definition show_path (p : option jsstr) : jsstr :=
  match p with Some s => s | None => js "null" end.

Definition falsy_path (p : option jsstr) : bool :=
  match p with Some s => bool_decide (s = []) | None => true end.

(** [resolvedMp3Path]: the translated [mp3_path], or a generated file under
    [/app/data/mp3] when an MP3 is requested without a path. *)
Definition resolve_mp3_path (env : option jsstr) (now : jsstr) (mp3 : bool)
    (mp3_path : option jsstr) : option jsstr * list Effect :=
  let r := if falsy_path mp3_path then None else hostToContainerPath env mp3_path in
  if mp3 && falsy_path r then
    (Some (js "/app/data/mp3" ++ js "/tts-" ++ iso_to_filename now ++ js ".mp3"),
     [MkdirSync (js "/app/data/mp3")])
  else (r, []).

(** [speakToolHandler] of the MCP server; [now] is the value of
    [new Date().toISOString()], [env] the value of [MP3_HOST_PREFIX].  The
    result is the text of the tool's answer and its [isError] flag. *)
Definition speakToolHandler (env : option jsstr) (now : jsstr) (st : State) (text : jsstr)
    (voice : option jsstr) (speed : option Q) (mp3 : bool) (mp3_path : option jsstr)
    (mp3announce : bool) : State * list Effect * (jsstr * bool) :=
  let selectedVoice := select_voice st voice in
  let selectedSpeed := select_speed speed in
  let '(id, st1) := uuidv4 st in
  let '(resolved, e1) := resolve_mp3_path env now mp3 mp3_path in
  let payload := mkItem id None text selectedVoice selectedSpeed mp3 resolved mp3announce None in
  let '(st2, e2) := addToHistory st1 (with_timestamp payload now) in
  let hostPath := containerToHostPath env resolved in
  let resultText :=
    if mp3 then js "MP3 will be saved to " ++ show_path hostPath
    else js "Request sent to processor" in
  (st2, e1 ++ e2 ++
        [ConsoleLog (js "[MCP] Received speak request: " ++ take 50 text ++ js "...");
         StdinWrite (PSpeak payload);
         ConsoleLog (js "[MCP] Request written to Python stdin")],
   (resultText, false)).

(** [buildSpeakPayload] of the reverse client. *)
Definition buildSpeakPayload (env : option jsstr) (now : jsstr) (st : State) (text : jsstr)
    (voice : option jsstr) (speed : option Q) (mp3 : bool) (mp3_path : option jsstr)
    (mp3announce : bool) : Item * State * list Effect :=
  let '(id, st1) := uuidv4 st in
  let '(resolved, e1) := resolve_mp3_path env now mp3 mp3_path in
  (mkItem id None text (select_voice st voice) (select_speed speed) mp3 resolved mp3announce None,
   st1, e1).

(** [sendToProcessor(python, payload)], for a write that succeeds. *)
Definition sendToProcessor (env : option jsstr) (payload : Item) : list Effect * jsstr :=
  ([StdinWrite (PSpeak payload)],
   if payload.(it_mp3)
   then js "MP3 will be saved to " ++ show_path (containerToHostPath env payload.(it_mp3_path))
   else js "Request sent to processor").

(** The reverse client's [speak] tool. *)
Definition rc_speak (env : option jsstr) (now : jsstr) (st : State) (text : option json)
    (voice : option jsstr) (speed : option Q) : State * list Effect * jsstr :=
  match text with
  | Some (JStr t) =>
      if bool_decide (t = []) then (st, [], js "Error: text is required")
      else
        let '(payload, st1, e1) := buildSpeakPayload env now st t voice speed false None false in
        let '(st2, e2) := addToHistory st1 (with_timestamp payload now) in
        let '(e3, msg) := sendToProcessor env payload in
        (st2, e1 ++ e2 ++ e3, msg)
  | _ => (st, [], js "Error: text is required")
  end.

(** The reverse client's [speak_mp3] tool.  [args.mp3announce] is the
    boolean of the input schema, an absent one read as [false] (as
    [mp3announce || false] in [buildSpeakPayload] reads it). *)
Definition rc_speak_mp3 (env : option jsstr) (now : jsstr) (st : State) (text : option json)
    (voice : option jsstr) (speed : option Q) (mp3_path : option jsstr) (mp3announce : bool)
    : State * list Effect * jsstr :=
  match text with
  | Some (JStr t) =>
      if bool_decide (t = []) then (st, [], js "Error: text is required")
      else
        let '(payload, st1, e1) :=
          buildSpeakPayload env now st t voice speed true mp3_path mp3announce in
        let '(st2, e2) := addToHistory st1 (with_timestamp payload now) in
        let '(e3, msg) := sendToProcessor env payload in
        (st2, e1 ++ e2 ++ e3, msg)
  | _ => (st, [], js "Error: text is required")
  end.

(** The reverse client's [speak_with_options] tool: [buildSpeakPayload(args,
    state)], with [args.mp3] and [args.mp3announce] read as for
    [speak_mp3]. *)
Definition rc_speak_with_options (env : option jsstr) (now : jsstr) (st : State)
    (text : option json) (voice : option jsstr) (speed : option Q) (mp3 : bool)
    (mp3_path : option jsstr) (mp3announce : bool) : State * list Effect * jsstr :=
  match text with
  | Some (JStr t) =>
      if bool_decide (t = []) then (st, [], js "Error: text is required")
      else
        let '(payload, st1, e1) :=
          buildSpeakPayload env now st t voice speed mp3 mp3_path mp3announce in
        let '(st2, e2) := addToHistory st1 (with_timestamp payload now) in
        let '(e3, msg) := sendToProcessor env payload in
        (st2, e1 ++ e2 ++ e3, msg)
  | _ => (st, [], js "Error: text is required")
  end.

Record Voice := mkVoice {
  v_id : jsstr;
  v_name : jsstr;
  v_gender : jsstr;
  v_accent : jsstr;
  v_description : jsstr
}.

Definition AVAILABLE_VOICES : list Voice := [
  mkVoice (js "af_heart") (js "Heart") (js "female") (js "american") (js "Warm, expressive female voice (default)");
  mkVoice (js "af_bella") (js "Bella") (js "female") (js "american") (js "Smooth, confident female voice");
  mkVoice (js "af_nicole") (js "Nicole") (js "female") (js "american") (js "Clear, professional female voice");
  mkVoice (js "af_sarah") (js "Sarah") (js "female") (js "american") (js "Friendly, conversational female voice");
  mkVoice (js "af_sky") (js "Sky") (js "female") (js "american") (js "Light, airy female voice");
  mkVoice (js "am_adam") (js "Adam") (js "male") (js "american") (js "Deep, authoritative male voice");
  mkVoice (js "am_michael") (js "Michael") (js "male") (js "american") (js "Balanced, natural male voice");
  mkVoice (js "bf_emma") (js "Emma") (js "female") (js "british") (js "Elegant British female voice");
  mkVoice (js "bf_isabella") (js "Isabella") (js "female") (js "british") (js "Refined British female voice");
  mkVoice (js "bm_george") (js "George") (js "male") (js "british") (js "Distinguished British male voice");
  mkVoice (js "bm_lewis") (js "Lewis") (js "male") (js "british") (js "Warm British male voice")
].

Definition set_default_voice_state (st : State) (v : jsstr) : State :=
  mkState st.(status) st.(current_text) st.(current_voice) v
    st.(history) st.(jobs) st.(uuid_seed).

(** The reverse client's [set_default_voice] tool. *)
Definition set_default_voice (st : State) (voice : option json) : State * jsstr :=
  match voice with
  | Some (JStr v) =>
      if bool_decide (v = []) then (st, js "Error: voice ID is required")
      else
        match find (fun k => bool_decide (k.(v_id) = v)) AVAILABLE_VOICES with
        | None =>
            (st, jsq "Unknown voice '" ++ v ++ jsq "'. Use list_voices to see available options.")
        | Some known =>
            (set_default_voice_state st v,
             jsq "Default voice changed from '" ++ st.(default_voice) ++ jsq "' to '" ++ v
               ++ jsq "' (" ++ known.(v_name) ++ js ")")
        end
  | _ => (st, js "Error: voice ID is required")
  end.

(* ------------------------------------------------------------------ *)
(** ** Replay *)

(** [i => i.id === id] for the [id] of a request body. *)
Definition id_matches (id : option json) (i : Item) : bool :=
  match id with
  | Some (JStr s) => bool_decide (i.(it_id) = s)
  | _ => false
  end.

(** [POST /api/replay]: the new state, the effects and the HTTP status. *)
Definition api_replay (now : jsstr) (st : State) (id : option json) : State * list Effect * Z :=
  match find (id_matches id) st.(history) with
  | Some item =>
      let '(newId, st1) := uuidv4 st in
      let payload := with_id item newId in
      let '(st2, e) := addToHistory st1 (with_timestamp payload now) in
      (st2, e ++ [StdinWrite (PSpeak payload)], 200)
  | None => (st, [], 404)
  end.

(** The reverse client's [replay] tool. *)
Definition rc_replay (env : option jsstr) (now : jsstr) (st : State) (id : option json)
    : State * list Effect * jsstr :=
  match id with
  | Some (JStr s) =>
      if bool_decide (s = []) then (st, [], js "Error: history item ID is required")
      else
        match find (id_matches id) st.(history) with
        | None =>
            (st, [], jsq "History item '" ++ s
                       ++ jsq "' not found. Use get_history to see available items.")
        | Some item =>
            let '(newId, st1) := uuidv4 st in
            let payload := with_id item newId in
            let '(st2, e) := addToHistory st1 (with_timestamp payload now) in
            let '(e', msg) := sendToProcessor env payload in
            (st2, e ++ e', msg)
        end
  | _ => (st, [], js "Error: history item ID is required")
  end.

(** Every id in the history was drawn from the generator before its current
    position: the entries are made by [speakToolHandler], [buildSpeakPayload]
    and the replays, all of which take a fresh [uuidv4()]. *)
Definition ids_drawn (st : State) : Prop :=
  Forall (fun it => exists n, (n < st.(uuid_seed))%nat /\ it.(it_id) = uuid_of n) st.(history).

(** A state with two entries in its history. *)
Definition replay_state : State :=
  mkState (Some (JStr (js "ready"))) (JStr []) (js "af_heart") (js "af_heart")
    [with_id (demo_item 0) (uuid_of 1); with_id (demo_item 0) (uuid_of 0)] ∅ 2.

(* ------------------------------------------------------------------ *)
(** ** Splitting long text into sections

    [splitTextIntoSections] of the MCP server; [splitTextForCombine] of the
    reverse client has the same body.  [String.prototype.split] with a regular
    expression scans the string left to right, tries a match at each
    position, and on a match cuts the piece before it and resumes after it. *)

(** The longest prefix of whitespace and the rest. *)
Fixpoint ws_span (l : jsstr) : jsstr * jsstr :=
  match l with
  | c :: t => if is_ws c then let '(r, rest) := ws_span t in (c :: r, rest) else ([], l)
  | [] => ([], [])
  end.

(** What follows the last [\n] of a list, if it has one. *)
Fixpoint after_last_nl (l : jsstr) : option jsstr :=
  match l with
  | [] => None
  | c :: t =>
      match after_last_nl t with
      | Some r => Some r
      | None => if c =? 10 then Some t else None
      end
  end.

(** A match of [/\n\s*\n/] whose first [\n] has just been read, followed by
    [t]: the greedy [\s*] takes the whole whitespace run and gives characters
    back until a [\n] follows, so the match ends after the last [\n] of the
    run.  The result is what follows the match. *)
Definition para_sep_rest (t : jsstr) : option jsstr :=
  let '(run, rest) := ws_span t in
  match after_last_nl run with
  | Some r => Some (r ++ rest)
  | None => None
  end.

Fixpoint split_para_aux (fuel : nat) (l cur_rev : jsstr) : list jsstr :=
  match fuel with
  | O => [rev' cur_rev ++ l]
  | S f =>
      match l with
      | [] => [rev' cur_rev]
      | c :: t =>
          match (if c =? 10 then para_sep_rest t else None) with
          | Some rest => rev' cur_rev :: split_para_aux f rest []
          | None => split_para_aux f t (c :: cur_rev)
          end
      end
  end.

(** [text.split(/\n\s*\n/)]; every step consumes a character. *)
Definition split_paragraphs (text : jsstr) : list jsstr :=
  split_para_aux (S (length text)) text [].

Definition is_end_punct (c : Z) : bool := (c =? 46) || (c =? 33) || (c =? 63).

(** [prev] is the character before [l] in the paragraph, read by the
    lookbehind [(?<=[.!?])]; a match of [\s+] is the whole whitespace run. *)
Fixpoint split_sent_aux (fuel : nat) (prev : option Z) (l cur_rev : jsstr) : list jsstr :=
  match fuel with
  | O => [rev' cur_rev ++ l]
  | S f =>
      match l with
      | [] => [rev' cur_rev]
      | c :: t =>
          if match prev with Some p => is_end_punct p | None => false end && is_ws c then
            let '(run, rest) := ws_span t in
            rev' cur_rev :: split_sent_aux f (Some (List.last run c)) rest []
          else split_sent_aux f (Some c) t (c :: cur_rev)
      end
  end.

(** [para.split(/(?<=[.!?])\s+/)] *)
Definition split_sentences (para : jsstr) : list jsstr :=
  split_sent_aux (S (length para)) None para [].

(** [text.split(/\n\s*\n/).filter(p => p.trim().length > 0)] *)
Definition paragraphs_of (text : jsstr) : list jsstr :=
  List.filter (fun p => negb (bool_decide (trim p = []))) (split_paragraphs text).

(** One turn of the inner loop [for (const sentence of sentences)]; the
    accumulator is [(sections, current)]. *)
Definition sent_step (maxChars : Z) (acc : list jsstr * jsstr) (sentence : jsstr)
    : list jsstr * jsstr :=
  let '(sections, current) := acc in
  let '(sections, current) :=
    if (maxChars <? Z.of_nat (length current) + Z.of_nat (length sentence) + 1)
       && (0 <? Z.of_nat (length current))
    then (sections ++ [trim current], []) else (sections, current) in
  (sections, current ++ (if bool_decide (current = []) then [] else [32]) ++ sentence).

(** One turn of the outer loop [for (const para of paragraphs)]. *)
Definition para_step (maxChars : Z) (acc : list jsstr * jsstr) (para : jsstr)
    : list jsstr * jsstr :=
  let '(sections, current) := acc in
  let '(sections, current) :=
    if (maxChars <? Z.of_nat (length current) + Z.of_nat (length para) + 2)
       && (0 <? Z.of_nat (length current))
    then (sections ++ [trim current], []) else (sections, current) in
  if maxChars <? Z.of_nat (length para) then
    let '(sections, current) :=
      if 0 <? Z.of_nat (length current) then (sections ++ [trim current], [])
      else (sections, current) in
    fold_left (sent_step maxChars) (split_sentences para) (sections, current)
  else (sections, current ++ (if bool_decide (current = []) then [] else [10; 10]) ++ para).

Definition splitTextIntoSections (text : jsstr) (maxChars : Z) : list jsstr :=
  if Z.of_nat (length text) <=? maxChars then [text]
  else
    let '(sections, current) := fold_left (para_step maxChars) (paragraphs_of text) ([], []) in
    let sections :=
      if bool_decide (trim current = []) then sections else sections ++ [trim current] in
    match sections with
    | [] => [text]
    | _ => sections
    end.

(** A returned section that is one sentence of a paragraph of [text], longer
    than [maxChars], trimmed. *)
Definition long_sentence (text : jsstr) (maxChars : Z) (s : jsstr) : Prop :=
  exists para sent, In para (paragraphs_of text) /\ In sent (split_sentences para) /\
    maxChars < Z.of_nat (length sent) /\ s = trim sent.

(** Documents of 12,000 characters. *)
Definition one_word_doc : jsstr := repeat 97 12000.
Definition short_paragraphs_doc : jsstr := concat (repeat [120; 10; 10; 10] 3000).
Definition blank_doc : jsstr := repeat 32 12000.

(* ------------------------------------------------------------------ *)
(** ** Joining lines *)

(** [lines.join("\n")] *)
Fixpoint join_nl (l : list jsstr) : jsstr :=
  match l with
  | [] => []
  | [x] => x
  | x :: xs => x ++ 10 :: join_nl xs
  end.

(* ------------------------------------------------------------------ *)
(** ** [speak_mp3_combined] of the MCP server *)

(** [max_chars_per_section || 5000].  Every comparison made by
    [splitTextIntoSections] is between an integer length and [maxChars], so
    it has the outcome it has with [Math.floor(maxChars)]. *)
Definition select_max_chars (m : option Q) : Z :=
  match m with
  | Some q => if Qeq_bool q 0 then 5000 else Qfloor q
  | None => 5000
  end.

(** [containerOutputPath]: the translated [mp3_path], or a generated file
    under [/app/data/mp3] after creating that directory. *)
Definition combined_output_path (env : option jsstr) (now : jsstr) (mp3_path : option jsstr)
    : jsstr * list Effect :=
  let generated :=
    (js "/app/data/mp3" ++ js "/tts-combined-" ++ iso_to_filename now ++ js ".mp3",
     [MkdirSync (js "/app/data/mp3")]) in
  let c := if falsy_path mp3_path then None else hostToContainerPath env mp3_path in
  match c with
  | Some p => if bool_decide (p = []) then generated else (p, [])
  | None => generated
  end.

(** The four code units at the end of [p] match [/\.mp3$/i]: with the flag
    [i], [m] and [p] match either case. *)
Definition mp3_suffix (l : jsstr) : bool :=
  match l with
  | [d; m; p; t] =>
      (d =? 46) && ((m =? 109) || (m =? 77)) && ((p =? 112) || (p =? 80)) && (t =? 51)
  | _ => false
  end.

(** [p.replace(/\.mp3$/i, "")] *)
Definition strip_mp3 (p : jsstr) : jsstr :=
  if mp3_suffix (drop (length p - 4) p) then take (length p - 4) p else p.

(** [s.padStart(3, "0")] *)
Definition pad_start3 (s : jsstr) : jsstr := repeat 48 (3 - length s) ++ s.

(** [`${baseName}-part-${String(i + 1).padStart(3, "0")}.mp3`] *)
Definition part_path (baseName : jsstr) (i : nat) : jsstr :=
  baseName ++ js "-part-" ++ pad_start3 (js_of_Z (Z.of_nat i + 1)) ++ js ".mp3".

(** [cleanup_parts !== false] *)
Definition cleanup_flag (cleanup_parts : option bool) : bool :=
  match cleanup_parts with Some false => false | _ => true end.

(** The loop [for (let i = 0; i < sections.length; i++)] that queues the
    parts, from index [i] on. *)
Fixpoint queue_parts (now jobId voice : jsstr) (speed : Q) (partPaths : list jsstr)
    (st : State) (i : nat) (sections : list jsstr) : State * list Effect :=
  match sections with
  | [] => (st, [])
  | s :: rest =>
      let '(pid, st1) := uuidv4 st in
      let partPayload :=
        mkItem pid (Some jobId) s voice speed true (Some (nth i partPaths [])) false None in
      let '(st2, e1) := addToHistory st1 (with_timestamp partPayload now) in
      let '(st3, e2) := queue_parts now jobId voice speed partPaths st2 (S i) rest in
      (st3, e1 ++ StdinWrite (PSpeak partPayload) :: e2)
  end.

(** The [speak_mp3_combined] tool of the MCP server: the new state, the
    effects and the text of the answer. *)
Definition speak_mp3_combined (env : option jsstr) (now : jsstr) (st : State) (text : jsstr)
    (voice : option jsstr) (speed : option Q) (mp3_path : option jsstr)
    (max_chars_per_section : option Q) (cleanup_parts : option bool)
    : State * list Effect * jsstr :=
  let maxChars := select_max_chars max_chars_per_section in
  let sections := splitTextIntoSections text maxChars in
  let '(jobId, st1) := uuidv4 st in
  let selectedVoice := select_voice st1 voice in
  let selectedSpeed := select_speed speed in
  let '(containerOutputPath, e1) := combined_output_path env now mp3_path in
  let baseName := strip_mp3 containerOutputPath in
  let partPaths := map (part_path baseName) (seq 0 (length sections)) in
  let job := mkJob jobId (js "combine") (js "generating") (Z.of_nat (length sections)) 0
               (JNum 0) (JStr (js "generating")) None partPaths containerOutputPath
               (cleanup_flag cleanup_parts) now in
  let st2 := set_jobs st1 (<[jobId := job]> st1.(jobs)) in
  let '(st3, e2) := queue_parts now jobId selectedVoice selectedSpeed partPaths st2 0 sections in
  let hostOutputPath := containerToHostPath env (Some containerOutputPath) in
  (st3, e1 ++ e2,
   js "MP3 combine job started (" ++ jobId ++ js "). "
     ++ js_of_Z (Z.of_nat (length sections)) ++ js " section(s) queued. Output: "
     ++ show_path hostOutputPath ++ js ". Use get_job_status to track progress.").

(** The speak payloads among the lines written to the processor, in order. *)
Fixpoint speak_writes (effs : list Effect) : list Item :=
  match effs with
  | [] => []
  | StdinWrite (PSpeak it) :: es => it :: speak_writes es
  | _ :: es => speak_writes es
  end.

(** A processor line reporting the completion of a part of the job [j]. *)
Definition mp3_complete_for (j : jsstr) : jsstr :=
  jsq "{'type':'mp3_complete','jobId':'" ++ j ++ jsq "'}".

(* ------------------------------------------------------------------ *)
(** ** Tools of the reverse client *)

(** The paragraphs of [narrate_document]:
    [text.split(/\n\s*\n/).map(p => p.trim()).filter(p => p.length > 0)]. *)
Definition narrate_paragraphs (text : jsstr) : list jsstr :=
  List.filter (fun p => negb (bool_decide (p = []))) (map trim (split_paragraphs text)).

(** The loop [for (const para of paragraphs)] of [narrate_document], for
    writes that succeed; the result lines are [✓ Queued: "..."]. *)
Fixpoint narrate_loop (env : option jsstr) (now : jsstr) (st : State) (voice : option jsstr)
    (speed : option Q) (paragraphs : list jsstr) : State * list Effect * list jsstr :=
  match paragraphs with
  | [] => (st, [], [])
  | para :: rest =>
      let '(payload, st1, e1) := buildSpeakPayload env now st para voice speed false None false in
      let '(st2, e2) := addToHistory st1 (with_timestamp payload now) in
      let '(e3, _) := sendToProcessor env payload in
      let '(st3, e4, results) := narrate_loop env now st2 voice speed rest in
      (st3, e1 ++ e2 ++ e3 ++ e4,
       ([10003] ++ js " Queued: " ++ [34] ++ take 60 para ++ js "..." ++ [34]) :: results)
  end.

(** The reverse client's [narrate_document] tool. *)
Definition narrate_document (env : option jsstr) (now : jsstr) (st : State) (text : option json)
    (voice : option jsstr) (speed : option Q) : State * list Effect * jsstr :=
  match text with
  | Some (JStr t) =>
      if bool_decide (t = []) then (st, [], js "Error: text is required")
      else
        let paragraphs := narrate_paragraphs t in
        match paragraphs with
        | [] => (st, [], js "No paragraphs found in the provided text.")
        | _ =>
            let '(st1, effs, results) := narrate_loop env now st voice speed paragraphs in
            (st1, effs,
             js "Narration queued: " ++ js_of_Z (Z.of_nat (length paragraphs))
               ++ js " paragraph(s)" ++ 10 :: join_nl results)
        end
  | _ => (st, [], js "Error: text is required")
  end.

(** An entry of the array returned (as JSON) by [get_history]. *)
Record HistoryView := mkHistoryView {
  hv_index : Z;
  hv_id : jsstr;
  hv_text : jsstr;
  hv_voice : jsstr;
  hv_speed : Q;
  hv_mp3 : bool;
  hv_timestamp : option jsstr
}.

(** [Math.min(Math.max(1, limit || 10), 50)] for a numeric or absent [limit]. *)
Definition history_limit (limit : option Q) : Q :=
  let l := match limit with
           | Some q => if Qeq_bool q 0 then 10%Q else q
           | None => 10%Q
           end in
  Qmin (Qmax 1 l) 50.

(** The callback of [.map((item, i) => ...)], from index [i] on. *)
Fixpoint history_views (i : nat) (items : list Item) : list HistoryView :=
  match items with
  | [] => []
  | item :: rest =>
      mkHistoryView (Z.of_nat i + 1) item.(it_id)
        (take 100 item.(it_text) ++
           (if 100 <? Z.of_nat (length item.(it_text)) then js "..." else []))
        item.(it_voice) item.(it_speed) item.(it_mp3) item.(it_timestamp)
      :: history_views (S i) rest
  end.

(** The reverse client's [get_history] tool: the array it serialises.
    [slice(0, n)] truncates [n >= 1] to an integer. *)
Definition get_history (st : State) (limit : option Q) : list HistoryView :=
  history_views 0 (take (Z.to_nat (Qfloor (history_limit limit))) st.(history)).

(** The reverse client's [clear_history] tool. *)
Definition clear_history (st : State) : State * jsstr :=
  (set_history st [],
   js "Cleared " ++ js_of_Z (Z.of_nat (length st.(history))) ++ js " history item(s)").

(** The sample sentence of [preview_voice]. *)
Definition preview_text (known : Voice) : jsstr :=
  js "Hello! This is " ++ known.(v_name) ++ js ", a " ++ known.(v_accent) ++ js " "
    ++ known.(v_gender) ++ js " voice. How do I sound?".

(** The reverse client's [preview_voice] tool. *)
Definition preview_voice (env : option jsstr) (now : jsstr) (st : State) (voice : option json)
    (sample_text : option jsstr) : State * list Effect * jsstr :=
  match voice with
  | Some (JStr v) =>
      if bool_decide (v = []) then (st, [], js "Error: voice ID is required")
      else
        match find (fun k => bool_decide (k.(v_id) = v)) AVAILABLE_VOICES with
        | None =>
            (st, [], jsq "Unknown voice '" ++ v
                       ++ jsq "'. Use list_voices to see available options.")
        | Some known =>
            let text := match sample_text with
                        | Some s => if bool_decide (s = []) then preview_text known else s
                        | None => preview_text known
                        end in
            let '(payload, st1, e1) :=
              buildSpeakPayload env now st text (Some v) (Some 1%Q) false None false in
            let '(st2, e2) := addToHistory st1 (with_timestamp payload now) in
            let '(e3, msg) := sendToProcessor env payload in
            (st2, e1 ++ e2 ++ e3, msg)
        end
  | _ => (st, [], js "Error: voice ID is required")
  end.

(* ------------------------------------------------------------------ *)
(** ** [POST /api/control] *)

(** [state.playback]; [currentJobId] is [null] or a value of a request. *)
Record Playback := mkPlayback {
  paused : bool;
  currentJobId : json;
  currentIndex : Z
}.

(** What the control endpoint does: the effects of the rest of the model,
    and the lines [sendControl(command, params)] writes to the processor. *)
Inductive ControlEffect : Type :=
| Base (e : Effect)
| WriteControl (command : jsstr) (params : list (jsstr * json)).

Definition playback_commands : list jsstr :=
  map js ["pause"; "resume"; "stop"; "restart"; "next"; "previous"]%string.

(** [POST /api/control] with the body's [command], [voice] and [index]
    (the answer is always [{ success: true }]).  [None] is the case where
    [state.default_voice = voice] stores a value that is not a string. *)
Definition api_control (st : State) (pb : Playback) (command voice index : option json)
    : option (State * Playback * list ControlEffect) :=
  if is_str command "set_voice" then
    match voice with
    | Some (JStr v) => Some (set_default_voice_state st v, pb, [Base BroadcastStatus])
    | _ => None
    end
  else
    match command with
    | Some (JStr c) =>
        if bool_decide (c ∈ playback_commands) then
          let pb1 := if bool_decide (c = js "pause")
                     then mkPlayback true pb.(currentJobId) pb.(currentIndex) else pb in
          let pb2 := if bool_decide (c = js "resume")
                     then mkPlayback false pb1.(currentJobId) pb1.(currentIndex) else pb1 in
          let pb3 := if bool_decide (c = js "stop")
                     then mkPlayback false JNull pb2.(currentIndex) else pb2 in
          Some (st, pb3, [WriteControl c []; Base BroadcastStatus])
        else if bool_decide (c = js "start_at") then
          match index with
          | Some (JNum q) => Some (st, pb, [WriteControl c [(js "index", JNum q)]])
          | _ => Some (st, pb, [])
          end
        else Some (st, pb, [])
    | _ => Some (st, pb, [])
    end.

(* ------------------------------------------------------------------ *)
(** ** [splitMarkdownSections] of the reverse client *)

(** The code units that [.] does not match. *)
Definition is_line_terminator (c : Z) : bool :=
  (c =? 10) || (c =? 13) || (c =? 8232) || (c =? 8233).

(** What the greedy [(.+)] takes at the start of [l] (nothing if it fails). *)
Fixpoint dot_run (l : jsstr) : jsstr :=
  match l with
  | c :: t => if is_line_terminator c then [] else c :: dot_run t
  | [] => []
  end.

(** [\s+(.+)] on [r] where [\s+] first takes [j] code units: on a failure of
    [(.+)] the greedy [\s+] gives one back, down to one. *)
Fixpoint ws_then_dot (j : nat) (r : jsstr) : option jsstr :=
  match j with
  | O => None
  | S j' =>
      match dot_run (drop j r) with
      | [] => ws_then_dot j' r
      | d => Some d
      end
  end.

(** [#{1,4}\s+(.+)] where [#{1,4}] first takes [k] code units, giving them
    back one by one on a failure. *)
Fixpoint hashes_then (k : nat) (line : jsstr) : option jsstr :=
  match k with
  | O => None
  | S k' =>
      let r := drop k line in
      match ws_then_dot (length (ws_span r).1) r with
      | Some g => Some g
      | None => hashes_then k' line
      end
  end.

Fixpoint lead_hashes (l : jsstr) : nat :=
  match l with
  | c :: t => if c =? 35 then S (lead_hashes t) else O
  | [] => O
  end.

(** [line.match(/^(#{1,4})\s+(.+)/)], as its group 2 when it matches. *)
Definition heading_match (line : jsstr) : option jsstr :=
  hashes_then (Nat.min 4 (lead_hashes line)) line.

Record MdSection := mkMdSection {
  md_heading : jsstr;
  md_content : jsstr;
  md_type : jsstr
}.

(** The section type after a line of content. *)
Definition md_line_type (line currentType : jsstr) : jsstr :=
  if starts_with line (js "```mermaid") then js "diagram"
  else if starts_with line (js "```") && negb (bool_decide (currentType = js "diagram"))
  then js "code"
  else if starts_with line (js "|") && existsb (fun c => c =? 124) line then js "table"
  else currentType.

(** The flush of a section: it is kept if its trimmed content is not empty. *)
Definition md_flush (sections : list MdSection) (heading : jsstr) (lines : list jsstr)
    (ty : jsstr) : list MdSection :=
  let content := trim (join_nl lines) in
  if 0 <? Z.of_nat (length content)
  then sections ++ [mkMdSection heading content ty] else sections.

(** One turn of [for (const line of lines)]; the accumulator is
    [(sections, currentHeading, currentLines, currentType)]. *)
Definition md_step (acc : list MdSection * jsstr * list jsstr * jsstr) (line : jsstr)
    : list MdSection * jsstr * list jsstr * jsstr :=
  let '(sections, heading, lines, ty) := acc in
  match heading_match line with
  | Some g => (md_flush sections heading lines ty, trim g, [], js "text")
  | None => (sections, heading, lines ++ [line], md_line_type line ty)
  end.

Definition splitMarkdownSections (markdown : option json) : list MdSection :=
  match markdown with
  | Some (JStr m) =>
      if bool_decide (m = []) then []
      else
        let '(sections, heading, lines, ty) :=
          fold_left md_step (split_nl m) ([], js "Introduction", [], js "text") in
        md_flush sections heading lines ty
  | _ => []
  end.

(** The number of heading lines of a document. *)
Definition heading_count (m : jsstr) : nat :=
  length (List.filter (fun l => if heading_match l then true else false) (split_nl m)).

(* ------------------------------------------------------------------ *)
(** ** [POST /api/speak] *)

(** [POST /api/speak], for a body whose fields have the types of the speak
    tool's parameters; the answer is the HTTP status and the [id] of
    [{ success: true, id }]. *)
Definition api_speak (env : option jsstr) (now : jsstr) (st : State) (text : option jsstr)
    (voice : option jsstr) (speed : option Q) (mp3 : bool) (mp3_path : option jsstr)
    (mp3announce : bool) : State * list Effect * (Z * option jsstr) :=
  match text with
  | Some t =>
      if bool_decide (t = []) then (st, [], (400, None))
      else
        let '(id, st1) := uuidv4 st in
        let '(resolved, e1) := resolve_mp3_path env now mp3 mp3_path in
        let payload :=
          mkItem id None t (select_voice st1 voice) (select_speed speed) mp3 resolved
            mp3announce None in
        let '(st2, e2) := addToHistory st1 (with_timestamp payload now) in
        (st2,
         e1 ++ ConsoleError (Some (JStr (js "[API] Received speak request: " ++ take 50 t
                                         ++ js "...")))
            :: e2 ++ [StdinWrite (PSpeak payload)],
         (200, Some id))
  | None => (st, [], (400, None))
  end.

(* ------------------------------------------------------------------ *)
(** ** Job status *)

(** [containerToHostPath(job.outputPath)] for the string [job.outputPath]. *)
Definition host_output_path (env : option jsstr) (p : jsstr) : jsstr :=
  match containerToHostPath env (Some p) with Some q => q | None => p end.

(** [{ ...job, outputPath: containerToHostPath(job.outputPath) }] *)
Definition job_with_host_path (env : option jsstr) (j : Job) : Job :=
  mkJob j.(job_id) j.(job_type) j.(job_status) j.(totalParts) j.(completedParts) j.(percent)
    j.(phase) j.(detail) j.(partPaths) (host_output_path env j.(outputPath)) j.(cleanupParts)
    j.(createdAt).

(** An entry of the list of all jobs:
    [{ id, type, status, percent, phase, outputPath }]. *)
Record JobSummary := mkJobSummary {
  sm_id : jsstr;
  sm_type : jsstr;
  sm_status : jsstr;
  sm_percent : json;
  sm_phase : json;
  sm_outputPath : jsstr
}.

Definition job_summary (env : option jsstr) (id : jsstr) (j : Job) : JobSummary :=
  mkJobSummary id j.(job_type) j.(job_status) j.(percent) j.(phase)
    (host_output_path env j.(outputPath)).

(** What [get_job_status] answers: a text, one job, or the list of all jobs
    (serialised with [JSON.stringify]).  [for (const [id, job] of
    state.jobs)] visits the jobs in insertion order; the model lists them in
    the order of [map_to_list]. *)
Inductive JobStatusAnswer : Type :=
| JobText (text : jsstr)
| JobDetail (job : Job)
| JobList (all : list JobSummary).

(** The [get_job_status] tool of the MCP server; [job_id] is optional. *)
Definition mcp_get_job_status (env : option jsstr) (st : State) (job_id : option jsstr)
    : JobStatusAnswer :=
  match job_id with
  | Some k =>
      if bool_decide (k = []) then
        let all := map (fun kv => job_summary env kv.1 kv.2) (map_to_list st.(jobs)) in
        match all with [] => JobText (js "No active jobs.") | _ => JobList all end
      else
        match st.(jobs) !! k with
        | None => JobText (jsq "Job '" ++ k ++ jsq "' not found.")
        | Some j => JobDetail (job_with_host_path env j)
        end
  | None =>
      let all := map (fun kv => job_summary env kv.1 kv.2) (map_to_list st.(jobs)) in
      match all with [] => JobText (js "No active jobs.") | _ => JobList all end
  end.

(** The [get_job_status] tool of the reverse client. *)
Definition rc_get_job_status (env : option jsstr) (st : State) (job_id : option jsstr)
    : JobStatusAnswer :=
  if bool_decide (st.(jobs) = ∅) then JobText (js "No active jobs.")
  else
    match job_id with
    | Some k =>
        if bool_decide (k = []) then
          JobList (map (fun kv => job_summary env kv.1 kv.2) (map_to_list st.(jobs)))
        else
          match st.(jobs) !! k with
          | None => JobText (jsq "Job '" ++ k ++ jsq "' not found.")
          | Some j => JobDetail (job_with_host_path env j)
          end
    | None => JobList (map (fun kv => job_summary env kv.1 kv.2) (map_to_list st.(jobs)))
    end.

(* ------------------------------------------------------------------ *)
(** ** Playback tools *)

(** The playback tools without parameters, of the MCP server ([pause],
    [resume], [stop], [restart], [next], [previous]) and of the reverse
    client ([pause_playback], ..., [previous_item]). *)
Inductive PlaybackTool : Type :=
| TPause | TResume | TStop | TRestart | TNext | TPrevious.

(** The command each tool passes to [sendControl]. *)
Definition tool_command (t : PlaybackTool) : jsstr :=
  match t with
  | TPause => js "pause"
  | TResume => js "resume"
  | TStop => js "stop"
  | TRestart => js "restart"
  | TNext => js "next"
  | TPrevious => js "previous"
  end.

(** The playback tools of the MCP server: the new [state.playback], the
    effects and the text of the answer. *)
Definition mcp_playback_tool (pb : Playback) (t : PlaybackTool)
    : Playback * list ControlEffect * jsstr :=
  match t with
  | TPause =>
      (mkPlayback true pb.(currentJobId) pb.(currentIndex),
       [WriteControl (js "pause") []; Base BroadcastStatus], js "Playback paused.")
  | TResume =>
      (mkPlayback false pb.(currentJobId) pb.(currentIndex),
       [WriteControl (js "resume") []; Base BroadcastStatus], js "Playback resumed.")
  | TStop =>
      (mkPlayback false JNull pb.(currentIndex),
       [WriteControl (js "stop") []; Base BroadcastStatus],
       js "Playback stopped and queue cleared.")
  | TRestart =>
      (mkPlayback false pb.(currentJobId) pb.(currentIndex),
       [WriteControl (js "restart") []; Base BroadcastStatus],
       js "Restarting current item from beginning.")
  | TNext => (pb, [WriteControl (js "next") []], js "Skipped to next item.")
  | TPrevious => (pb, [WriteControl (js "previous") []], js "Rewound to previous item.")
  end.

(** The playback tools of the reverse client ([sendControlFromRC]; the
    shared [state.playback] exists). *)
Definition rc_playback_tool (pb : Playback) (t : PlaybackTool)
    : Playback * list ControlEffect * jsstr :=
  match t with
  | TPause =>
      (mkPlayback true pb.(currentJobId) pb.(currentIndex),
       [WriteControl (js "pause") []], js "Playback paused.")
  | TResume =>
      (mkPlayback false pb.(currentJobId) pb.(currentIndex),
       [WriteControl (js "resume") []], js "Playback resumed.")
  | TStop =>
      (mkPlayback false JNull pb.(currentIndex),
       [WriteControl (js "stop") []], js "Playback stopped and queue cleared.")
  | TRestart =>
      (mkPlayback false pb.(currentJobId) pb.(currentIndex),
       [WriteControl (js "restart") []], js "Restarting current item from beginning.")
  | TNext => (pb, [WriteControl (js "next") []], js "Skipped to next item.")
  | TPrevious => (pb, [WriteControl (js "previous") []], js "Rewound to previous item.")
  end.

(* ------------------------------------------------------------------ *)
(** ** Facts about one message *)

Definition ready_status : option json := Some (JStr (js "ready")).

Lemma is_str_eq v lit : is_str v lit = true -> v = Some (JStr (js lit)).
Proof.
  destruct v as [[]|]; simpl; try discriminate.
  intros H. apply bool_decide_eq_true in H. by subst.
Qed.

Lemma is_str_not_ready v : is_str v "ready" = false -> v <> ready_status.
Proof.
  intros E ->. vm_compute in E. discriminate.
Qed.

Lemma handle_keeps_not_ready st msg st' effs :
  handlePythonMessage st msg = Some (st', effs) ->
  st.(status) <> ready_status -> st'.(status) <> ready_status.
Proof.
  intros H Hst. unfold handlePythonMessage in H.
  destruct msg; [discriminate|..]; injection H as H; unfold handle_msg in H;
  repeat (case_match; simplify_eq); subst; try done;
  first [ by apply is_str_not_ready | by vm_compute ].
Qed.

Lemma process_line_keeps_not_ready st l :
  st.(status) <> ready_status -> (process_line st l).1.(status) <> ready_status.
Proof.
  intros Hst. unfold process_line.
  destruct (bool_decide _); [done|].
  destruct (JSON_parse l) as [msg|]; [|done].
  destruct (handlePythonMessage st msg) as [[st' e]|] eqn:E; [|done].
  eapply handle_keeps_not_ready; eauto.
Qed.

(** C10: a status message whose [state] is ["ready"] publishes ["idle"]; one
    whose [state] is not ["processing"] clears [current_text]; and so no
    sequence of stdout lines ever makes the published status ["ready"]. *)
Theorem status_never_ready :
  (forall st msg st' effs,
     handlePythonMessage st msg = Some (st', effs) ->
     is_str (get_field msg (js "type")) "status" = true ->
     (is_str (get_field msg (js "state")) "ready" = true ->
        st'.(status) = Some (JStr (js "idle"))) /\
     (is_str (get_field msg (js "state")) "processing" = false ->
        st'.(current_text) = JStr [])) /\
  (forall st lines, st.(status) <> ready_status ->
     (process_lines st lines).1.(status) <> ready_status).
Proof.
  split.
  - intros st msg st' effs H Ht. unfold handlePythonMessage in H.
    destruct msg; [discriminate|try (vm_compute in Ht; discriminate)..].
    injection H as H; unfold handle_msg in H;
      simpl in H; rewrite Ht in H; injection H as <- <-;
      split; intros E; unfold set_status; simpl; by rewrite E.
  - intros st lines. revert st.
    induction lines as [|l ls IH]; intros st Hst; simpl; [done|].
    pose proof (process_line_keeps_not_ready st l Hst) as H1.
    destruct (process_line st l) as [st1 e1].
    specialize (IH st1 H1). destruct (process_lines st1 ls). exact IH.
Qed.

Lemma status_never_ready_witness :
  handlePythonMessage init_state (JObj [(js "type", JStr (js "status")); (js "state", JStr (js "ready"))])
    = Some (set_status init_state (Some (JStr (js "idle"))) (JStr []), [BroadcastStatus]) /\
  (process_lines init_state [jsq "{'type':'status','state':'ready'}"]).1.(status)
    <> ready_status.
Proof.
  split.
  - reflexivity.
  - apply (proj2 status_never_ready). vm_compute. discriminate.
Defined.

(* ------------------------------------------------------------------ *)
(** ** How one message moves a combine job *)

Lemma completes_true msg j :
  completes msg j = true ->
  get_field msg (js "type") = Some (JStr (js "mp3_complete")) /\
  get_field msg (js "jobId") = Some (JStr j).
Proof.
  unfold completes. intros H. apply andb_prop in H as [H1 H2].
  split; [by apply is_str_eq|].
  destruct (get_field msg (js "jobId")) as [[]|]; try discriminate.
  apply bool_decide_eq_true in H2. by subst.
Qed.

(** In a branch for another message type, [msg] completes nothing. *)
Ltac not_completing Hty :=
  match goal with
  | |- context [completes ?m ?j] =>
      let Ec := fresh "Ec" in
      destruct (completes m j) eqn:Ec;
      [ apply completes_true in Ec as [Ec _]; rewrite Ec in Hty;
        vm_compute in Hty; discriminate | ]
  end.

Lemma jobs_wf_insert st k jb :
  jobs_wf st -> jb.(job_id) = k -> jobs_wf (set_jobs st (<[k := jb]> st.(jobs))).
Proof. intros Hwf Hk. unfold jobs_wf. simpl. by apply map_Forall_insert_2. Qed.

Lemma handle_msg_job st msg j jb :
  jobs_wf st -> st.(jobs) !! j = Some jb -> jb.(job_type) = js "combine" ->
  jobs_wf (handle_msg st msg).1 /\
  exists jb', (handle_msg st msg).1.(jobs) !! j = Some jb' /\
    jb'.(job_type) = js "combine" /\ jb'.(totalParts) = jb.(totalParts) /\
    (if completes msg j
     then jb'.(completedParts) = jb.(completedParts) + 1 /\
          count_combine j (handle_msg st msg).2 =
            (if jb.(totalParts) <=? jb.(completedParts) + 1 then 1%nat else 0%nat)
     else jb'.(completedParts) = jb.(completedParts) /\
          count_combine j (handle_msg st msg).2 = 0%nat).
Proof.
  intros Hwf Hj Ht. unfold handle_msg. simpl.
  destruct (is_str (get_field msg (js "type")) "status") eqn:Es.
  { not_completing Es. simpl. split; [done|]. exists jb. done. }
  destruct (is_str (get_field msg (js "type")) "progress") eqn:Ep.
  { not_completing Ep.
    destruct (lookup_job st (get_field msg (js "jobId"))) as [[k jk]|] eqn:El.
    - unfold lookup_job in El.
      destruct (get_field msg (js "jobId")) as [[| | | k' | |]|]; try discriminate.
      destruct (jobs st !! k') as [jk'|] eqn:Ek; simplify_eq.
      split.
      + apply jobs_wf_insert; [done|]. simpl. by apply (Hwf k).
      + simpl. destruct (decide (k = j)) as [->|Hne].
        * rewrite lookup_insert_eq. simplify_eq. eexists; done.
        * rewrite lookup_insert_ne by done. eexists; done.
    - simpl. split; [done|]. eexists; done. }
  destruct (is_str (get_field msg (js "type")) "mp3_complete") eqn:Em.
  { unfold completes. rewrite Em. simpl.
    destruct (get_field msg (js "jobId")) as [[| | | k | |]|] eqn:Ej;
      try (simpl; split; [done|]; eexists; done).
    simpl. destruct (jobs st !! k) as [jk|] eqn:Ek.
    2:{ simpl. split; [done|]. exists jb.
        destruct (decide (k = j)) as [->|Hne]; [congruence|].
        rewrite bool_decide_eq_false_2 by done. done. }
    assert (Hid : jk.(job_id) = k) by (by apply (Hwf k)).
    destruct (bool_decide (job_type jk = js "combine")) eqn:Ec.
    2:{ simpl. split; [done|]. exists jb.
        destruct (decide (k = j)) as [->|Hne].
        - simplify_eq. rewrite bool_decide_eq_false in Ec. by exfalso.
        - rewrite bool_decide_eq_false_2 by done. done. }
    destruct (totalParts jk <=? completedParts jk + 1) eqn:Eleq; simpl.
    - split; [apply jobs_wf_insert; [done|]; simpl; done|].
      simpl. destruct (decide (k = j)) as [->|Hne].
      + simplify_eq. rewrite lookup_insert_eq. eexists; split; [done|].
        rewrite bool_decide_eq_true_2 by done. simpl.
        by rewrite Eleq.
      + rewrite lookup_insert_ne by done. eexists; split; [done|].
        rewrite ?Hid, !bool_decide_eq_false_2 by done. done.
    - split; [apply jobs_wf_insert; [done|]; simpl; done|].
      simpl. destruct (decide (k = j)) as [->|Hne].
      + simplify_eq. rewrite lookup_insert_eq. eexists; split; [done|].
        rewrite bool_decide_eq_true_2 by done. simpl.
        rewrite Eleq. done.
      + rewrite lookup_insert_ne by done. eexists; split; [done|].
        rewrite ?Hid, !bool_decide_eq_false_2 by done. done. }
  not_completing Em.
  destruct (is_str (get_field msg (js "type")) "error");
    simpl; (split; [done|]; eexists; done).
Qed.

Lemma handle_not_null st msg :
  msg <> JNull -> handlePythonMessage st msg = Some (handle_msg st msg).
Proof. by destruct msg. Qed.

Lemma process_line_job st l j jb :
  jobs_wf st -> st.(jobs) !! j = Some jb -> jb.(job_type) = js "combine" ->
  jobs_wf (process_line st l).1 /\
  exists jb', (process_line st l).1.(jobs) !! j = Some jb' /\
    jb'.(job_type) = js "combine" /\ jb'.(totalParts) = jb.(totalParts) /\
    (if line_completes j l
     then jb'.(completedParts) = jb.(completedParts) + 1 /\
          count_combine j (process_line st l).2 =
            (if jb.(totalParts) <=? jb.(completedParts) + 1 then 1%nat else 0%nat)
     else jb'.(completedParts) = jb.(completedParts) /\
          count_combine j (process_line st l).2 = 0%nat).
Proof.
  intros Hwf Hj Ht. unfold process_line, line_completes.
  destruct (bool_decide (trim l = [])); simpl; [split; [done|]; eexists; done|].
  destruct (JSON_parse l) as [msg|]; simpl; [|split; [done|]; eexists; done].
  destruct msg as [| | | | |]; [simpl; split; [done|]; eexists; done|..];
    (rewrite handle_not_null by done; by apply handle_msg_job).
Qed.

Lemma count_combine_app j a b :
  count_combine j (a ++ b) = (count_combine j a + count_combine j b)%nat.
Proof.
  induction a as [|e a IH]; [done|].
  destruct e as [| | | | | |[]|]; simpl; rewrite ?IH; lia.
Qed.

(** The number of [combine_mp3] commands sent for a job over a run of
    stdout lines, from any point of its life. *)
Lemma process_lines_combine st lines j jb :
  jobs_wf st -> st.(jobs) !! j = Some jb -> jb.(job_type) = js "combine" ->
  Z.of_nat (count_combine j (process_lines st lines).2) =
  Z.max 0 (Z.of_nat (count_completing j lines)
           - Z.max 0 (jb.(totalParts) - 1 - jb.(completedParts))).
Proof.
  revert st jb. induction lines as [|l ls IH]; intros st jb Hwf Hj Ht.
  - simpl. lia.
  - simpl. destruct (process_line_job st l j jb Hwf Hj Ht)
      as [Hwf1 [jb1 [Hj1 [Ht1 [HN Hc]]]]].
    destruct (process_line st l) as [st1 e1] eqn:E. simpl in *.
    specialize (IH st1 jb1 Hwf1 Hj1 Ht1).
    destruct (process_lines st1 ls) as [st2 e2]. simpl in *.
    rewrite count_combine_app, Nat2Z.inj_add, IH, HN.
    destruct (line_completes j l); destruct Hc as [Hc1 Hc2];
      rewrite Hc2, Hc1; simpl.
    + destruct (Z.leb_spec (totalParts jb) (completedParts jb + 1)); lia.
    + lia.
Qed.

Lemma pow2_pos k : (0 < 2 ^ k)%Q.
Proof. apply Qpower_0_lt. reflexivity. Qed.

Lemma pow2_plus a b : (2 ^ (a + b) == 2 ^ a * 2 ^ b)%Q.
Proof. apply Qpower_plus. discriminate. Qed.

Lemma pow2_Z n : 0 <= n -> (inject_Z (2 ^ n) == 2 ^ n)%Q.
Proof. intros H. apply Zpower_Qpower. exact H. Qed.

Lemma pow2_le a b : a <= b -> (2 ^ a <= 2 ^ b)%Q.
Proof. intros H. apply Qpower_le_compat_l; [exact H|discriminate]. Qed.

Lemma pow2_lt_inv a b : (2 ^ a < 2 ^ b)%Q -> a < b.
Proof. intros H. apply (Qpower_lt_compat_l_inv 2); [exact H|reflexivity]. Qed.

Lemma binade_spec x : (0 < x)%Q -> (2 ^ binade x <= x < 2 ^ (binade x + 1))%Q.
Proof.
  intros Hx. destruct x as [p q].
  assert (Hp : 0 < p) by (unfold Qlt in Hx; simpl in Hx; lia).
  unfold binade. cbn [Qnum Qden].
  set (a := Z.log2 p). set (c := Z.log2 (Z.pos q)).
  destruct (Z.log2_spec p Hp) as [Hpa1 Hpa2].
  destruct (Z.log2_spec (Z.pos q) eq_refl) as [Hqc1 Hqc2].
  fold a in Hpa1, Hpa2. fold c in Hqc1, Hqc2.
  assert (Ha : 0 <= a) by apply Z.log2_nonneg.
  assert (Hc : 0 <= c) by apply Z.log2_nonneg.
  rewrite Zle_Qle in Hpa1. rewrite Zlt_Qlt in Hpa2.
  rewrite Zle_Qle in Hqc1. rewrite Zlt_Qlt in Hqc2.
  rewrite pow2_Z in Hpa1, Hpa2, Hqc1, Hqc2 by lia.
  assert (Hxq : (p # q == inject_Z p / inject_Z (Z.pos q))%Q) by apply Qmake_Qdiv.
  set (P := inject_Z p) in *. set (D := inject_Z (Z.pos q)) in *.
  assert (HD : (0 < D)%Q) by (unfold D, Qlt; simpl; lia).
  (* 2^(a-c-1) < x < 2^(a-c+1) *)
  assert (E1 : (2 ^ (a - c + 1) * 2 ^ c == 2 ^ Z.succ a)%Q).
  { rewrite <- pow2_plus. replace (a - c + 1 + c) with (Z.succ a) by lia. reflexivity. }
  assert (E2 : (2 ^ (a - c - 1) * 2 ^ Z.succ c == 2 ^ a)%Q).
  { rewrite <- pow2_plus. replace (a - c - 1 + Z.succ c) with a by lia. reflexivity. }
  assert (Hup : (p # q < 2 ^ (a - c + 1))%Q).
  { rewrite Hxq. apply Qlt_shift_div_r; [exact HD|].
    pose proof (pow2_pos (a - c + 1)). nra. }
  assert (Hlo : (2 ^ (a - c - 1) < p # q)%Q).
  { rewrite Hxq. apply Qlt_shift_div_l; [exact HD|].
    pose proof (pow2_pos (a - c - 1)). nra. }
  destruct (Qle_bool (2 ^ (a - c)) (p # q)) eqn:E.
  - apply Qle_bool_iff in E. split; assumption.
  - assert (E' : ~ (2 ^ (a - c) <= p # q)%Q) by (rewrite <- Qle_bool_iff; congruence).
    apply Qnot_le_lt in E'. replace (a - c - 1 + 1) with (a - c) by lia.
    split; [apply Qlt_le_weak; exact Hlo|exact E'].
Qed.

Lemma round_ne_Z n : round_ne (inject_Z n) = n.
Proof.
  unfold round_ne. rewrite Qfloor_Z.
  destruct (Qcompare_spec (2 * (inject_Z n - inject_Z n)) 1); [lra|reflexivity|lra].
Qed.

Lemma round_ne_floor y : round_ne y = Qfloor y \/ round_ne y = Qfloor y + 1.
Proof.
  unfold round_ne. destruct (_ ?= _)%Q; [destruct (Z.even _)| |]; auto.
Qed.

Lemma round_ne_mono y z : (y <= z)%Q -> round_ne y <= round_ne z.
Proof.
  intros H. pose proof (Qfloor_resp_le _ _ H) as Hf.
  destruct (Z.eq_dec (Qfloor y) (Qfloor z)) as [E|E].
  2:{ destruct (round_ne_floor y), (round_ne_floor z); lia. }
  unfold round_ne. rewrite <- E.
  set (f := Qfloor y) in *.
  assert (Hd : (2 * (y - inject_Z f) <= 2 * (z - inject_Z f))%Q) by lra.
  destruct (Qcompare_spec (2 * (y - inject_Z f)) 1) as [Ey|Ey|Ey];
  destruct (Qcompare_spec (2 * (z - inject_Z f)) 1) as [Ez|Ez|Ez];
  try (destruct (Z.even f)); try lia; exfalso; lra.
Qed.

Lemma round_ne_le_pow y k : 0 <= k -> (y <= 2 ^ k)%Q -> round_ne y <= 2 ^ k.
Proof.
  intros Hk H. rewrite <- (round_ne_Z (2 ^ k)). apply round_ne_mono.
  rewrite pow2_Z by exact Hk. exact H.
Qed.

Lemma round_ne_ge_pow y k : 0 <= k -> (2 ^ k <= y)%Q -> 2 ^ k <= round_ne y.
Proof.
  intros Hk H. rewrite <- (round_ne_Z (2 ^ k)) at 1. apply round_ne_mono.
  rewrite pow2_Z by exact Hk. exact H.
Qed.

(** The significand of a positive [x] lies in [[2^52, 2^53]]. *)
Lemma fl_pos_bounds x :
  (0 < x)%Q ->
  (2 ^ binade x <= fl_pos x <= 2 ^ (binade x + 1))%Q.
Proof.
  intros Hx. destruct (binade_spec x Hx) as [H1 H2].
  unfold fl_pos. set (b := binade x) in *.
  pose proof (pow2_pos (- (b - 52))) as Hs.
  pose proof (pow2_pos (b - 52)) as Hs'.
  assert (Ea : (2 ^ b * 2 ^ (- (b - 52)) == 2 ^ 52)%Q).
  { rewrite <- pow2_plus. replace (b + - (b - 52)) with 52 by lia. reflexivity. }
  assert (Eb : (2 ^ (b + 1) * 2 ^ (- (b - 52)) == 2 ^ 53)%Q).
  { rewrite <- pow2_plus. replace (b + 1 + - (b - 52)) with 53 by lia. reflexivity. }
  assert (Ec : (2 ^ 52 * 2 ^ (b - 52) == 2 ^ b)%Q).
  { rewrite <- pow2_plus. replace (52 + (b - 52)) with b by lia. reflexivity. }
  assert (Ed : (2 ^ 53 * 2 ^ (b - 52) == 2 ^ (b + 1))%Q).
  { rewrite <- pow2_plus. replace (53 + (b - 52)) with (b + 1) by lia. reflexivity. }
  assert (Hlo : 2 ^ 52 <= round_ne (x * 2 ^ (- (b - 52)))).
  { apply round_ne_ge_pow; [lia|]. rewrite <- Ea. apply Qmult_le_compat_r; lra. }
  assert (Hhi : round_ne (x * 2 ^ (- (b - 52))) <= 2 ^ 53).
  { apply round_ne_le_pow; [lia|]. rewrite <- Eb. apply Qmult_le_compat_r; lra. }
  rewrite Zle_Qle in Hlo, Hhi. rewrite pow2_Z in Hlo, Hhi by lia.
  split.
  - rewrite <- Ec. apply Qmult_le_compat_r; lra.
  - rewrite <- Ed. apply Qmult_le_compat_r; lra.
Qed.

Lemma fl_pos_mono x y : (0 < x)%Q -> (x <= y)%Q -> (fl_pos x <= fl_pos y)%Q.
Proof.
  intros Hx Hxy. assert (Hy : (0 < y)%Q) by lra.
  destruct (binade_spec x Hx) as [Hx1 Hx2]. destruct (binade_spec y Hy) as [Hy1 Hy2].
  assert (Hb : binade x <= binade y).
  { assert (binade x < binade y + 1); [|lia].
    apply pow2_lt_inv. lra. }
  destruct (Z.eq_dec (binade x) (binade y)) as [E|E].
  - unfold fl_pos. rewrite E.
    apply Qmult_le_compat_r; [|apply Qlt_le_weak, pow2_pos].
    rewrite <- Zle_Qle. apply round_ne_mono.
    apply Qmult_le_compat_r; [exact Hxy|apply Qlt_le_weak, pow2_pos].
  - destruct (fl_pos_bounds x Hx) as [_ Hfx]. destruct (fl_pos_bounds y Hy) as [Hfy _].
    pose proof (pow2_le (binade x + 1) (binade y) ltac:(lia)). lra.
Qed.

Lemma fl_pos_pos x : (0 < x)%Q -> (0 < fl_pos x)%Q.
Proof.
  intros Hx. destruct (fl_pos_bounds x Hx) as [H _].
  pose proof (pow2_pos (binade x)). lra.
Qed.

Lemma fl_comp x y : (x == y)%Q -> fl x = fl y.
Proof. intros H. unfold fl. by rewrite (Qred_complete x y H). Qed.

Lemma fl_pos_comp x y : (0 < x)%Q -> (x == y)%Q -> (fl_pos x == fl_pos y)%Q.
Proof.
  intros Hx H. apply Qle_antisym; apply fl_pos_mono; try lra.
Qed.

Lemma fl_of_pos x : (0 < x)%Q -> (fl x == fl_pos x)%Q.
Proof.
  intros Hx. unfold fl. pose proof (Qred_correct x) as Hr.
  assert (Hn : 0 < Qnum (Qred x)).
  { assert (H : (0 < Qred x)%Q) by lra. unfold Qlt in H. simpl in H. lia. }
  destruct (Qnum (Qred x)) eqn:E; try lia.
  apply fl_pos_comp; lra.
Qed.

Lemma fl_of_neg x : (x < 0)%Q -> (fl x == - fl_pos (- x))%Q.
Proof.
  intros Hx. unfold fl. pose proof (Qred_correct x) as Hr.
  assert (Hn : Qnum (Qred x) < 0).
  { assert (H : (Qred x < 0)%Q) by lra. unfold Qlt in H. simpl in H. lia. }
  destruct (Qnum (Qred x)) eqn:E; try lia.
  assert (fl_pos (- Qred x) == fl_pos (- x))%Q; [|lra].
  apply fl_pos_comp; lra.
Qed.

Lemma fl_of_zero x : (x == 0)%Q -> fl x = 0%Q.
Proof.
  intros Hx. rewrite (fl_comp x 0 Hx). reflexivity.
Qed.

(** Rounding to the nearest double never reverses an order. *)
Lemma fl_mono x y : (x <= y)%Q -> (fl x <= fl y)%Q.
Proof.
  intros H.
  destruct (Qlt_le_dec 0 x) as [Hx|Hx].
  - rewrite (fl_of_pos x Hx), (fl_of_pos y) by lra. by apply fl_pos_mono.
  - destruct (Qlt_le_dec 0 y) as [Hy|Hy].
    + rewrite (fl_of_pos y Hy). pose proof (fl_pos_pos y Hy).
      destruct (Qlt_le_dec x 0) as [Hx'|Hx'].
      * rewrite (fl_of_neg x Hx'). pose proof (fl_pos_pos (- x)). lra.
      * rewrite (fl_of_zero x) by lra. lra.
    + destruct (Qlt_le_dec y 0) as [Hy'|Hy'].
      * rewrite (fl_of_neg x), (fl_of_neg y) by lra.
        pose proof (fl_pos_mono (- y) (- x)). lra.
      * rewrite (fl_of_zero y) by lra.
        destruct (Qlt_le_dec x 0) as [Hx'|Hx'].
        -- rewrite (fl_of_neg x Hx'). pose proof (fl_pos_pos (- x)). lra.
        -- rewrite (fl_of_zero x) by lra. lra.
Qed.

Lemma js_round_mono x y : (x <= y)%Q -> js_round x <= js_round y.
Proof. intros H. unfold js_round. apply Qfloor_resp_le. lra. Qed.

Lemma part_percent_mono c n :
  0 < n -> part_percent c n <= part_percent (c + 1) n.
Proof.
  intros Hn. unfold part_percent. apply js_round_mono, fl_mono.
  apply Qmult_le_compat_r; [|unfold Qle; simpl; lia].
  apply fl_mono.
  assert (HN : (0 < inject_Z n)%Q) by (unfold Qlt; simpl; lia).
  unfold Qdiv. apply Qmult_le_compat_r; [rewrite <- Zle_Qle; lia|].
  apply Qlt_le_weak, Qinv_lt_0_compat. exact HN.
Qed.

Lemma part_percent_full n : 0 < n -> part_percent n n = 100.
Proof.
  intros Hn. unfold part_percent.
  assert (HN : ~ (inject_Z n == 0)%Q) by (unfold Qeq; simpl; lia).
  rewrite (fl_comp (inject_Z n / inject_Z n) 1) by (field; exact HN).
  vm_compute. reflexivity.
Qed.

(** How an [mp3_complete] event for [j] rewrites the job (the complete
    picture that [handle_msg_job] summarises). *)
Lemma handle_completion st msg j jb :
  st.(jobs) !! j = Some jb -> jb.(job_type) = js "combine" -> completes msg j = true ->
  exists jb', (handle_msg st msg).1.(jobs) !! j = Some jb' /\
    jb'.(completedParts) = jb.(completedParts) + 1 /\
    jb'.(percent) = JNum (inject_Z (part_percent (jb.(completedParts) + 1) jb.(totalParts))) /\
    (jb.(totalParts) <= jb.(completedParts) + 1 ->
       jb'.(phase) = JStr (js "combining") /\ jb'.(job_status) = js "combining").
Proof.
  intros Hj Ht Hc. apply completes_true in Hc as [Hty Hjid].
  unfold handle_msg. simpl. rewrite Hty.
  assert (is_str (Some (JStr (js "mp3_complete"))) "status" = false) as -> by reflexivity.
  assert (is_str (Some (JStr (js "mp3_complete"))) "progress" = false) as -> by reflexivity.
  assert (is_str (Some (JStr (js "mp3_complete"))) "mp3_complete" = true) as -> by reflexivity.
  rewrite Hjid. simpl. rewrite Hj. rewrite bool_decide_eq_true_2 by done.
  destruct (Z.leb_spec (totalParts jb) (completedParts jb + 1)) as [Hle|Hlt]; simpl;
    rewrite lookup_insert_eq; eexists; (split; [done|]); simpl;
    (split; [done|]); (split; [done|]); intros; [done|lia].
Qed.

Lemma handle_progress st msg j jb :
  st.(jobs) !! j = Some jb ->
  get_field msg (js "type") = Some (JStr (js "progress")) ->
  get_field msg (js "jobId") = Some (JStr j) ->
  (handle_msg st msg).1.(jobs) !! j =
    Some (job_progress jb (jor (get_field msg (js "percent")) (JNum 0))
            (jor (get_field msg (js "phase")) jb.(phase))
            (Some (jor (get_field msg (js "detail")) (JStr [])))).
Proof.
  intros Hj Hty Hjid. unfold handle_msg. simpl. rewrite Hty.
  assert (is_str (Some (JStr (js "progress"))) "status" = false) as -> by reflexivity.
  assert (is_str (Some (JStr (js "progress"))) "progress" = true) as -> by reflexivity.
  rewrite Hjid. simpl. rewrite Hj. simpl. by rewrite lookup_insert_eq.
Qed.

(** C1 (as the code behaves): for a registered combine job with [totalParts]
    = N >= 1, the number of [combine_mp3] commands sent for it over any run of
    processor output is max(0, k - N + 1), where k is the number of
    [mp3_complete] lines for its id: the first is sent by the N-th event, and
    each further [mp3_complete] event for the job sends one more. *)
Theorem combine_sent_from_total_parts st lines j jb :
  jobs_wf st -> st.(jobs) !! j = Some jb -> jb.(job_type) = js "combine" ->
  jb.(completedParts) = 0 -> 1 <= jb.(totalParts) ->
  Z.of_nat (count_combine j (process_lines st lines).2) =
  Z.max 0 (Z.of_nat (count_completing j lines) - jb.(totalParts) + 1).
Proof.
  intros Hwf Hj Ht H0 HN.
  rewrite (process_lines_combine st lines j jb Hwf Hj Ht), H0. lia.
Qed.

Lemma combine_sent_from_total_parts_witness :
  Z.of_nat (count_combine (js "job-1")
    (process_lines (demo_state 2) [mp3_complete_line; mp3_complete_line]).2) = 1.
Proof.
  rewrite (combine_sent_from_total_parts (demo_state 2) _ (js "job-1") (demo_job 2)).
  - vm_compute. reflexivity.
  - unfold jobs_wf. simpl. apply map_Forall_singleton. reflexivity.
  - reflexivity.
  - reflexivity.
  - reflexivity.
  - simpl. lia.
Defined.

(** C1 fails as stated: after the job's single part completed and the
    processor reported the job [done], a duplicate [mp3_complete] event sends
    a second [combine_mp3] command. *)
Lemma duplicate_completion_recombines :
  option_map phase (job_after (demo_state 1) [mp3_complete_line; done_progress_line])
    = Some (JStr (js "done")) /\
  count_combine (js "job-1")
    (process_lines (demo_state 1)
       [mp3_complete_line; done_progress_line; mp3_complete_line]).2 = 2%nat.
Proof. split; vm_compute; reflexivity. Qed.

(** C2 (as the code behaves): the k-th [mp3_complete] event of a combine job
    with N parts sets [percent] to Math.round((k / N) * 100) evaluated on
    doubles ([part_percent], e.g. 57 for k = 23, N = 40); these values never
    decrease with k and reach exactly 100 at the N-th event, the same event
    that moves the job to the [combining] phase and starts the concatenation
    (so before it has succeeded; [combineMp3Parts] leaves [percent] at 100);
    a [progress] event sets [percent] to the reported value ([|| 0]). *)
Theorem percent_rounded_and_full_at_trigger :
  (forall st msg st' effs j jb,
     st.(jobs) !! j = Some jb -> jb.(job_type) = js "combine" ->
     completes msg j = true ->
     handlePythonMessage st msg = Some (st', effs) ->
     exists jb', st'.(jobs) !! j = Some jb' /\
       jb'.(completedParts) = jb.(completedParts) + 1 /\
       jb'.(percent) = JNum (inject_Z (part_percent (jb.(completedParts) + 1) jb.(totalParts))) /\
       (jb.(totalParts) <= jb.(completedParts) + 1 -> jb'.(phase) = JStr (js "combining"))) /\
  (forall c n, 0 < n -> part_percent c n <= part_percent (c + 1) n) /\
  (forall n, 0 < n -> part_percent n n = 100) /\
  (forall st msg st' effs j jb,
     st.(jobs) !! j = Some jb ->
     get_field msg (js "type") = Some (JStr (js "progress")) ->
     get_field msg (js "jobId") = Some (JStr j) ->
     handlePythonMessage st msg = Some (st', effs) ->
     option_map percent (st'.(jobs) !! j) = Some (jor (get_field msg (js "percent")) (JNum 0))).
Proof.
  split; [|split; [|split]].
  - intros st msg st' effs j jb Hj Ht Hc H.
    assert (msg <> JNull) as Hn.
    { intros ->. vm_compute in Hc. discriminate. }
    rewrite handle_not_null in H by done. injection H as H.
    destruct (handle_completion st msg j jb Hj Ht Hc) as (jb' & H1 & H2 & H3 & Hph).
    rewrite H in H1. exists jb'. repeat split; try done. intros Hle. by apply Hph.
  - apply part_percent_mono.
  - apply part_percent_full.
  - intros st msg st' effs j jb Hj Hty Hjid H.
    assert (msg <> JNull) as Hn.
    { intros ->. vm_compute in Hty. discriminate. }
    rewrite handle_not_null in H by done. injection H as H.
    pose proof (handle_progress st msg j jb Hj Hty Hjid) as Hp.
    rewrite H in Hp. simpl in Hp. by rewrite Hp.
Qed.

Lemma percent_rounded_and_full_at_trigger_witness :
  (exists jb', (handle_msg (demo_state 3) (JObj [(js "type", JStr (js "mp3_complete"));
                                                 (js "jobId", JStr (js "job-1"))])).1.(jobs)
                 !! js "job-1" = Some jb' /\
     jb'.(percent) = JNum (inject_Z (part_percent 1 3))) /\
  part_percent 1 3 <= part_percent 2 3 /\ part_percent 3 3 = 100 /\
  option_map percent ((handle_msg (demo_state 3) (JObj [(js "type", JStr (js "progress"));
                                     (js "jobId", JStr (js "job-1"));
                                     (js "percent", JNum (inject_Z 100))])).1.(jobs)
                      !! js "job-1") = Some (JNum (inject_Z 100)).
Proof.
  split; [|split; [|split]].
  - destruct ((proj1 percent_rounded_and_full_at_trigger)
                (demo_state 3) (JObj [(js "type", JStr (js "mp3_complete"));
                                      (js "jobId", JStr (js "job-1"))])
                _ _ (js "job-1") (demo_job 3) eq_refl eq_refl eq_refl
                (f_equal Some (surjective_pairing _)))
      as (jb' & H1 & _ & H3 & _).
    exists jb'. split; [exact H1|]. exact H3.
  - apply (proj1 (proj2 percent_rounded_and_full_at_trigger)). lia.
  - apply (proj1 (proj2 (proj2 percent_rounded_and_full_at_trigger))). lia.
  - rewrite ((proj2 (proj2 (proj2 percent_rounded_and_full_at_trigger)))
               (demo_state 3) (JObj [(js "type", JStr (js "progress"));
                                     (js "jobId", JStr (js "job-1"));
                                     (js "percent", JNum (inject_Z 100))])
               _ _ (js "job-1") (demo_job 3) eq_refl eq_refl eq_refl
               (f_equal Some (surjective_pairing _))).
    vm_compute. reflexivity.
Defined.

(** C2 fails as stated: with one part, the single completion event already
    sets [percent] to 100 while the job has only entered the [combining]
    phase (the concatenation has been requested, not completed); with
    three parts the first event stores 33, not 100 * 1/3; and with forty
    parts the 23rd event stores 57, while 100 * 23/40 = 57.5 (the double
    nearest 23/40, times 100, rounds to a double just below 57.5). *)
Lemma percent_full_before_concatenation :
  option_map percent (job_after (demo_state 1) [mp3_complete_line])
    = Some (JNum (inject_Z 100)) /\
  option_map phase (job_after (demo_state 1) [mp3_complete_line])
    = Some (JStr (js "combining")) /\
  option_map percent (job_after (demo_state 3) [mp3_complete_line])
    = Some (JNum (inject_Z 33)) /\
  ~ (inject_Z 33 == inject_Z 1 / inject_Z 3 * inject_Z 100)%Q /\
  option_map percent (job_after (demo_state 40) (repeat mp3_complete_line 23))
    = Some (JNum (inject_Z 57)) /\
  (inject_Z 23 / inject_Z 40 * inject_Z 100 == 115 # 2)%Q.
Proof.
  split; [vm_compute; reflexivity|].
  split; [vm_compute; reflexivity|].
  split; [vm_compute; reflexivity|].
  split; [vm_compute; discriminate|].
  split; vm_compute; reflexivity.
Qed.

Lemma handle_msg_no_combine st msg j :
  is_str (get_field msg (js "type")) "mp3_complete" = false ->
  count_combine j (handle_msg st msg).2 = 0%nat.
Proof.
  intros Hm. unfold handle_msg. cbv zeta.
  destruct (is_str (get_field msg (js "type")) "status"); [reflexivity|].
  destruct (is_str (get_field msg (js "type")) "progress").
  { destruct (lookup_job st (get_field msg (js "jobId"))) as [[k jb]|]; reflexivity. }
  rewrite Hm. destruct (is_str (get_field msg (js "type")) "error"); reflexivity.
Qed.

(** C3 (as the code behaves): a message of type [error] (whatever else it
    carries) is logged and broadcast and leaves the whole state unchanged,
    so no job changes phase or count; and concatenation is triggered only by
    [mp3_complete] events: no other message, and no stdout line that does not
    parse to one, makes the bridge send a [combine_mp3] command. *)
Theorem part_error_changes_no_job :
  (forall st msg,
     is_str (get_field msg (js "type")) "error" = true ->
     handlePythonMessage st msg =
       Some (st, [ConsoleError (get_field msg (js "message"));
                  BroadcastError (get_field msg (js "message"))])) /\
  (forall st msg st' effs j,
     is_str (get_field msg (js "type")) "mp3_complete" = false ->
     handlePythonMessage st msg = Some (st', effs) ->
     count_combine j effs = 0%nat) /\
  (forall st l j,
     (forall msg, JSON_parse l = Some msg ->
        is_str (get_field msg (js "type")) "mp3_complete" = false) ->
     count_combine j (process_line st l).2 = 0%nat).
Proof.
  split; [|split].
  - intros st msg He.
    assert (Hn : msg <> JNull) by (intros ->; discriminate He).
    rewrite handle_not_null by exact Hn. f_equal.
    unfold handle_msg. cbv zeta.
    destruct (is_str (get_field msg (js "type")) "status") eqn:E1.
    { destruct (get_field msg (js "type")) as [[]|]; try discriminate.
      apply bool_decide_eq_true in He, E1. rewrite He in E1. discriminate E1. }
    destruct (is_str (get_field msg (js "type")) "progress") eqn:E2.
    { destruct (get_field msg (js "type")) as [[]|]; try discriminate.
      apply bool_decide_eq_true in He, E2. rewrite He in E2. discriminate E2. }
    destruct (is_str (get_field msg (js "type")) "mp3_complete") eqn:E3.
    { destruct (get_field msg (js "type")) as [[]|]; try discriminate.
      apply bool_decide_eq_true in He, E3. rewrite He in E3. discriminate E3. }
    by rewrite He.
  - intros st msg st' effs j Hm H.
    assert (Hn : msg <> JNull) by (intros ->; discriminate H).
    rewrite handle_not_null in H by exact Hn. injection H as H.
    change effs with (st', effs).2. rewrite <- H. by apply handle_msg_no_combine.
  - intros st l j Hl. unfold process_line.
    destruct (bool_decide (trim l = [])); [reflexivity|].
    destruct (JSON_parse l) as [msg|] eqn:Ep; [|reflexivity].
    destruct (handlePythonMessage st msg) as [[st' effs]|] eqn:Eh; [|reflexivity].
    assert (Hn : msg <> JNull) by (intros ->; discriminate Eh).
    rewrite handle_not_null in Eh by exact Hn. apply (inj Some) in Eh.
    change effs with (st', effs).2. rewrite <- Eh.
    apply handle_msg_no_combine. by apply Hl.
Qed.

Lemma part_error_changes_no_job_witness :
  handlePythonMessage (demo_state 2)
    (JObj [(js "type", JStr (js "error")); (js "message", JStr (js "synthesis failed"))])
    = Some (demo_state 2, [ConsoleError (Some (JStr (js "synthesis failed")));
                           BroadcastError (Some (JStr (js "synthesis failed")))]) /\
  count_combine (js "job-1") (process_line (demo_state 2) done_progress_line).2 = 0%nat.
Proof.
  split.
  - exact ((proj1 part_error_changes_no_job) (demo_state 2)
             (JObj [(js "type", JStr (js "error")); (js "message", JStr (js "synthesis failed"))])
             eq_refl).
  - apply (proj2 (proj2 part_error_changes_no_job)).
    intros msg Hp. vm_compute in Hp. injection Hp as <-. reflexivity.
Defined.

(** C3 fails as stated: after a part's error report the job is still in the
    [generating] phase, not [error]. *)
Lemma part_error_leaves_generating :
  match handlePythonMessage (demo_state 2) (processor_part_error (js "part-1") (js "synthesis failed")) with
  | Some (st', _) => option_map phase (st'.(jobs) !! js "job-1")
  | None => None
  end = Some (JStr (js "generating")).
Proof. vm_compute. reflexivity. Qed.

(* ------------------------------------------------------------------ *)
(** ** The stdout loop *)

(** C8 (as the code behaves): a blank stdout line (empty or whitespace
    only) is skipped; a non-blank line that [JSON.parse] rejects is logged
    as [[Python Log]] and changes nothing; the only value on which
    [handlePythonMessage] throws is [null], and that line is logged by the
    [catch] too; any other parsed value is handed to the handler, which
    ignores (without logging) a message whose [type] is none of [status],
    [progress], [mp3_complete] and [error]. *)
Theorem stdout_unparsed_logged_unknown_ignored :
  (forall st l, trim l = [] -> process_line st l = (st, [])) /\
  (forall st l, trim l <> [] -> JSON_parse l = None ->
     process_line st l = (st, [ConsoleLog (js "[Python Log]: " ++ l)])) /\
  (forall st msg, handlePythonMessage st msg = None <-> msg = JNull) /\
  (forall st l, trim l <> [] -> JSON_parse l = Some JNull ->
     process_line st l = (st, [ConsoleLog (js "[Python Log]: " ++ l)])) /\
  (forall st l msg, trim l <> [] -> JSON_parse l = Some msg -> msg <> JNull ->
     is_str (get_field msg (js "type")) "status" = false ->
     is_str (get_field msg (js "type")) "progress" = false ->
     is_str (get_field msg (js "type")) "mp3_complete" = false ->
     is_str (get_field msg (js "type")) "error" = false ->
     process_line st l = (st, [])).
Proof.
  split; [|split; [|split; [|split]]].
  - intros st l Hb. unfold process_line. by rewrite bool_decide_eq_true_2.
  - intros st l Hb Hp. unfold process_line.
    rewrite bool_decide_eq_false_2 by done. by rewrite Hp.
  - intros st msg. split; [by destruct msg|]. by intros ->.
  - intros st l Hb Hp. unfold process_line.
    rewrite bool_decide_eq_false_2 by done. by rewrite Hp.
  - intros st l msg Hb Hp Hn E1 E2 E3 E4. unfold process_line.
    rewrite bool_decide_eq_false_2 by done. rewrite Hp.
    rewrite handle_not_null by done. unfold handle_msg. simpl.
    by rewrite E1, E2, E3, E4.
Qed.

Lemma stdout_unparsed_logged_unknown_ignored_witness :
  process_line init_state [32; 9; 13] = (init_state, []) /\
  process_line init_state (js "Loading model...")
    = (init_state, [ConsoleLog (js "[Python Log]: " ++ js "Loading model...")]) /\
  process_line init_state (jsq "{'type':'heartbeat'}") = (init_state, []).
Proof.
  split; [|split].
  - apply (proj1 stdout_unparsed_logged_unknown_ignored). reflexivity.
  - apply (proj1 (proj2 stdout_unparsed_logged_unknown_ignored)).
    + vm_compute. discriminate.
    + vm_compute. reflexivity.
  - apply (proj2 (proj2 (proj2 (proj2 stdout_unparsed_logged_unknown_ignored))))
      with (msg := JObj [(js "type", JStr (js "heartbeat"))]);
      try (vm_compute; first [reflexivity | discriminate]).
Defined.

(** C8 fails as stated: a line that parses as JSON but is not a recognised
    message reaches [handlePythonMessage] and is dropped without being
    logged. *)
Lemma unknown_message_not_logged :
  JSON_parse (jsq "{'type':'heartbeat'}") = Some (JObj [(js "type", JStr (js "heartbeat"))]) /\
  on_stdout_data init_state (jsq "{'type':'heartbeat'}") = (init_state, []).
Proof. split; vm_compute; reflexivity. Qed.

(* ------------------------------------------------------------------ *)
(** ** Path translation *)

Lemma starts_with_app p r : starts_with (p ++ r) p = true.
Proof. induction p as [|c p IH]; simpl; [by destruct r|]. by rewrite Z.eqb_refl, IH. Qed.

Lemma drop_length_app (p r : jsstr) : drop (length p) (p ++ r) = r.
Proof. by rewrite drop_app_length. Qed.

Lemma MP3_HOST_PREFIX_nonempty env : MP3_HOST_PREFIX env <> [].
Proof.
  unfold MP3_HOST_PREFIX. destruct env as [e|]; [|done].
  destruct (bool_decide (e = [])) eqn:E; [done|].
  by apply bool_decide_eq_false in E.
Qed.

(** C9: the two translations undo each other on paths under their prefixes
    and leave every other path as it is. *)
Theorem path_translation_roundtrip :
  (forall env rest,
     hostToContainerPath env (containerToHostPath env (Some (CONTAINER_DATA_PREFIX ++ rest)))
       = Some (CONTAINER_DATA_PREFIX ++ rest)) /\
  (forall env rest,
     containerToHostPath env (hostToContainerPath env (Some (MP3_HOST_PREFIX env ++ rest)))
       = Some (MP3_HOST_PREFIX env ++ rest)) /\
  (forall env p,
     starts_with p CONTAINER_DATA_PREFIX = false -> starts_with p (MP3_HOST_PREFIX env) = false ->
     containerToHostPath env (Some p) = Some p /\ hostToContainerPath env (Some p) = Some p).
Proof.
  split; [|split].
  - intros env rest. unfold containerToHostPath.
    rewrite bool_decide_eq_false_2 by (vm_compute; discriminate).
    rewrite starts_with_app, drop_length_app. unfold hostToContainerPath.
    rewrite bool_decide_eq_false_2.
    2:{ intros E. apply (f_equal length) in E. rewrite length_app in E.
        pose proof (MP3_HOST_PREFIX_nonempty env) as Hn.
        destruct (MP3_HOST_PREFIX env); [done|simpl in E; lia]. }
    by rewrite starts_with_app, drop_length_app.
  - intros env rest. unfold hostToContainerPath.
    rewrite bool_decide_eq_false_2.
    2:{ intros E. apply (f_equal length) in E. rewrite length_app in E.
        pose proof (MP3_HOST_PREFIX_nonempty env) as Hn.
        destruct (MP3_HOST_PREFIX env); [done|simpl in E; lia]. }
    rewrite starts_with_app, drop_length_app. unfold containerToHostPath.
    rewrite bool_decide_eq_false_2 by (vm_compute; discriminate).
    by rewrite starts_with_app, drop_length_app.
  - intros env p H1 H2. unfold containerToHostPath, hostToContainerPath.
    rewrite H1, H2. by destruct (bool_decide (p = [])).
Qed.

Lemma path_translation_roundtrip_witness :
  containerToHostPath None (Some (js "/tmp/x.mp3")) = Some (js "/tmp/x.mp3") /\
  hostToContainerPath None (Some (js "/tmp/x.mp3")) = Some (js "/tmp/x.mp3").
Proof.
  apply (proj2 (proj2 path_translation_roundtrip)); vm_compute; reflexivity.
Defined.

(* ------------------------------------------------------------------ *)
(** ** History *)

Lemma add_history_take st x :
  (length st.(history) <= 50)%nat ->
  (addToHistory st x).1.(history) = take 50 (x :: st.(history)).
Proof.
  intros Hl. unfold addToHistory. cbn [history set_history fst].
  destruct (Z.ltb_spec 50 (Z.of_nat (length (x :: st.(history))))) as [Hlt|Hge].
  - rewrite removelast_firstn_len. f_equal. simpl in *. lia.
  - symmetry. apply firstn_all2. simpl in *. lia.
Qed.

Lemma take_app_take {A} n (a b : list A) : take n (a ++ take n b) = take n (a ++ b).
Proof.
  rewrite !firstn_app, firstn_firstn. do 2 f_equal. lia.
Qed.

Lemma insert_all_history st items :
  (length st.(history) <= 50)%nat ->
  (insert_all st items).(history) = take 50 (rev items ++ st.(history)).
Proof.
  revert st. induction items as [|x xs IH]; intros st Hl.
  - simpl. symmetry. by apply firstn_all2.
  - change (insert_all st (x :: xs)) with (insert_all (addToHistory st x).1 xs).
    rewrite IH.
    + rewrite add_history_take by done. rewrite take_app_take.
      cbn [rev]. by rewrite <- app_assoc.
    + rewrite add_history_take by done. rewrite length_firstn. lia.
Qed.

(** C6: starting from the empty history, the history holds the 50 most
    recent insertions, newest first, so it never exceeds 50 entries; every
    insertion puts the new entry at index 0; and the 51st insertion evicts the
    oldest entry. *)
Theorem history_bounded_newest_first :
  (forall items, (insert_all init_state items).(history) = take 50 (rev items) /\
                 (length (insert_all init_state items).(history) <= 50)%nat) /\
  (forall st x, (addToHistory st x).1.(history) !! 0%nat = Some x) /\
  (forall x xs, length xs = 50%nat -> (insert_all init_state (x :: xs)).(history) = rev xs).
Proof.
  split; [|split].
  - intros items. rewrite insert_all_history by (simpl; lia).
    simpl. rewrite app_nil_r. split; [done|]. rewrite length_firstn. lia.
  - intros st x. unfold addToHistory. simpl.
    destruct (50 <? Z.of_nat (S (length st.(history)))) eqn:E; [|done].
    destruct st.(history) as [|y h]; [done|]. reflexivity.
  - intros x xs Hl. rewrite insert_all_history by (simpl; lia).
    simpl. rewrite app_nil_r. rewrite firstn_app.
    rewrite length_rev, Hl. replace (50 - 50)%nat with 0%nat by lia.
    rewrite firstn_0, app_nil_r. apply firstn_all2. rewrite length_rev. lia.
Qed.

Lemma history_bounded_newest_first_witness :
  length (map demo_item (map Z.of_nat (seq 1 50))) = 50%nat /\
  (insert_all init_state (demo_item 0 :: map demo_item (map Z.of_nat (seq 1 50)))).(history)
    = rev (map demo_item (map Z.of_nat (seq 1 50))).
Proof.
  split; [reflexivity|].
  apply (proj2 (proj2 history_bounded_newest_first)). reflexivity.
Defined.

(* ------------------------------------------------------------------ *)
(** ** Replay *)

Lemma addToHistory_eq st x :
  (length st.(history) <= 50)%nat ->
  addToHistory st x = (set_history st (take 50 (x :: st.(history))), [BroadcastHistory]).
Proof.
  intros Hl. unfold addToHistory. do 2 f_equal.
  destruct (Z.ltb_spec 50 (Z.of_nat (length (x :: st.(history))))) as [Hlt|Hge].
  - rewrite removelast_firstn_len. f_equal. simpl in *. lia.
  - symmetry. apply firstn_all2. simpl in *. lia.
Qed.

Lemma uuid_of_inj n m : uuid_of n = uuid_of m -> n = m.
Proof.
  unfold uuid_of. intros E. apply app_inv_head in E. injection E. lia.
Qed.

Lemma uuid_of_nonempty n : uuid_of n <> [].
Proof. unfold uuid_of. by destruct (js "uuid-"). Qed.

Lemma find_matches id st item :
  ids_drawn st -> find (id_matches id) st.(history) = Some item ->
  id = Some (JStr item.(it_id)) /\ In item st.(history) /\
  exists n, (n < st.(uuid_seed))%nat /\ item.(it_id) = uuid_of n.
Proof.
  intros Hd Hf. apply find_some in Hf as [Hin Hm].
  unfold ids_drawn in Hd. rewrite List.Forall_forall in Hd.
  split; [|split; [done|by apply Hd]].
  destruct id as [[| | | s | |]|]; simpl in Hm; try discriminate.
  apply bool_decide_eq_true in Hm. by subst.
Qed.

(** C7: replaying an entry of the history (through [POST /api/replay] or
    the reverse client's [replay] tool) writes to the processor a copy of the
    entry with the same text, voice and speed (indeed every field but the
    id), under an id that no entry of the history carries; the new history is
    the copy followed by the old entries, each unchanged (the 51st entry falls
    off as for any insertion); and the history ids remain drawn from the
    generator. *)
Theorem replay_enqueues_fresh_copy env now st id item :
  ids_drawn st -> (length st.(history) <= 50)%nat ->
  find (id_matches id) st.(history) = Some item ->
  let payload := with_id item (uuid_of st.(uuid_seed)) in
  let st' := set_history (set_seed st (S st.(uuid_seed)))
               (take 50 (with_timestamp payload now :: st.(history))) in
  api_replay now st id = (st', [BroadcastHistory; StdinWrite (PSpeak payload)], 200) /\
  (rc_replay env now st id).1 = (st', [BroadcastHistory; StdinWrite (PSpeak payload)]) /\
  payload.(it_text) = item.(it_text) /\ payload.(it_voice) = item.(it_voice) /\
  payload.(it_speed) = item.(it_speed) /\
  Forall (fun it => payload.(it_id) <> it.(it_id)) st.(history) /\
  ids_drawn st'.
Proof.
  intros Hd Hl Hf payload st'.
  pose proof (find_matches id st item Hd Hf) as (Hid & Hin & n & Hn & Hitem).
  assert (Hadd : addToHistory (set_seed st (S st.(uuid_seed))) (with_timestamp payload now)
                 = (st', [BroadcastHistory])) by (apply addToHistory_eq; done).
  split; [|split; [|split; [done|split; [done|split; [done|split]]]]].
  - unfold api_replay. rewrite Hf. unfold uuidv4. cbn beta iota zeta. fold payload.
    by rewrite Hadd.
  - unfold rc_replay. rewrite Hid in Hf |- *.
    rewrite bool_decide_eq_false_2 by (rewrite Hitem; apply uuid_of_nonempty).
    rewrite Hf. unfold uuidv4. cbn beta iota zeta. fold payload. by rewrite Hadd.
  - unfold ids_drawn in Hd. eapply Forall_impl; [exact Hd|].
    intros it (k & Hk & Ek) E. simpl in E. rewrite Ek in E.
    apply uuid_of_inj in E. lia.
  - unfold ids_drawn, st'. cbn [history set_history set_seed uuid_seed].
    apply Forall_take. constructor.
    + exists st.(uuid_seed). split; [lia|done].
    + unfold ids_drawn in Hd. eapply Forall_impl; [exact Hd|].
      intros it (k & Hk & Ek). exists k. split; [lia|done].
Qed.

Lemma replay_enqueues_fresh_copy_witness :
  ids_drawn replay_state /\ (length replay_state.(history) <= 50)%nat /\
  find (id_matches (Some (JStr (uuid_of 0)))) replay_state.(history)
    = Some (with_id (demo_item 0) (uuid_of 0)) /\
  let payload := with_id (with_id (demo_item 0) (uuid_of 0)) (uuid_of replay_state.(uuid_seed)) in
  let st' := set_history (set_seed replay_state (S replay_state.(uuid_seed)))
               (take 50 (with_timestamp payload (js "2026-01-02T00:00:00.000Z")
                         :: replay_state.(history))) in
  api_replay (js "2026-01-02T00:00:00.000Z") replay_state (Some (JStr (uuid_of 0)))
    = (st', [BroadcastHistory; StdinWrite (PSpeak payload)], 200).
Proof.
  assert (Hd : ids_drawn replay_state).
  { unfold ids_drawn. simpl. constructor; [exists 1%nat|constructor; [exists 0%nat|constructor]];
    split; simpl; (lia || reflexivity). }
  assert (Hl : (length replay_state.(history) <= 50)%nat) by (simpl; lia).
  assert (Hf : find (id_matches (Some (JStr (uuid_of 0)))) replay_state.(history)
               = Some (with_id (demo_item 0) (uuid_of 0))) by (vm_compute; reflexivity).
  split; [exact Hd|split; [exact Hl|split; [exact Hf|]]].
  exact (proj1 (replay_enqueues_fresh_copy None (js "2026-01-02T00:00:00.000Z")
                  replay_state _ _ Hd Hl Hf)).
Defined.

(* ------------------------------------------------------------------ *)
(** ** Voices *)

(** C4 (as the code behaves): the speak paths do not check the voice.  The
    MCP [speak] tool and the reverse client's [speak], [speak_mp3] and
    [speak_with_options] tools write to the processor a payload carrying
    whatever non-empty voice the request names, and answer without an error
    (the MCP tool with [isError: false], the reverse client's tools with the
    success text of [sendToProcessor]); the only check against the eleven
    [AVAILABLE_VOICES] is made by the voice-management tools, e.g.
    [set_default_voice], which refuses an unknown id and keeps the state. *)
Theorem speak_voice_passed_through :
  (forall env now st text v speed mp3 p ann, v <> [] ->
     exists payload,
       In (StdinWrite (PSpeak payload))
          (speakToolHandler env now st text (Some v) speed mp3 p ann).1.2 /\
       payload.(it_voice) = v /\
       (speakToolHandler env now st text (Some v) speed mp3 p ann).2.2 = false) /\
  (forall env now st t v speed, t <> [] -> v <> [] ->
     exists payload,
       In (StdinWrite (PSpeak payload)) (rc_speak env now st (Some (JStr t)) (Some v) speed).1.2 /\
       payload.(it_voice) = v /\
       (rc_speak env now st (Some (JStr t)) (Some v) speed).2 = js "Request sent to processor") /\
  (forall env now st t v speed p ann, t <> [] -> v <> [] ->
     exists payload,
       In (StdinWrite (PSpeak payload))
          (rc_speak_mp3 env now st (Some (JStr t)) (Some v) speed p ann).1.2 /\
       payload.(it_voice) = v /\
       (rc_speak_mp3 env now st (Some (JStr t)) (Some v) speed p ann).2
         = js "MP3 will be saved to " ++ show_path (containerToHostPath env payload.(it_mp3_path))) /\
  (forall env now st t v speed mp3 p ann, t <> [] -> v <> [] ->
     exists payload,
       In (StdinWrite (PSpeak payload))
          (rc_speak_with_options env now st (Some (JStr t)) (Some v) speed mp3 p ann).1.2 /\
       payload.(it_voice) = v /\
       (rc_speak_with_options env now st (Some (JStr t)) (Some v) speed mp3 p ann).2
         = (if mp3
            then js "MP3 will be saved to " ++ show_path (containerToHostPath env payload.(it_mp3_path))
            else js "Request sent to processor")) /\
  (forall st v, v <> [] -> v ∉ map v_id AVAILABLE_VOICES ->
     set_default_voice st (Some (JStr v))
       = (st, jsq "Unknown voice '" ++ v ++ jsq "'. Use list_voices to see available options.")).
Proof.
  split; [|split; [|split; [|split]]].
  - intros env now st text v speed mp3 p ann Hv.
    unfold speakToolHandler, uuidv4. cbn beta iota zeta.
    destruct (resolve_mp3_path env now mp3 p) as [r e1].
    destruct (addToHistory _ _) as [st2 e2]. cbn [fst snd].
    eexists. split; [|split; [|reflexivity]].
    + apply in_or_app. right. apply in_or_app. right. simpl. right. left. reflexivity.
    + simpl. by rewrite bool_decide_eq_false_2.
  - intros env now st t v speed Ht Hv.
    unfold rc_speak. rewrite bool_decide_eq_false_2 by done.
    unfold buildSpeakPayload, uuidv4. cbn beta iota zeta.
    destruct (resolve_mp3_path env now false None) as [r e1].
    destruct (addToHistory _ _) as [st2 e2]. cbn [fst snd sendToProcessor].
    eexists. split; [|split].
    + apply in_or_app. right. apply in_or_app. right. simpl. left. reflexivity.
    + simpl. by rewrite bool_decide_eq_false_2.
    + reflexivity.
  - intros env now st t v speed p ann Ht Hv.
    unfold rc_speak_mp3. rewrite bool_decide_eq_false_2 by done.
    unfold buildSpeakPayload, uuidv4. cbn beta iota zeta.
    destruct (resolve_mp3_path env now true p) as [r e1].
    destruct (addToHistory _ _) as [st2 e2]. cbn [fst snd sendToProcessor].
    eexists. split; [|split].
    + apply in_or_app. right. apply in_or_app. right. simpl. left. reflexivity.
    + simpl. by rewrite bool_decide_eq_false_2.
    + reflexivity.
  - intros env now st t v speed mp3 p ann Ht Hv.
    unfold rc_speak_with_options. rewrite bool_decide_eq_false_2 by done.
    unfold buildSpeakPayload, uuidv4. cbn beta iota zeta.
    destruct (resolve_mp3_path env now mp3 p) as [r e1].
    destruct (addToHistory _ _) as [st2 e2]. cbn [fst snd sendToProcessor].
    eexists. split; [|split].
    + apply in_or_app. right. apply in_or_app. right. simpl. left. reflexivity.
    + simpl. by rewrite bool_decide_eq_false_2.
    + reflexivity.
  - intros st v Hv Hu. unfold set_default_voice.
    rewrite bool_decide_eq_false_2 by done.
    destruct (find (fun k => bool_decide (v_id k = v)) AVAILABLE_VOICES) as [k|] eqn:E;
      [|reflexivity].
    exfalso. apply find_some in E as [Hin Hk]. apply bool_decide_eq_true in Hk.
    apply Hu. subst v. apply list_elem_of_In. by apply in_map.
Qed.

Lemma speak_voice_passed_through_witness :
  set_default_voice init_state (Some (JStr (js "xx_unknown")))
    = (init_state, jsq "Unknown voice '" ++ js "xx_unknown"
                     ++ jsq "'. Use list_voices to see available options.") /\
  exists payload,
    In (StdinWrite (PSpeak payload))
       (rc_speak_mp3 None (js "2026-01-01T00:00:00.000Z") init_state (Some (JStr (js "Hello")))
          (Some (js "xx_unknown")) None None false).1.2 /\
    payload.(it_voice) = js "xx_unknown" /\
    (rc_speak_mp3 None (js "2026-01-01T00:00:00.000Z") init_state (Some (JStr (js "Hello")))
       (Some (js "xx_unknown")) None None false).2
      = js "MP3 will be saved to " ++ show_path (containerToHostPath None payload.(it_mp3_path)).
Proof.
  split.
  - apply (proj2 (proj2 (proj2 (proj2 speak_voice_passed_through)))).
    + vm_compute. discriminate.
    + intros Hin. apply list_elem_of_In in Hin. vm_compute in Hin.
      repeat (destruct Hin as [Hin|Hin]; [discriminate Hin|]). exact Hin.
  - apply (proj1 (proj2 (proj2 speak_voice_passed_through))).
    + vm_compute. discriminate.
    + vm_compute. discriminate.
Defined.

(** C4 fails as stated: a speak request naming a voice outside the eleven
    known ones is not rejected; the voice is passed on to the processor and
    the tool reports success. *)
Lemma speak_unknown_voice_forwarded :
  bool_decide (js "xx_unknown" ∈ map v_id AVAILABLE_VOICES) = false /\
  (speakToolHandler None (js "2026-01-01T00:00:00.000Z") init_state (js "Hello")
     (Some (js "xx_unknown")) None false None false).1.2 !! 2%nat
    = Some (StdinWrite (PSpeak (mkItem (uuid_of 0) None (js "Hello") (js "xx_unknown") 1
                                  false None false None))) /\
  (speakToolHandler None (js "2026-01-01T00:00:00.000Z") init_state (js "Hello")
     (Some (js "xx_unknown")) None false None false).2
    = (js "Request sent to processor", false).
Proof. split; [|split]; vm_compute; reflexivity. Qed.

(* ------------------------------------------------------------------ *)
(** ** Splitting long text *)

Definition has_content (l : jsstr) : bool := negb (forallb is_ws l).

Lemma trim_start_length l : (length (trim_start l) <= length l)%nat.
Proof. induction l as [|c l IH]; simpl; [lia|]. destruct (is_ws c); simpl; lia. Qed.

Lemma trim_rev l : trim l = rev (trim_start (rev (trim_start l))).
Proof. unfold trim, rev'. by rewrite <- !rev_alt. Qed.

Lemma trim_length l : (length (trim l) <= length l)%nat.
Proof.
  rewrite trim_rev, length_rev.
  pose proof (trim_start_length (rev (trim_start l))). rewrite length_rev in H.
  pose proof (trim_start_length l). lia.
Qed.

Lemma trim_start_nil l : trim_start l = [] <-> forallb is_ws l = true.
Proof.
  induction l as [|c l IH]; simpl; [done|].
  destruct (is_ws c); simpl; [done|]. split; discriminate.
Qed.

Lemma trim_start_cons l c r : trim_start l = c :: r -> is_ws c = false.
Proof.
  induction l as [|d l IH]; simpl; [discriminate|].
  destruct (is_ws d) eqn:E; [done|]. intros H. by injection H as -> _.
Qed.

Lemma forallb_rev (f : Z -> bool) l : forallb f (rev l) = forallb f l.
Proof.
  induction l as [|c l IH]; simpl; [done|].
  rewrite forallb_app, IH. simpl. by rewrite andb_true_r, andb_comm.
Qed.

Lemma trim_nil l : trim l = [] <-> forallb is_ws l = true.
Proof.
  rewrite trim_rev, <- trim_start_nil.
  split.
  - intros H. destruct (trim_start l) as [|c r] eqn:E; [done|].
    apply (f_equal (@rev Z)) in H. rewrite rev_involutive in H.
    apply trim_start_nil in H. rewrite forallb_rev in H.
    apply trim_start_cons in E. simpl in H. by rewrite E in H.
  - intros ->. reflexivity.
Qed.

Lemma has_content_app a b : has_content (a ++ b) = has_content a || has_content b.
Proof. unfold has_content. by rewrite forallb_app, negb_andb. Qed.

Lemma has_content_trim l : has_content l = true -> trim l <> [].
Proof.
  unfold has_content. intros H E. apply trim_nil in E. by rewrite E in H.
Qed.

Lemma ws_span_spec t run rest :
  ws_span t = (run, rest) -> t = run ++ rest /\ forallb is_ws run = true.
Proof.
  revert run rest. induction t as [|c t IH]; intros run rest E; simpl in E.
  - by injection E as <- <-.
  - destruct (is_ws c) eqn:Ec.
    + destruct (ws_span t) as [r' rest'] eqn:Et. injection E as <- <-.
      destruct (IH r' rest' eq_refl) as [-> Hr]. simpl. by rewrite Ec, Hr.
    + by injection E as <- <-.
Qed.

Lemma split_sent_content fuel prev l cur_rev :
  has_content cur_rev || has_content l = true ->
  exists s, In s (split_sent_aux fuel prev l cur_rev) /\ has_content s = true.
Proof.
  revert prev l cur_rev. induction fuel as [|f IH]; intros prev l cur_rev H.
  - exists (rev' cur_rev ++ l). split; [by left|]. unfold rev'. rewrite <- rev_alt.
    rewrite has_content_app. unfold has_content at 1. by rewrite forallb_rev.
  - destruct l as [|c t]; simpl.
    + exists (rev' cur_rev). split; [by left|]. unfold rev'. rewrite <- rev_alt.
      unfold has_content. rewrite forallb_rev. by rewrite orb_false_r in H.
    + destruct ((match prev with Some p => is_end_punct p | None => false end) && is_ws c)
        eqn:Ec.
      * destruct (ws_span t) as [run rest] eqn:Et.
        apply ws_span_spec in Et as [-> Hrun].
        destruct (has_content cur_rev) eqn:Hc.
        -- exists (rev' cur_rev). split; [by left|]. unfold rev'. rewrite <- rev_alt.
           unfold has_content. by rewrite forallb_rev.
        -- apply andb_prop in Ec as [_ Hcw].
           simpl in H. unfold has_content in H. simpl in H.
           rewrite Hcw, forallb_app, Hrun in H. simpl in H.
           destruct (IH (Some (List.last run c)) rest [] H) as (s & Hs & Hcs).
           exists s. split; [by right|done].
      * apply IH. unfold has_content in *. simpl in *.
        destruct (is_ws c), (forallb is_ws cur_rev), (forallb is_ws t); simpl in *; done.
Qed.

Lemma split_sentences_content para :
  has_content para = true -> exists s, In s (split_sentences para) /\ has_content s = true.
Proof. intros H. apply split_sent_content. by rewrite H, orb_true_r. Qed.

Lemma paragraphs_of_content text p : In p (paragraphs_of text) -> has_content p = true.
Proof.
  unfold paragraphs_of. rewrite filter_In. intros [_ H].
  apply negb_true_iff, bool_decide_eq_false in H.
  unfold has_content. destruct (forallb is_ws p) eqn:E; [|done].
  exfalso. apply H. by apply trim_nil.
Qed.

Section Split.
Variable text : jsstr.
Variable maxChars : Z.

Definition good (s : jsstr) : Prop :=
  Z.of_nat (length s) <= maxChars \/ long_sentence text maxChars s.

Definition cur_ok (cur : jsstr) : Prop :=
  cur = [] \/ Z.of_nat (length cur) <= maxChars \/
  exists para, In para (paragraphs_of text) /\ In cur (split_sentences para) /\
    maxChars < Z.of_nat (length cur).

Definition inv (acc : list jsstr * jsstr) : Prop := Forall good acc.1 /\ cur_ok acc.2.

(** Some section has been pushed, or [current] holds a non-blank character. *)
Definition started (acc : list jsstr * jsstr) : Prop := acc.1 <> [] \/ has_content acc.2 = true.

Lemma push_ok cur : cur_ok cur -> cur <> [] -> good (trim cur).
Proof.
  intros [->|[Hl|(para & Hp & Hs & Hl)]] Hn; [done| |].
  - left. pose proof (trim_length cur). lia.
  - right. exists para, cur. done.
Qed.

Lemma sentence_ok para sent :
  In para (paragraphs_of text) -> In sent (split_sentences para) -> cur_ok sent.
Proof.
  intros Hp Hs. destruct (Z.lt_ge_cases maxChars (Z.of_nat (length sent))).
  - right. right. by exists para.
  - right. by left.
Qed.

Lemma sent_step_inv para acc sent :
  In para (paragraphs_of text) -> In sent (split_sentences para) ->
  inv acc -> inv (sent_step maxChars acc sent).
Proof.
  intros Hp Hs. destruct acc as [secs cur]. intros [Hg Hc]. unfold sent_step.
  destruct ((maxChars <? Z.of_nat (length cur) + Z.of_nat (length sent) + 1)
            && (0 <? Z.of_nat (length cur))) eqn:E.
  - apply andb_prop in E as [_ E]. apply Z.ltb_lt in E.
    split; simpl.
    + apply Forall_app. split; [done|]. constructor; [|done].
      apply push_ok; [done|]. intros ->. simpl in E. lia.
    + by apply (sentence_ok para).
  - split; simpl; [done|].
    case_bool_decide as Hn.
    + subst cur. by apply (sentence_ok para).
    + right. left. rewrite !length_app. simpl.
      apply andb_false_iff in E as [E|E].
      * apply Z.ltb_ge in E. lia.
      * destruct cur; [done|]. apply Z.ltb_ge in E. simpl length in E. lia.
Qed.

Lemma fold_sent_inv para sents acc :
  In para (paragraphs_of text) -> (forall s, In s sents -> In s (split_sentences para)) ->
  inv acc -> inv (fold_left (sent_step maxChars) sents acc).
Proof.
  revert acc. induction sents as [|s ss IH]; intros acc Hp Hin Hi; simpl; [done|].
  apply IH; [done| |].
  - intros x Hx. apply Hin. by right.
  - apply (sent_step_inv para); [done| |done]. apply Hin. by left.
Qed.

Lemma para_step_inv acc para :
  In para (paragraphs_of text) -> inv acc -> inv (para_step maxChars acc para).
Proof.
  intros Hp. destruct acc as [secs cur]. intros [Hg Hc]. unfold para_step.
  assert (Hfirst : exists secs1 cur1,
    (if (maxChars <? Z.of_nat (length cur) + Z.of_nat (length para) + 2)
        && (0 <? Z.of_nat (length cur))
     then (secs ++ [trim cur], []) else (secs, cur)) = (secs1, cur1) /\
    inv (secs1, cur1) /\
    (cur1 = [] \/ Z.of_nat (length cur1) + Z.of_nat (length para) + 2 <= maxChars)).
  { destruct ((maxChars <? Z.of_nat (length cur) + Z.of_nat (length para) + 2)
              && (0 <? Z.of_nat (length cur))) eqn:E.
    - apply andb_prop in E as [_ E]. apply Z.ltb_lt in E.
      eexists _, _. split; [reflexivity|]. split; [split|by left]; simpl.
      + apply Forall_app. split; [done|]. constructor; [|done].
        apply push_ok; [done|]. intros ->. simpl in E. lia.
      + by left.
    - eexists _, _. split; [reflexivity|]. split; [done|].
      apply andb_false_iff in E as [E|E].
      + right. apply Z.ltb_ge in E. lia.
      + left. destruct cur; [done|]. apply Z.ltb_ge in E. simpl length in E. lia. }
  destruct Hfirst as (secs1 & cur1 & -> & [Hg1 Hc1] & Hb).
  destruct (maxChars <? Z.of_nat (length para)) eqn:Elong.
  - destruct (0 <? Z.of_nat (length cur1)) eqn:E;
      apply (fold_sent_inv para); try done.
    split; simpl.
    + apply Forall_app. split; [done|]. constructor; [|done].
      apply push_ok; [done|]. intros ->. simpl in E. discriminate.
    + by left.
  - apply Z.ltb_ge in Elong. split; simpl; [done|].
    right. left. case_bool_decide as Hn.
    + subst cur1. simpl. lia.
    + destruct Hb as [Hb|Hb]; [done|]. rewrite !length_app. simpl. lia.
Qed.

Lemma fold_para_inv paras acc :
  (forall p, In p paras -> In p (paragraphs_of text)) ->
  inv acc -> inv (fold_left (para_step maxChars) paras acc).
Proof.
  revert acc. induction paras as [|p ps IH]; intros acc Hin Hi; simpl; [done|].
  apply IH.
  - intros x Hx. apply Hin. by right.
  - apply para_step_inv; [|done]. apply Hin. by left.
Qed.

Lemma sent_step_started acc s :
  started acc \/ has_content s = true -> started (sent_step maxChars acc s).
Proof.
  destruct acc as [secs cur]. intros H. unfold sent_step.
  destruct ((maxChars <? Z.of_nat (length cur) + Z.of_nat (length s) + 1)
            && (0 <? Z.of_nat (length cur))); unfold started in *; cbn [fst snd] in *.
  - left. by destruct secs.
  - destruct H as [[H|H]|H]; [by left| |].
    + right. by rewrite has_content_app, H.
    + right. rewrite !has_content_app, H. by rewrite !orb_true_r.
Qed.

Lemma fold_sent_started sents acc :
  started acc \/ (exists s, In s sents /\ has_content s = true) ->
  started (fold_left (sent_step maxChars) sents acc).
Proof.
  revert acc. induction sents as [|s ss IH]; intros acc H; simpl.
  - by destruct H as [H|(s & [] & _)].
  - apply IH. destruct H as [H|(x & [<-|Hx] & Hc)].
    + left. apply sent_step_started. by left.
    + left. apply sent_step_started. by right.
    + right. by exists x.
Qed.

Lemma para_step_started acc para :
  started acc \/ has_content para = true -> started (para_step maxChars acc para).
Proof.
  destruct acc as [secs cur]. intros H. unfold para_step.
  assert (Hfirst : exists secs1 cur1,
    (if (maxChars <? Z.of_nat (length cur) + Z.of_nat (length para) + 2)
        && (0 <? Z.of_nat (length cur))
     then (secs ++ [trim cur], []) else (secs, cur)) = (secs1, cur1) /\
    (started (secs1, cur1) \/ has_content para = true)).
  { destruct ((maxChars <? Z.of_nat (length cur) + Z.of_nat (length para) + 2)
              && (0 <? Z.of_nat (length cur))).
    - eexists _, _. split; [reflexivity|]. left. left. simpl. by destruct secs.
    - eexists _, _. split; [reflexivity|done]. }
  destruct Hfirst as (secs1 & cur1 & -> & H1).
  destruct (maxChars <? Z.of_nat (length para)).
  - destruct (0 <? Z.of_nat (length cur1)); apply fold_sent_started;
      (destruct H1 as [H1|H1]; [left|right; by apply split_sentences_content]).
    + left. simpl. by destruct secs1.
    + done.
  - unfold started in *; cbn [fst snd] in *.
    destruct H1 as [[H1|H1]|H1]; [by left| |].
    + right. by rewrite has_content_app, H1.
    + right. rewrite !has_content_app, H1. by rewrite !orb_true_r.
Qed.

Lemma fold_para_started paras acc :
  started acc \/ (exists p, In p paras /\ has_content p = true) ->
  started (fold_left (para_step maxChars) paras acc).
Proof.
  revert acc. induction paras as [|p ps IH]; intros acc H; simpl.
  - by destruct H as [H|(p & [] & _)].
  - apply IH. destruct H as [H|(x & [<-|Hx] & Hc)].
    + left. apply para_step_started. by left.
    + left. apply para_step_started. by right.
    + right. by exists x.
Qed.

End Split.

(** C5 (as the code behaves): a text within the budget is returned whole; a
    longer text whose paragraphs are all blank is also returned whole;
    otherwise the result is non-empty and every section is within the budget
    or is one sentence of a paragraph, longer than the budget on its own,
    trimmed.  (No lower bound on the number of sections holds.) *)
Theorem split_sections_shape text maxChars :
  (Z.of_nat (length text) <= maxChars -> splitTextIntoSections text maxChars = [text]) /\
  (maxChars < Z.of_nat (length text) -> paragraphs_of text = [] ->
     splitTextIntoSections text maxChars = [text]) /\
  (maxChars < Z.of_nat (length text) -> paragraphs_of text <> [] ->
     splitTextIntoSections text maxChars <> [] /\
     Forall (fun s => Z.of_nat (length s) <= maxChars \/ long_sentence text maxChars s)
       (splitTextIntoSections text maxChars)).
Proof.
  split; [|split].
  - intros H. unfold splitTextIntoSections.
    by rewrite (proj2 (Z.leb_le _ _) H).
  - intros H Hp. unfold splitTextIntoSections.
    rewrite (proj2 (Z.leb_gt _ _) H), Hp. reflexivity.
  - intros H Hp. unfold splitTextIntoSections.
    rewrite (proj2 (Z.leb_gt _ _) H).
    pose proof (fold_para_inv text maxChars (paragraphs_of text) ([], []) (fun p Hp => Hp))
      as Hinv.
    pose proof (fold_para_started maxChars (paragraphs_of text) ([], [])) as Hst.
    destruct (fold_left (para_step maxChars) (paragraphs_of text) ([], []))
      as [secs cur] eqn:Ef.
    destruct Hinv as [Hg Hc]; [split; [constructor|by left]|]. simpl in Hg, Hc.
    assert (Hs : secs <> [] \/ has_content cur = true).
    { apply Hst. right. destruct (paragraphs_of text) as [|p ps] eqn:Eps; [done|].
      exists p. split; [by left|]. apply (paragraphs_of_content text). rewrite Eps. by left. }
    assert (Hg' : Forall (good text maxChars)
                    (if bool_decide (trim cur = []) then secs else secs ++ [trim cur])).
    { case_bool_decide as Ht; [done|]. apply Forall_app. split; [done|].
      constructor; [|done]. apply push_ok; [done|]. intros ->. by apply Ht. }
    assert (Hne : (if bool_decide (trim cur = []) then secs else secs ++ [trim cur]) <> []).
    { case_bool_decide as Ht.
      - destruct Hs as [Hs|Hs]; [done|]. by apply has_content_trim in Hs.
      - by destruct secs. }
    destruct (if bool_decide (trim cur = []) then secs else secs ++ [trim cur]) as [|x xs];
      [done|].
    split; [done|]. exact Hg'.
Qed.

Lemma split_sections_shape_witness :
  (5000 < Z.of_nat (length short_paragraphs_doc) /\ paragraphs_of short_paragraphs_doc <> []) /\
  splitTextIntoSections short_paragraphs_doc 5000 <> [] /\
  Forall (fun s => Z.of_nat (length s) <= 5000 \/ long_sentence short_paragraphs_doc 5000 s)
    (splitTextIntoSections short_paragraphs_doc 5000).
Proof.
  assert (H1 : 5000 < Z.of_nat (length short_paragraphs_doc)) by (vm_compute; reflexivity).
  assert (H2 : paragraphs_of short_paragraphs_doc <> []) by (vm_compute; discriminate).
  split; [split; assumption|].
  exact (proj2 (proj2 (split_sections_shape short_paragraphs_doc 5000)) H1 H2).
Defined.

(** C5 fails as stated: a document of 12,000 characters may give fewer than
    three sections (two for short paragraphs, one for a single long
    sentence), and a blank one is returned whole, one section of 12,000
    characters that is no sentence. *)
Lemma twelve_thousand_chars_few_sections :
  length short_paragraphs_doc = 12000%nat /\
  map length (splitTextIntoSections short_paragraphs_doc 5000) = [4999%nat; 3997%nat] /\
  length one_word_doc = 12000%nat /\
  map length (splitTextIntoSections one_word_doc 5000) = [12000%nat] /\
  length blank_doc = 12000%nat /\
  splitTextIntoSections blank_doc 5000 = [blank_doc] /\ paragraphs_of blank_doc = [].
Proof. repeat apply conj; vm_compute; reflexivity. Qed.

(* ------------------------------------------------------------------ *)
(** ** Splitting on and joining with newlines *)

Lemma join_nl_cons x xs : xs <> [] -> join_nl (x :: xs) = x ++ 10 :: join_nl xs.
Proof. by destruct xs. Qed.

Lemma split_nl_aux_nonnil s cur : split_nl_aux s cur <> [].
Proof.
  revert cur. induction s as [|c r IH]; intros cur; simpl; [done|].
  by destruct (c =? 10).
Qed.

Lemma split_nl_aux_join s cur : join_nl (split_nl_aux s cur) = rev cur ++ s.
Proof.
  revert cur. induction s as [|c r IH]; intros cur; simpl.
  - by rewrite app_nil_r.
  - destruct (Z.eqb_spec c 10) as [->|Hc].
    + rewrite join_nl_cons by apply split_nl_aux_nonnil. by rewrite IH.
    + rewrite IH. simpl. by rewrite <- app_assoc.
Qed.

Lemma split_nl_join s : join_nl (split_nl s) = s.
Proof. apply split_nl_aux_join. Qed.

Lemma split_nl_aux_no_nl s cur :
  ~ In 10 cur -> Forall (fun p => ~ In 10 p) (split_nl_aux s cur).
Proof.
  revert cur. induction s as [|c r IH]; intros cur Hcur; simpl.
  - constructor; [|done]. by rewrite <- in_rev.
  - destruct (Z.eqb_spec c 10) as [->|Hc].
    + constructor; [by rewrite <- in_rev|]. apply IH. simpl. tauto.
    + apply IH. simpl. intros [H|H]; [lia|done].
Qed.

(* ------------------------------------------------------------------ *)
(** ** Trimming twice *)

Lemma trim_start_id l :
  match l with [] => True | c :: _ => is_ws c = false end -> trim_start l = l.
Proof. destruct l as [|c r]; simpl; [done|]. by intros ->. Qed.

Lemma trim_start_last l b d :
  trim_start l = b -> b <> [] -> List.last b d = List.last l d.
Proof.
  induction l as [|c l IH]; simpl; [by intros <-|].
  destruct (is_ws c) eqn:Ec.
  - intros Hb Hne. rewrite (IH Hb Hne). destruct l; [subst; done|done].
  - by intros <-.
Qed.

Lemma trim_start_rev_trim l :
  let b := trim_start (rev (trim_start l)) in trim_start (rev b) = rev b.
Proof.
  intros b. apply trim_start_id.
  destruct (rev b) as [|h r] eqn:Hb; [done|].
  assert (b <> []) as Hne by (intros E; rewrite E in Hb; discriminate).
  assert (List.last b 0 = h) as Hh.
  { apply (f_equal (@rev Z)) in Hb. rewrite rev_involutive in Hb. rewrite Hb.
    simpl. apply List.last_last. }
  unfold b in Hh. rewrite (trim_start_last _ _ 0 eq_refl Hne) in Hh.
  destruct (trim_start l) as [|y ys] eqn:Ey; [simpl in Hne; done|].
  simpl in Hh. rewrite List.last_last in Hh. subst h.
  by apply trim_start_cons in Ey.
Qed.

Lemma trim_trim l : trim (trim l) = trim l.
Proof.
  rewrite !(trim_rev (trim l)), (trim_rev l).
  pose proof (trim_start_rev_trim l) as H. simpl in H. rewrite H, rev_involutive.
  destruct (trim_start (rev (trim_start l))) as [|c r] eqn:E; [done|].
  rewrite (trim_start_id (c :: r)); [done|]. by apply trim_start_cons in E.
Qed.

(* ------------------------------------------------------------------ *)
(** ** Markdown sections *)

Definition md_good (s : MdSection) : Prop :=
  s.(md_content) <> [] /\ trim s.(md_content) = s.(md_content).

Lemma md_flush_good secs h ls ty :
  Forall md_good secs -> Forall md_good (md_flush secs h ls ty).
Proof.
  intros H. unfold md_flush.
  destruct (Z.ltb_spec 0 (Z.of_nat (length (trim (join_nl ls))))) as [Hl|]; [|done].
  apply Forall_app; split; [done|]. constructor; [|done].
  split; simpl.
  - intros E. rewrite E in Hl. simpl in Hl. lia.
  - apply trim_trim.
Qed.

Lemma md_flush_length secs h ls ty :
  (length (md_flush secs h ls ty) <= S (length secs))%nat.
Proof.
  unfold md_flush. destruct (0 <? _); [rewrite length_app; simpl; lia|lia].
Qed.

Lemma md_fold_good lines acc :
  Forall md_good acc.1.1.1 -> Forall md_good (fold_left md_step lines acc).1.1.1.
Proof.
  revert acc. induction lines as [|l ls IH]; intros [[[secs h] cur] ty] H; simpl; [done|].
  apply IH. unfold md_step. simpl in H.
  destruct (heading_match l); simpl; [by apply md_flush_good|done].
Qed.

Lemma md_fold_length lines acc :
  (length (fold_left md_step lines acc).1.1.1 <=
   length acc.1.1.1 + length (List.filter (fun l => if heading_match l then true else false) lines))%nat.
Proof.
  revert acc. induction lines as [|l ls IH]; intros [[[secs h] cur] ty]; simpl; [lia|].
  etransitivity; [apply IH|]. unfold md_step.
  destruct (heading_match l); simpl; [pose proof (md_flush_length secs h cur ty)|]; lia.
Qed.

Lemma md_fold_no_heading lines secs h cur ty :
  Forall (fun l => heading_match l = None) lines ->
  exists ty', fold_left md_step lines (secs, h, cur, ty) = (secs, h, cur ++ lines, ty').
Proof.
  revert cur ty. induction lines as [|l ls IH]; intros cur ty H; cbn [fold_left].
  - exists ty. by rewrite app_nil_r.
  - inversion H as [|? ? Hl Hls]; subst.
    assert (md_step (secs, h, cur, ty) l = (secs, h, cur ++ [l], md_line_type l ty)) as ->
      by (unfold md_step; by rewrite Hl).
    destruct (IH (cur ++ [l]) (md_line_type l ty) Hls) as [ty' ->].
    exists ty'. by rewrite <- app_assoc.
Qed.

Lemma filter_length_zero {A} (f : A -> bool) l :
  length (List.filter f l) = 0%nat -> Forall (fun x => f x = false) l.
Proof.
  induction l as [|x l IH]; simpl; [done|].
  destruct (f x) eqn:E; simpl; [discriminate|]. intros H. constructor; auto.
Qed.

Lemma lead_hashes_repeat k r : lead_hashes (repeat 35 k ++ r) = (k + lead_hashes r)%nat.
Proof. induction k as [|k IH]; simpl; [done|]. by rewrite IH. Qed.

Lemma ws_span_app w c t :
  forallb is_ws w = true -> is_ws c = false -> ws_span (w ++ c :: t) = (w, c :: t).
Proof.
  induction w as [|x w IH]; simpl; intros Hw Hc.
  - by rewrite Hc.
  - apply andb_prop in Hw as [Hx Hw]. rewrite Hx, IH; done.
Qed.

Lemma hashes_then_none k line :
  (forall j, (1 <= j <= k)%nat -> exists c t, drop j line = c :: t /\ is_ws c = false) ->
  hashes_then k line = None.
Proof.
  induction k as [|k IH]; intros H; simpl; [done|].
  destruct (H (S k)) as (c & t & Ed & Ec); [lia|].
  rewrite Ed. simpl. rewrite Ec. simpl. apply IH. intros j Hj. apply H. lia.
Qed.

Lemma drop_repeat_app j k r :
  (j <= k)%nat -> drop j (repeat 35 k ++ r) = repeat 35 (k - j) ++ r.
Proof.
  revert k. induction j as [|j IH]; intros k Hj; [by rewrite Nat.sub_0_r|].
  destruct k as [|k]; [lia|]. simpl. apply IH. lia.
Qed.

(** X1 (stdout handler, [splitMarkdownSections]): [s.split("\n")] loses
    nothing; joined back with newlines its pieces give [s], and no piece
    contains a newline. *)
Theorem split_nl_join_roundtrip s :
  join_nl (split_nl s) = s /\ Forall (fun p => ~ In 10 p) (split_nl s).
Proof. split; [apply split_nl_join|apply split_nl_aux_no_nl; simpl; tauto]. Qed.

(** X2 ([splitMarkdownSections]): every section returned has a content
    that is not empty and has no leading or trailing whitespace. *)
Theorem markdown_sections_trimmed markdown :
  Forall (fun s => s.(md_content) <> [] /\ trim s.(md_content) = s.(md_content))
    (splitMarkdownSections markdown).
Proof.
  unfold splitMarkdownSections.
  destruct markdown as [[| | | m | |]|]; try constructor.
  case_bool_decide; [constructor|].
  destruct (fold_left md_step (split_nl m) ([], js "Introduction", [], js "text"))
    as [[[secs h] cur] ty] eqn:E.
  apply md_flush_good.
  pose proof (md_fold_good (split_nl m) ([], js "Introduction", [], js "text")) as G.
  rewrite E in G. apply G. constructor.
Qed.

(** X3 ([splitMarkdownSections]): a document gives at most one section
    more than it has heading lines. *)
Theorem markdown_sections_count m :
  (length (splitMarkdownSections (Some (JStr m))) <= S (heading_count m))%nat.
Proof.
  unfold splitMarkdownSections, heading_count.
  case_bool_decide; simpl; [lia|].
  pose proof (md_fold_length (split_nl m) ([], js "Introduction", [], js "text")) as G.
  destruct (fold_left md_step (split_nl m) ([], js "Introduction", [], js "text"))
    as [[[secs h] cur] ty] eqn:E.
  simpl in G. pose proof (md_flush_length secs h cur ty). lia.
Qed.

(** X4 ([splitMarkdownSections]): a document without heading lines gives
    no section if it is blank, and otherwise a single ["Introduction"]
    section whose content is the whole document trimmed. *)
Theorem markdown_no_heading_single_section m :
  heading_count m = 0%nat ->
  exists ty, splitMarkdownSections (Some (JStr m)) =
    if bool_decide (trim m = []) then []
    else [mkMdSection (js "Introduction") (trim m) ty].
Proof.
  intros H0. unfold splitMarkdownSections.
  case_bool_decide as Hm.
  - subst m. exists (js "text"). reflexivity.
  - apply filter_length_zero in H0.
    assert (Forall (fun l => heading_match l = None) (split_nl m)) as Hn.
    { eapply Forall_impl; [exact H0|]. intros l. simpl. by destruct (heading_match l). }
    destruct (md_fold_no_heading (split_nl m) [] (js "Introduction") [] (js "text") Hn)
      as [ty ->].
    exists ty. unfold md_flush. simpl. rewrite split_nl_join.
    destruct (Z.ltb_spec 0 (Z.of_nat (length (trim m)))) as [Hl|Hl];
      case_bool_decide as Ht; try done.
    + rewrite Ht in Hl. simpl in Hl. lia.
    + destruct (trim m); [done|simpl in Hl; lia].
Qed.

Lemma markdown_no_heading_single_section_witness :
  heading_count (js "Just text." ++ [10] ++ js "More.") = 0%nat /\
  exists ty, splitMarkdownSections (Some (JStr (js "Just text." ++ [10] ++ js "More."))) =
    [mkMdSection (js "Introduction") (js "Just text." ++ [10] ++ js "More.") ty].
Proof.
  split; [vm_compute; reflexivity|].
  destruct (markdown_no_heading_single_section (js "Just text." ++ [10] ++ js "More."))
    as [ty Hty]; [vm_compute; reflexivity|].
  exists ty. rewrite Hty. vm_compute. reflexivity.
Defined.

(** X5 ([splitMarkdownSections], the pattern [/^(#{1,4})\s+(.+)/]): a
    line of one to four [#], then whitespace, then a character that is
    neither whitespace nor a line terminator, is a heading whose text runs to
    the end of the line or to the first line terminator. *)
Theorem heading_line_recognised k w c t :
  (1 <= k <= 4)%nat -> w <> [] -> forallb is_ws w = true ->
  is_ws c = false -> is_line_terminator c = false ->
  heading_match (repeat 35 k ++ w ++ c :: t) = Some (dot_run (c :: t)).
Proof.
  intros Hk Hw Hws Hc Hlt. unfold heading_match.
  rewrite lead_hashes_repeat.
  assert (lead_hashes (w ++ c :: t) = 0%nat) as ->.
  { destruct w as [|x w']; [done|]. simpl in Hws |- *.
    apply andb_prop in Hws as [Hx _].
    destruct (Z.eqb_spec x 35) as [->|]; [discriminate|done]. }
  rewrite Nat.add_0_r, Nat.min_r by lia.
  destruct k as [|k']; [lia|]. cbn [hashes_then].
  rewrite drop_repeat_app, Nat.sub_diag by lia. cbn [repeat app].
  rewrite ws_span_app by done. cbn [fst].
  assert (exists n, length w = S n) as [n Hn] by (destruct w; [done|by eexists]).
  rewrite Hn. cbn [ws_then_dot]. rewrite <- Hn, drop_app_length.
  simpl. by rewrite Hlt.
Qed.

Lemma heading_line_recognised_witness :
  heading_match (js "## Title") = Some (js "Title").
Proof.
  change (js "## Title") with (repeat 35 2 ++ [32] ++ 84 :: js "itle").
  rewrite (heading_line_recognised 2 [32] 84 (js "itle")); try done; lia.
Defined.

(** X6 ([splitMarkdownSections]): a line whose leading run of [#] (possibly
    empty) is followed by a character other than whitespace, or that starts
    with five or more [#], is not a heading. *)
Theorem heading_line_rejected k c t :
  (is_ws c = false -> c <> 35 -> heading_match (repeat 35 k ++ c :: t) = None) /\
  ((5 <= k)%nat -> heading_match (repeat 35 k ++ t) = None).
Proof.
  split.
  - intros Hc H35. unfold heading_match. apply hashes_then_none.
    intros j Hj. rewrite lead_hashes_repeat in Hj. cbn [lead_hashes] in Hj.
    rewrite (proj2 (Z.eqb_neq c 35) H35), Nat.add_0_r in Hj.
    pose proof (Nat.le_min_r 4 k).
    rewrite drop_repeat_app by lia.
    destruct (k - j)%nat as [|d]; simpl; (do 2 eexists; split; [reflexivity|]); done.
  - intros Hk. unfold heading_match. apply hashes_then_none.
    intros j Hj. pose proof (Nat.le_min_l 4 (lead_hashes (repeat 35 k ++ t))).
    rewrite drop_repeat_app by lia.
    destruct (k - j)%nat as [|d] eqn:E; [lia|]. simpl.
    do 2 eexists; split; [reflexivity|done].
Qed.

Lemma heading_line_rejected_witness :
  heading_match (js "#Title") = None /\ heading_match (js "##### Title") = None.
Proof.
  split.
  - change (js "#Title") with (repeat 35 1 ++ 84 :: js "itle").
    apply (proj1 (heading_line_rejected 1 84 (js "itle"))); [reflexivity|lia].
  - change (js "##### Title") with (repeat 35 5 ++ js " Title").
    apply (proj2 (heading_line_rejected 5 0 (js " Title"))). lia.
Defined.

(* ------------------------------------------------------------------ *)
(** ** The parts of a combine job *)

Lemma speak_writes_app a b : speak_writes (a ++ b) = speak_writes a ++ speak_writes b.
Proof.
  induction a as [|e a IH]; [done|].
  destruct e as [| | | | | |[]|]; simpl; by rewrite ?IH.
Qed.

Lemma queue_parts_spec now jobId v sp pp st i secs :
  let r := queue_parts now jobId v sp pp st i secs in
  r.1.(jobs) = st.(jobs) /\
  map it_text (speak_writes r.2) = secs /\
  map it_mp3_path (speak_writes r.2) = map (fun k => Some (nth k pp [])) (seq i (length secs)) /\
  Forall (fun it => it.(it_jobId) = Some jobId /\ it.(it_voice) = v /\
                    it.(it_speed) = sp /\ it.(it_mp3) = true) (speak_writes r.2).
Proof.
  revert st i. induction secs as [|s rest IH]; intros st i; [done|].
  cbn [queue_parts]. unfold uuidv4. cbn beta iota zeta.
  match goal with |- context [addToHistory ?x ?y] =>
    destruct (addToHistory x y) as [st2 e1] eqn:Ea end.
  destruct (IH st2 (S i)) as (Hj & Ht & Hp & Hf).
  destruct (queue_parts now jobId v sp pp st2 (S i) rest) as [st3 e2] eqn:E.
  unfold addToHistory in Ea. injection Ea as <- <-. simpl in *.
  repeat split; [done|by rewrite Ht|by rewrite Hp|].
  constructor; [done|exact Hf].
Qed.

Lemma split_sections_nonnil text maxChars : splitTextIntoSections text maxChars <> [].
Proof.
  unfold splitTextIntoSections.
  destruct (Z.of_nat (length text) <=? maxChars); [done|].
  destruct (fold_left (para_step maxChars) (paragraphs_of text) ([], [])) as [secs cur].
  destruct (if bool_decide (trim cur = []) then secs else secs ++ [trim cur]); done.
Qed.

Lemma nth_part_paths (b : jsstr) n :
  map (fun k => Some (nth k (map (part_path b) (seq 0 n)) [])) (seq 0 n) =
  map Some (map (part_path b) (seq 0 n)).
Proof.
  rewrite (map_map (part_path b) Some). apply map_ext_in. intros k Hk.
  apply in_seq in Hk. f_equal.
  rewrite (nth_indep _ [] (part_path b 0)) by (rewrite length_map, length_seq; lia).
  rewrite map_nth, seq_nth by lia. done.
Qed.

(** What [speak_mp3_combined] does, in one statement. *)
Lemma speak_mp3_combined_spec env now st text voice speed mp3_path m cl :
  let secs := splitTextIntoSections text (select_max_chars m) in
  let jobId := uuid_of st.(uuid_seed) in
  let out := (combined_output_path env now mp3_path).1 in
  let pp := map (part_path (strip_mp3 out)) (seq 0 (length secs)) in
  let r := speak_mp3_combined env now st text voice speed mp3_path m cl in
  r.1.1.(jobs) =
    <[jobId := mkJob jobId (js "combine") (js "generating") (Z.of_nat (length secs)) 0
                 (JNum 0) (JStr (js "generating")) None pp out (cleanup_flag cl) now]>
      st.(jobs) /\
  (exists e2, r.1.2 = (combined_output_path env now mp3_path).2 ++ e2 /\
     map it_text (speak_writes e2) = secs /\
     map it_mp3_path (speak_writes e2) = map Some pp /\
     Forall (fun it => it.(it_jobId) = Some jobId /\ it.(it_voice) = select_voice st voice /\
                       it.(it_speed) = select_speed speed /\ it.(it_mp3) = true)
       (speak_writes e2)) /\
  r.2 = js "MP3 combine job started (" ++ jobId ++ js "). "
          ++ js_of_Z (Z.of_nat (length secs)) ++ js " section(s) queued. Output: "
          ++ show_path (containerToHostPath env (Some out))
          ++ js ". Use get_job_status to track progress.".
Proof.
  unfold speak_mp3_combined, uuidv4. cbv zeta. cbn beta iota.
  destruct (combined_output_path env now mp3_path) as [o e1] eqn:Eo. cbn [fst snd].
  match goal with
  | |- context [queue_parts ?a ?b ?c ?d ?e ?f ?g ?h] =>
      pose proof (queue_parts_spec a b c d e f g h) as (Hj & Ht & Hp & Hf);
      destruct (queue_parts a b c d e f g h) as [st3 e2] eqn:Eq
  end.
  simpl in Hj, Ht, Hp, Hf. simpl.
  split; [done|]. split; [|done].
  exists e2. split; [done|]. split; [done|]. split.
  - rewrite Hp. apply nth_part_paths.
  - eapply Forall_impl; [exact Hf|]. simpl. intros it (H1 & H2 & H3 & H4).
    repeat split; try done; rewrite H2; by destruct voice.
Qed.

(** Decimal renderings padded to three digits. *)
Lemma js_app s1 s2 : js (s1 ++ s2)%string = js s1 ++ js s2.
Proof.
  induction s1 as [|a s1 IH]; [done|]. simpl. unfold js in *. simpl. by rewrite IH.
Qed.

Lemma js_inj s1 s2 : js s1 = js s2 -> s1 = s2.
Proof.
  revert s2. induction s1 as [|a s1 IH]; intros [|b s2]; try discriminate; [done|].
  unfold js. simpl. intros H. injection H as Hab H.
  apply Nat2Z.inj in Hab.
  rewrite <- (ascii_nat_embedding a), <- (ascii_nat_embedding b), Hab.
  f_equal. by apply IH.
Qed.

Lemma js_D0_iter k d :
  repeat 48 k ++ js (NilEmpty.string_of_uint d) =
  js (NilEmpty.string_of_uint (Nat.iter k Decimal.D0 d)).
Proof. induction k as [|k IH]; [done|]. simpl. rewrite IH. reflexivity. Qed.

Lemma of_uint_iter_D0 k d : Pos.of_uint (Nat.iter k Decimal.D0 d) = Pos.of_uint d.
Proof. induction k as [|k IH]; [done|]. simpl. exact IH. Qed.

Lemma pad_js_of_Z_inj (a b : positive) :
  pad_start3 (js_of_Z (Zpos a)) = pad_start3 (js_of_Z (Zpos b)) -> a = b.
Proof.
  unfold pad_start3.
  change (js_of_Z (Zpos a)) with (js (NilEmpty.string_of_uint (Pos.to_uint a))).
  change (js_of_Z (Zpos b)) with (js (NilEmpty.string_of_uint (Pos.to_uint b))).
  rewrite !js_D0_iter. intros H. apply js_inj in H.
  apply (f_equal NilEmpty.uint_of_string) in H. rewrite !NilEmpty.usu in H.
  injection H as H. apply (f_equal Pos.of_uint) in H.
  rewrite !of_uint_iter_D0, !DecimalPos.Unsigned.of_to in H. by injection H.
Qed.

Lemma part_path_inj b i j : part_path b i = part_path b j -> i = j.
Proof.
  unfold part_path. intros H.
  apply app_inv_head in H. apply app_inv_head in H. apply app_inv_tail in H.
  replace (Z.of_nat i + 1) with (Zpos (Pos.of_succ_nat i)) in H
    by (rewrite Zpos_P_of_succ_nat; lia).
  replace (Z.of_nat j + 1) with (Zpos (Pos.of_succ_nat j)) in H
    by (rewrite Zpos_P_of_succ_nat; lia).
  apply pad_js_of_Z_inj in H.
  by apply SuccNat2Pos.inj in H.
Qed.

Lemma part_path_length b i : (length b + 13 <= length (part_path b i))%nat.
Proof.
  unfold part_path, pad_start3. rewrite !length_app, repeat_length.
  change (length (js "-part-")) with 6%nat. change (length (js ".mp3")) with 4%nat. lia.
Qed.

Lemma strip_mp3_length p : (length p <= length (strip_mp3 p) + 4)%nat.
Proof. unfold strip_mp3. destruct (mp3_suffix _); [rewrite length_take|]; lia. Qed.

Lemma strip_mp3_suffix p s : mp3_suffix s = true -> strip_mp3 (p ++ s) = p.
Proof.
  intros Hs. assert (length s = 4%nat) as Hl
    by (destruct s as [|? [|? [|? [|? [|]]]]]; try discriminate; done).
  unfold strip_mp3. rewrite length_app, Hl, Nat.add_sub, drop_app_length, Hs.
  apply take_app_length.
Qed.

Lemma host_to_container_app env x :
  hostToContainerPath env (Some (MP3_HOST_PREFIX env ++ x)) = Some (CONTAINER_DATA_PREFIX ++ x).
Proof.
  unfold hostToContainerPath. rewrite bool_decide_eq_false_2.
  - by rewrite starts_with_app, drop_length_app.
  - pose proof (MP3_HOST_PREFIX_nonempty env). by destruct (MP3_HOST_PREFIX env).
Qed.

Lemma container_to_host_app env x :
  containerToHostPath env (Some (CONTAINER_DATA_PREFIX ++ x)) = Some (MP3_HOST_PREFIX env ++ x).
Proof.
  unfold containerToHostPath. rewrite bool_decide_eq_false_2 by done.
  by rewrite starts_with_app, drop_length_app.
Qed.

Lemma speak_writes_output_path env now p : speak_writes (combined_output_path env now p).2 = [].
Proof.
  unfold combined_output_path.
  destruct (if falsy_path p then None else hostToContainerPath env p) as [q|];
    [case_bool_decide|]; reflexivity.
Qed.

Lemma NoDup_map_inj {A B} (f : A -> B) l :
  (forall x y, f x = f y -> x = y) -> List.NoDup l -> List.NoDup (map f l).
Proof.
  intros Hf. induction 1 as [|x l Hx Hl IH]; simpl; constructor; [|done].
  intros Hin. apply in_map_iff in Hin as (y & Hy & Hin).
  apply Hf in Hy. subst. done.
Qed.

(** X7 ([speak_mp3_combined]): the tool registers, under a fresh job id, a
    combine job with one part per section of the text (at least one),
    no part completed, and part-file cleanup on unless [cleanup_parts] is
    [false]; no other job changes. *)
Theorem speak_mp3_combined_registers_job env now st text voice speed mp3_path m cl :
  exists job,
    (speak_mp3_combined env now st text voice speed mp3_path m cl).1.1.(jobs) =
      <[uuid_of st.(uuid_seed) := job]> st.(jobs) /\
    job.(job_id) = uuid_of st.(uuid_seed) /\ job.(job_type) = js "combine" /\
    (1 <= length (splitTextIntoSections text (select_max_chars m)))%nat /\
    job.(totalParts) = Z.of_nat (length (splitTextIntoSections text (select_max_chars m))) /\
    job.(completedParts) = 0 /\
    length job.(partPaths) = length (splitTextIntoSections text (select_max_chars m)) /\
    job.(cleanupParts) = negb (bool_decide (cl = Some false)).
Proof.
  destruct (speak_mp3_combined_spec env now st text voice speed mp3_path m cl) as (Hj & _ & _).
  eexists. split; [exact Hj|]. simpl.
  pose proof (split_sections_nonnil text (select_max_chars m)).
  repeat split.
  - destruct (splitTextIntoSections text (select_max_chars m)); [done|simpl; lia].
  - by rewrite length_map, length_seq.
  - by destruct cl as [[]|].
Qed.

(** X8 ([speak_mp3_combined]): the speak payloads written to the
    processor are the sections of the text, in order, each carrying the job
    id, the selected voice and speed, [mp3: true], and as its file the part
    path of the same rank in the job. *)
Theorem speak_mp3_combined_queues_parts env now st text voice speed mp3_path m cl :
  exists job,
    (speak_mp3_combined env now st text voice speed mp3_path m cl).1.1.(jobs)
      !! uuid_of st.(uuid_seed) = Some job /\
    map it_text (speak_writes (speak_mp3_combined env now st text voice speed mp3_path m cl).1.2)
      = splitTextIntoSections text (select_max_chars m) /\
    map it_mp3_path
      (speak_writes (speak_mp3_combined env now st text voice speed mp3_path m cl).1.2)
      = map Some job.(partPaths) /\
    Forall (fun it => it.(it_jobId) = Some (uuid_of st.(uuid_seed)) /\
                      it.(it_voice) = select_voice st voice /\
                      it.(it_speed) = select_speed speed /\ it.(it_mp3) = true)
      (speak_writes (speak_mp3_combined env now st text voice speed mp3_path m cl).1.2).
Proof.
  destruct (speak_mp3_combined_spec env now st text voice speed mp3_path m cl)
    as (Hj & (e2 & He & Ht & Hp & Hf) & _).
  eexists. rewrite Hj, lookup_insert_eq. split; [done|].
  rewrite He, speak_writes_app, speak_writes_output_path. simpl. done.
Qed.

(** X9 ([speak_mp3_combined], [hostToContainerPath],
    [containerToHostPath]): for an output path given under the host prefix
    and ending in [.mp3] (in any case), the job writes to the same path under
    [/app/data], its parts are named after it with [-part-001.mp3],
    [-part-002.mp3], ..., and the answer names the path as given. *)
Theorem speak_mp3_combined_host_path env now st text voice speed m cl b s :
  mp3_suffix s = true ->
  (exists job,
    (speak_mp3_combined env now st text voice speed
       (Some (MP3_HOST_PREFIX env ++ b ++ s)) m cl).1.1.(jobs) !! uuid_of st.(uuid_seed)
      = Some job /\
    job.(outputPath) = CONTAINER_DATA_PREFIX ++ b ++ s /\
    job.(partPaths) = map (part_path (CONTAINER_DATA_PREFIX ++ b))
                        (seq 0 (length (splitTextIntoSections text (select_max_chars m))))) /\
  (speak_mp3_combined env now st text voice speed
     (Some (MP3_HOST_PREFIX env ++ b ++ s)) m cl).2 =
    js "MP3 combine job started (" ++ uuid_of st.(uuid_seed) ++ js "). "
      ++ js_of_Z (Z.of_nat (length (splitTextIntoSections text (select_max_chars m))))
      ++ js " section(s) queued. Output: " ++ (MP3_HOST_PREFIX env ++ b ++ s)
      ++ js ". Use get_job_status to track progress.".
Proof.
  intros Hs.
  assert (combined_output_path env now (Some (MP3_HOST_PREFIX env ++ b ++ s)) =
          (CONTAINER_DATA_PREFIX ++ b ++ s, [])) as Eo.
  { unfold combined_output_path, falsy_path.
    rewrite bool_decide_eq_false_2
      by (pose proof (MP3_HOST_PREFIX_nonempty env); by destruct (MP3_HOST_PREFIX env)).
    rewrite host_to_container_app. by rewrite bool_decide_eq_false_2. }
  destruct (speak_mp3_combined_spec env now st text voice speed
              (Some (MP3_HOST_PREFIX env ++ b ++ s)) m cl) as (Hj & _ & Hr).
  rewrite Eo in Hj, Hr. cbn [fst] in Hj, Hr.
  split.
  - eexists. rewrite Hj, lookup_insert_eq. split; [done|].
    cbn [outputPath partPaths]. split; [done|].
    by rewrite app_assoc, strip_mp3_suffix.
  - rewrite Hr, container_to_host_app. reflexivity.
Qed.

Lemma speak_mp3_combined_host_path_witness :
  mp3_suffix (js ".MP3") = true /\
  (speak_mp3_combined None (js "2026-01-01T00:00:00.000Z") init_state (js "Hi.") None None
     (Some (js "~/.tts" ++ js "/book" ++ js ".MP3")) None None).2 =
  js "MP3 combine job started (" ++ uuid_of 0 ++ js "). " ++ js "1"
    ++ js " section(s) queued. Output: " ++ js "~/.tts/book.MP3"
    ++ js ". Use get_job_status to track progress.".
Proof.
  split; [reflexivity|].
  change (js "~/.tts") with (MP3_HOST_PREFIX None).
  rewrite (proj2 (speak_mp3_combined_host_path None (js "2026-01-01T00:00:00.000Z")
                    init_state (js "Hi.") None None None None (js "/book") (js ".MP3")
                    eq_refl)).
  vm_compute. reflexivity.
Defined.

(** X10 ([speak_mp3_combined]): when no output path (or an empty one) is
    given, the directory [/app/data/mp3] is created first and the output is
    [/app/data/mp3/tts-combined-<timestamp>.mp3], with the parts beside it;
    the answer gives that path under the host prefix. *)
Theorem speak_mp3_combined_default_path env now st text voice speed mp3_path m cl :
  falsy_path mp3_path = true ->
  (exists job,
    (speak_mp3_combined env now st text voice speed mp3_path m cl).1.1.(jobs)
      !! uuid_of st.(uuid_seed) = Some job /\
    job.(outputPath) = js "/app/data/mp3/tts-combined-" ++ iso_to_filename now ++ js ".mp3" /\
    job.(partPaths) =
      map (part_path (js "/app/data/mp3/tts-combined-" ++ iso_to_filename now))
        (seq 0 (length (splitTextIntoSections text (select_max_chars m))))) /\
  head (speak_mp3_combined env now st text voice speed mp3_path m cl).1.2
    = Some (MkdirSync (js "/app/data/mp3")) /\
  (speak_mp3_combined env now st text voice speed mp3_path m cl).2 =
    js "MP3 combine job started (" ++ uuid_of st.(uuid_seed) ++ js "). "
      ++ js_of_Z (Z.of_nat (length (splitTextIntoSections text (select_max_chars m))))
      ++ js " section(s) queued. Output: "
      ++ (MP3_HOST_PREFIX env ++ js "/mp3/tts-combined-" ++ iso_to_filename now ++ js ".mp3")
      ++ js ". Use get_job_status to track progress.".
Proof.
  intros Hf.
  assert (combined_output_path env now mp3_path =
          (CONTAINER_DATA_PREFIX ++ (js "/mp3/tts-combined-" ++ iso_to_filename now ++ js ".mp3"),
           [MkdirSync (js "/app/data/mp3")])) as Eo.
  { unfold combined_output_path. rewrite Hf. reflexivity. }
  destruct (speak_mp3_combined_spec env now st text voice speed mp3_path m cl)
    as (Hj & (e2 & He & _) & Hr).
  rewrite Eo in Hj, He, Hr. cbn [fst snd] in Hj, He, Hr.
  split; [|split].
  - eexists. rewrite Hj, lookup_insert_eq. split; [done|].
    cbn [outputPath partPaths]. split; [done|].
    change (CONTAINER_DATA_PREFIX ++ js "/mp3/tts-combined-" ++ iso_to_filename now ++ js ".mp3")
      with (js "/app/data/mp3/tts-combined-" ++ iso_to_filename now ++ js ".mp3").
    by rewrite app_assoc, strip_mp3_suffix.
  - by rewrite He.
  - rewrite Hr, container_to_host_app. reflexivity.
Qed.

Lemma speak_mp3_combined_default_path_witness :
  falsy_path (Some []) = true /\
  head (speak_mp3_combined None (js "2026-01-01T00:00:00.000Z") init_state (js "Hi.")
          None None (Some []) None None).1.2 = Some (MkdirSync (js "/app/data/mp3")).
Proof.
  split; [reflexivity|].
  apply (proj1 (proj2 (speak_mp3_combined_default_path None (js "2026-01-01T00:00:00.000Z")
                         init_state (js "Hi.") None None (Some []) None None eq_refl))).
Defined.

(** X11 ([speak_mp3_combined]): the output path and the part paths of the
    registered job are pairwise distinct, so no part overwrites another part
    or the combined file. *)
Theorem speak_mp3_combined_paths_distinct env now st text voice speed mp3_path m cl :
  exists job,
    (speak_mp3_combined env now st text voice speed mp3_path m cl).1.1.(jobs)
      !! uuid_of st.(uuid_seed) = Some job /\
    List.NoDup (job.(outputPath) :: job.(partPaths)).
Proof.
  destruct (speak_mp3_combined_spec env now st text voice speed mp3_path m cl) as (Hj & _).
  eexists. rewrite Hj, lookup_insert_eq. split; [done|]. simpl.
  constructor.
  - intros Hin. apply in_map_iff in Hin as (k & Hk & _).
    pose proof (part_path_length (strip_mp3 (combined_output_path env now mp3_path).1) k).
    pose proof (strip_mp3_length (combined_output_path env now mp3_path).1).
    rewrite Hk in *. lia.
  - apply NoDup_map_inj; [apply part_path_inj|apply seq_NoDup].
Qed.

(** X12 ([speak_mp3_combined] then the stdout handler): over any run of
    processor output after the tool, the number of [combine_mp3] commands
    sent for the new job is max(0, k - N + 1), where N is the number of
    sections and k the number of [mp3_complete] lines for the job: none
    before every part is reported, one when each part is reported once. *)
Theorem speak_mp3_combined_then_complete env now st text voice speed mp3_path m cl lines :
  jobs_wf st ->
  Z.of_nat (count_combine (uuid_of st.(uuid_seed))
    (process_lines (speak_mp3_combined env now st text voice speed mp3_path m cl).1.1
       lines).2) =
  Z.max 0 (Z.of_nat (count_completing (uuid_of st.(uuid_seed)) lines)
           - Z.of_nat (length (splitTextIntoSections text (select_max_chars m))) + 1).
Proof.
  intros Hwf.
  destruct (speak_mp3_combined_spec env now st text voice speed mp3_path m cl) as (Hj & _).
  pose proof (split_sections_nonnil text (select_max_chars m)) as Hne.
  match type of Hj with _ = <[?k := ?jb]> _ =>
    rewrite (process_lines_combine _ lines k jb) end.
  - simpl. destruct (splitTextIntoSections text (select_max_chars m)); [done|].
    simpl length. lia.
  - unfold jobs_wf. rewrite Hj. by apply map_Forall_insert_2.
  - by rewrite Hj, lookup_insert_eq.
  - reflexivity.
Qed.

Lemma speak_mp3_combined_then_complete_witness :
  Z.of_nat (count_combine (uuid_of 65)
    (process_lines (speak_mp3_combined None (js "2026-01-01T00:00:00.000Z")
                      (set_seed init_state 65) (js "One. Two. Three.") None None None
                      (Some 6%Q) None).1.1
       (repeat (mp3_complete_for (uuid_of 65)) 3)).2) = 1.
Proof.
  refine (eq_trans (speak_mp3_combined_then_complete None (js "2026-01-01T00:00:00.000Z")
             (set_seed init_state 65) (js "One. Two. Three.") None None None (Some 6%Q) None
             (repeat (mp3_complete_for (uuid_of 65)) 3) _) _).
  - apply map_Forall_empty.
  - vm_compute. reflexivity.
Defined.

(* ------------------------------------------------------------------ *)
(** ** Facts about the tools of the reverse client *)

Lemma after_last_nl_suffix run r : after_last_nl run = Some r -> exists p, run = p ++ r.
Proof.
  revert r. induction run as [|c t IH]; intros r H; simpl in H; [done|].
  destruct (after_last_nl t) as [r'|] eqn:E.
  - injection H as <-. destruct (IH r' eq_refl) as [p ->]. by exists (c :: p).
  - destruct (c =? 10); [|done]. injection H as <-. by exists [c].
Qed.

Lemma para_sep_rest_ws t rest :
  para_sep_rest t = Some rest ->
  exists w, t = w ++ rest /\ forallb is_ws w = true.
Proof.
  unfold para_sep_rest. destruct (ws_span t) as [run rest0] eqn:Et.
  destruct (after_last_nl run) as [r|] eqn:Ea; [|done]. intros [= <-].
  apply ws_span_spec in Et as [-> Hrun].
  destruct (after_last_nl_suffix run r Ea) as [p ->].
  exists p. rewrite <- app_assoc. split; [done|].
  rewrite forallb_app in Hrun. by apply andb_prop in Hrun as [-> _].
Qed.

Lemma split_para_content fuel l cur_rev :
  has_content cur_rev || has_content l = true ->
  exists s, In s (split_para_aux fuel l cur_rev) /\ has_content s = true.
Proof.
  revert l cur_rev. induction fuel as [|f IH]; intros l cur_rev H.
  - exists (rev' cur_rev ++ l). split; [by left|]. unfold rev'. rewrite <- rev_alt.
    rewrite has_content_app. unfold has_content at 1. by rewrite forallb_rev.
  - destruct l as [|c t]; simpl.
    + exists (rev' cur_rev). split; [by left|]. unfold rev'. rewrite <- rev_alt.
      unfold has_content. rewrite forallb_rev. by rewrite orb_false_r in H.
    + destruct (if c =? 10 then para_sep_rest t else None) as [rest|] eqn:Ec.
      * destruct (has_content cur_rev) eqn:Hc.
        -- exists (rev' cur_rev). split; [by left|]. unfold rev'. rewrite <- rev_alt.
           unfold has_content. by rewrite forallb_rev.
        -- destruct (c =? 10) eqn:E10; [|done]. apply Z.eqb_eq in E10 as ->.
           apply para_sep_rest_ws in Ec as (w & -> & Hw).
           simpl in H. unfold has_content in H. simpl in H.
           rewrite forallb_app, Hw in H. simpl in H.
           destruct (IH rest [] H) as (s & Hs & Hcs). exists s. split; [by right|done].
      * apply IH. unfold has_content in *. simpl in *.
        destruct (is_ws c), (forallb is_ws cur_rev), (forallb is_ws t); simpl in *; done.
Qed.

Lemma split_para_ws fuel l cur_rev :
  forallb is_ws cur_rev = true -> forallb is_ws l = true ->
  Forall (fun p => forallb is_ws p = true) (split_para_aux fuel l cur_rev).
Proof.
  revert l cur_rev. induction fuel as [|f IH]; intros l cur_rev Hc Hl.
  - constructor; [|done]. unfold rev'. rewrite <- rev_alt, forallb_app, forallb_rev, Hc, Hl.
    done.
  - destruct l as [|c t]; simpl.
    + constructor; [|done]. unfold rev'. by rewrite <- rev_alt, forallb_rev.
    + simpl in Hl. apply andb_prop in Hl as [Hc' Ht].
      destruct (if c =? 10 then para_sep_rest t else None) as [rest|] eqn:Ec.
      * constructor.
        -- unfold rev'. by rewrite <- rev_alt, forallb_rev.
        -- destruct (c =? 10); [|done].
           apply para_sep_rest_ws in Ec as (w & -> & _).
           rewrite forallb_app in Ht. apply andb_prop in Ht as [_ Hr]. by apply IH.
      * apply IH; [simpl; by rewrite Hc', Hc|done].
Qed.

Lemma narrate_paragraphs_nonnil t : has_content t = true -> narrate_paragraphs t <> [].
Proof.
  intros H.
  destruct (split_para_content (S (length t)) t [] H) as (s & Hs & Hcs).
  assert (Hin : In (trim s) (narrate_paragraphs t)).
  { unfold narrate_paragraphs. apply filter_In. split.
    - apply in_map. exact Hs.
    - apply negb_true_iff, bool_decide_eq_false_2. by apply has_content_trim. }
  by destruct (narrate_paragraphs t).
Qed.

Lemma narrate_paragraphs_trimmed t :
  Forall (fun p => p <> [] /\ trim p = p) (narrate_paragraphs t).
Proof.
  apply List.Forall_forall. intros p Hp. unfold narrate_paragraphs in Hp.
  apply filter_In in Hp as [Hp Hne]. apply negb_true_iff, bool_decide_eq_false in Hne.
  apply in_map_iff in Hp as (q & <- & _). split; [done|]. apply trim_trim.
Qed.

Lemma narrate_paragraphs_blank t : forallb is_ws t = true -> narrate_paragraphs t = [].
Proof.
  intros H. pose proof (split_para_ws (S (length t)) t [] eq_refl H) as Hf.
  unfold narrate_paragraphs, split_paragraphs.
  induction Hf as [|p ps Hp _ IH]; [done|]. simpl.
  rewrite (proj2 (trim_nil p) Hp). exact IH.
Qed.

Lemma insert_all_history_only st st' items :
  st.(history) = st'.(history) ->
  (insert_all st items).(history) = (insert_all st' items).(history).
Proof.
  revert st st'. induction items as [|x xs IH]; intros st st' H; [done|].
  apply IH. unfold addToHistory. simpl. by rewrite H.
Qed.

Lemma narrate_loop_spec env now st voice speed ps :
  map it_text (speak_writes (narrate_loop env now st voice speed ps).1.2) = ps /\
  Forall (fun it => it.(it_voice) = select_voice st voice /\
                    it.(it_speed) = select_speed speed /\
                    it.(it_mp3) = false /\ it.(it_mp3_path) = None)
    (speak_writes (narrate_loop env now st voice speed ps).1.2) /\
  (narrate_loop env now st voice speed ps).1.1.(default_voice) = st.(default_voice) /\
  (narrate_loop env now st voice speed ps).1.1.(history) =
    (insert_all st (map (fun it => with_timestamp it now)
                      (speak_writes (narrate_loop env now st voice speed ps).1.2))).(history) /\
  length (narrate_loop env now st voice speed ps).2 = length ps.
Proof.
  revert st. induction ps as [|p ps IH]; intros st; [done|].
  simpl.
  match goal with |- context [narrate_loop env now ?s voice speed ps] =>
    destruct (IH s) as (H1 & H2 & H3 & H4 & H5);
    destruct (narrate_loop env now s voice speed ps) as [[st3 e4] res] end.
  simpl in *. repeat split.
  - by rewrite H1.
  - constructor; [done|]. exact H2.
  - exact H3.
  - rewrite H4. apply insert_all_history_only. reflexivity.
  - by rewrite H5.
Qed.

Lemma length_history_views i items : length (history_views i items) = length items.
Proof. revert i. induction items as [|x xs IH]; intros i; simpl; [done|by rewrite IH]. Qed.

Lemma history_views_ids i items : map hv_id (history_views i items) = map it_id items.
Proof. revert i. induction items as [|x xs IH]; intros i; simpl; [done|by rewrite IH]. Qed.

Lemma history_views_index i items :
  map hv_index (history_views i items) = map (fun k => Z.of_nat k + 1) (seq i (length items)).
Proof. revert i. induction items as [|x xs IH]; intros i; simpl; [done|by rewrite IH]. Qed.

Lemma history_views_cut i items :
  map hv_text (history_views i items) =
    map (fun it => take 100 it.(it_text) ++
                   (if 100 <? Z.of_nat (length it.(it_text)) then js "..." else []))
        items.
Proof. revert i. induction items as [|x xs IH]; intros i; simpl; [done|by rewrite IH]. Qed.

Lemma history_views_text i items :
  Forall (fun v => (length v.(hv_text) <= 103)%nat) (history_views i items).
Proof.
  revert i. induction items as [|x xs IH]; intros i; simpl; [constructor|].
  constructor; [|apply IH].
  cbn [hv_text]. rewrite length_app, length_take.
  pose proof (Nat.le_min_l 100 (length (it_text x))).
  destruct (100 <? Z.of_nat (length (it_text x))); cbn [length]; [|lia].
  assert (length (js "...") = 3%nat) as -> by reflexivity. lia.
Qed.

Lemma history_limit_bounds limit : 1 <= Qfloor (history_limit limit) <= 50.
Proof.
  unfold history_limit. split.
  - change 1%Z with (Qfloor 1). apply Qfloor_resp_le.
    apply Q.min_glb; [apply Q.le_max_l|]. unfold Qle. simpl. lia.
  - change 50%Z with (Qfloor 50). apply Qfloor_resp_le. apply Q.le_min_r.
Qed.

Lemma take_length_take {A} n (l : list A) : take (length (take n l)) l = take n l.
Proof.
  rewrite length_take. destruct (Nat.le_ge_cases n (length l)).
  - by rewrite Nat.min_l.
  - rewrite Nat.min_r by done. rewrite firstn_all, take_ge; done.
Qed.

Lemma speak_writes_resolve env now mp3 p : speak_writes (resolve_mp3_path env now mp3 p).2 = [].
Proof.
  unfold resolve_mp3_path.
  destruct (mp3 && falsy_path (if falsy_path p then None else hostToContainerPath env p));
    reflexivity.
Qed.

Lemma voices_nonempty : Forall (fun k => k.(v_id) <> []) AVAILABLE_VOICES.
Proof. repeat constructor; intros H; discriminate H. Qed.

Lemma find_voice_some v known :
  find (fun k => bool_decide (k.(v_id) = v)) AVAILABLE_VOICES = Some known ->
  known.(v_id) = v /\ v <> [].
Proof.
  intros H. apply find_some in H as [Hin Hv]. apply bool_decide_eq_true in Hv.
  split; [done|]. subst v. by apply (proj1 (List.Forall_forall _ _) voices_nonempty).
Qed.

Lemma find_voice_none v :
  ~ In v (map v_id AVAILABLE_VOICES) ->
  find (fun k => bool_decide (k.(v_id) = v)) AVAILABLE_VOICES = None.
Proof.
  intros H. destruct (find _ AVAILABLE_VOICES) as [k|] eqn:E; [|done].
  apply find_some in E as [Hin Hv]. apply bool_decide_eq_true in Hv.
  exfalso. apply H. rewrite <- Hv. by apply in_map.
Qed.

(** X13 ([narrate_document]): for a text with a non-whitespace character,
    there is at least one paragraph; each paragraph is trimmed and non-empty;
    one speak payload per paragraph is written to the processor, in order,
    with the selected voice and speed and no MP3; and every payload is
    recorded in the history, newest first, keeping the 50 latest entries. *)
Theorem narrate_document_queues env now st t voice speed :
  (length st.(history) <= 50)%nat ->
  has_content t = true ->
  narrate_paragraphs t <> [] /\
  Forall (fun p => p <> [] /\ trim p = p) (narrate_paragraphs t) /\
  map it_text (speak_writes (narrate_document env now st (Some (JStr t)) voice speed).1.2)
    = narrate_paragraphs t /\
  Forall (fun it => it.(it_voice) = select_voice st voice /\
                    it.(it_speed) = select_speed speed /\
                    it.(it_mp3) = false /\ it.(it_mp3_path) = None)
    (speak_writes (narrate_document env now st (Some (JStr t)) voice speed).1.2) /\
  (narrate_document env now st (Some (JStr t)) voice speed).1.1.(history) =
    take 50 (rev (map (fun it => with_timestamp it now)
                   (speak_writes (narrate_document env now st (Some (JStr t)) voice speed).1.2))
             ++ st.(history)).
Proof.
  intros Hl Hc.
  pose proof (narrate_paragraphs_nonnil t Hc) as Hne.
  pose proof (narrate_paragraphs_trimmed t) as Htr.
  assert (Ht : t <> []) by (intros ->; discriminate Hc).
  unfold narrate_document. rewrite bool_decide_eq_false_2 by done.
  destruct (narrate_paragraphs t) as [|p ps] eqn:Ep; [done|].
  destruct (narrate_loop_spec env now st voice speed (p :: ps)) as (H1 & H2 & _ & H4 & _).
  destruct (narrate_loop env now st voice speed (p :: ps)) as [[st1 effs] res].
  simpl in *. repeat split; try done.
  rewrite H4. by apply insert_all_history.
Qed.

Lemma narrate_document_queues_witness :
  ((length init_state.(history) <= 50)%nat /\ has_content (js "First.") = true) /\
  map it_text
    (speak_writes (narrate_document None (js "2026-01-01T00:00:00.000Z") init_state
                     (Some (JStr (js "First."))) None None).1.2)
    = narrate_paragraphs (js "First.").
Proof.
  split; [split; [simpl; lia|reflexivity]|].
  exact (proj1 (proj2 (proj2 (narrate_document_queues None (js "2026-01-01T00:00:00.000Z")
    init_state (js "First.") None None (le_0_n 50) eq_refl)))).
Defined.

(** X14 ([narrate_document]): a non-empty text made only of whitespace
    has no paragraph: the tool answers "No paragraphs found in the provided
    text." and writes nothing, leaving the state (history included) as it
    was. *)
Theorem narrate_document_blank env now st t voice speed :
  t <> [] -> forallb is_ws t = true ->
  narrate_document env now st (Some (JStr t)) voice speed =
    (st, [], js "No paragraphs found in the provided text.").
Proof.
  intros Ht Hw. unfold narrate_document. rewrite bool_decide_eq_false_2 by done.
  by rewrite narrate_paragraphs_blank.
Qed.

Lemma narrate_document_blank_witness :
  ((([32; 10; 10; 32; 32] : jsstr) <> []) /\ forallb is_ws ([32; 10; 10; 32; 32]) = true) /\
  narrate_document None (js "2026-01-01T00:00:00.000Z") init_state
    (Some (JStr ([32; 10; 10; 32; 32]))) None None =
    (init_state, [], js "No paragraphs found in the provided text.").
Proof.
  assert (H1 : ([32; 10; 10; 32; 32] : jsstr) <> []) by discriminate.
  assert (H2 : forallb is_ws ([32; 10; 10; 32; 32]) = true) by reflexivity.
  split; [split; assumption|].
  exact (narrate_document_blank None (js "2026-01-01T00:00:00.000Z") init_state
           ([32; 10; 10; 32; 32]) None None H1 H2).
Defined.

(** X15 ([get_history]): the tool lists the first entries of the history,
    newest first, numbered from 1: at most 50 of them, at least one when the
    history is not empty, 10 (or all, if fewer) when no limit or a limit of
    0 is given; each text is its entry's first 100 characters, followed by
    "..." exactly when the entry's text is longer than that. *)
Theorem get_history_window st limit :
  (get_history st limit <> [] <-> st.(history) <> []) /\
  (length (get_history st limit) <= 50)%nat /\
  map hv_id (get_history st limit) =
    map it_id (take (length (get_history st limit)) st.(history)) /\
  map hv_index (get_history st limit) =
    map (fun k => Z.of_nat k + 1) (seq 0 (length (get_history st limit))) /\
  map hv_text (get_history st limit) =
    map (fun it => take 100 it.(it_text) ++
                   (if 100 <? Z.of_nat (length it.(it_text)) then js "..." else []))
        (take (length (get_history st limit)) st.(history)) /\
  Forall (fun v => (length v.(hv_text) <= 103)%nat) (get_history st limit) /\
  length (get_history st None) = Nat.min 10 (length st.(history)) /\
  get_history st (Some 0%Q) = get_history st None.
Proof.
  pose proof (history_limit_bounds limit) as [Hlo Hhi].
  unfold get_history.
  split; [|split; [|split; [|split; [|split; [|split; [|split]]]]]].
  - split; intros H E.
    + apply H. by rewrite E, take_nil.
    + apply (f_equal length) in E. rewrite length_history_views, length_take in E.
      destruct st.(history); [done|]. simpl in E. lia.
  - rewrite length_history_views, length_take. lia.
  - by rewrite history_views_ids, length_history_views, take_length_take.
  - by rewrite history_views_index, length_history_views.
  - by rewrite history_views_cut, length_history_views, take_length_take.
  - apply history_views_text.
  - rewrite length_history_views, length_take. reflexivity.
  - reflexivity.
Qed.

(** X16 ([clear_history], then [POST /api/replay] or [get_history]): after
    [clear_history] the history is empty and nothing else of the state
    changes (status, current text and voice, default voice, jobs and the
    identifier generator are as before); a replay of any id then answers 404
    and does nothing, and [get_history] lists nothing. *)
Theorem clear_history_then_replay st now id limit :
  (clear_history st).1 =
    mkState st.(status) st.(current_text) st.(current_voice) st.(default_voice)
      [] st.(jobs) st.(uuid_seed) /\
  api_replay now (clear_history st).1 id = ((clear_history st).1, [], 404) /\
  get_history (clear_history st).1 limit = [].
Proof.
  repeat split.
  unfold get_history. simpl. by rewrite take_nil.
Qed.

(** X17 ([preview_voice]): for a known voice id, the tool writes exactly
    one speak payload, in that voice, at speed 1, without MP3, records it at
    the head of the history, and leaves the default voice unchanged. *)
Theorem preview_voice_known env now st v known sample :
  find (fun k => bool_decide (k.(v_id) = v)) AVAILABLE_VOICES = Some known ->
  exists it,
    speak_writes (preview_voice env now st (Some (JStr v)) sample).1.2 = [it] /\
    it.(it_voice) = v /\ it.(it_speed) = 1%Q /\ it.(it_mp3) = false /\
    (preview_voice env now st (Some (JStr v)) sample).1.1.(default_voice) = st.(default_voice) /\
    head (preview_voice env now st (Some (JStr v)) sample).1.1.(history)
      = Some (with_timestamp it now).
Proof.
  intros Hf. destruct (find_voice_some v known Hf) as [_ Hv].
  unfold preview_voice. rewrite bool_decide_eq_false_2 by done. rewrite Hf.
  unfold buildSpeakPayload, uuidv4, resolve_mp3_path. simpl.
  eexists. repeat split.
  - simpl. by rewrite bool_decide_eq_false_2.
  - destruct (history st) as [|h t]; [reflexivity|].
    destruct (50 <? _); reflexivity.
Qed.

Lemma preview_voice_known_witness :
  find (fun k => bool_decide (k.(v_id) = js "bf_emma")) AVAILABLE_VOICES
    = Some (mkVoice (js "bf_emma") (js "Emma") (js "female") (js "british")
              (js "Elegant British female voice")) /\
  exists it,
    speak_writes (preview_voice None (js "2026-01-01T00:00:00.000Z") init_state
                    (Some (JStr (js "bf_emma"))) None).1.2 = [it] /\
    it.(it_voice) = js "bf_emma".
Proof.
  assert (Hf : find (fun k => bool_decide (k.(v_id) = js "bf_emma")) AVAILABLE_VOICES
    = Some (mkVoice (js "bf_emma") (js "Emma") (js "female") (js "british")
              (js "Elegant British female voice"))) by reflexivity.
  split; [exact Hf|].
  destruct (preview_voice_known None (js "2026-01-01T00:00:00.000Z") init_state
              (js "bf_emma") _ None Hf) as (it & H1 & H2 & _).
  exists it. split; assumption.
Defined.

(** X18 ([preview_voice]): when the voice is missing, not a string, or not
    the id of an available voice, the tool writes nothing and changes no
    state. *)
Theorem preview_voice_unknown_inert env now st voice sample :
  (forall v, voice = Some (JStr v) -> ~ In v (map v_id AVAILABLE_VOICES)) ->
  (preview_voice env now st voice sample).1 = (st, []).
Proof.
  intros H. unfold preview_voice.
  destruct voice as [[| | |v| |]|]; try reflexivity.
  case_bool_decide; [reflexivity|].
  by rewrite find_voice_none by (apply H; reflexivity).
Qed.

Lemma preview_voice_unknown_inert_witness :
  (forall v, Some (JStr (js "xx_nobody")) = Some (JStr v) -> ~ In v (map v_id AVAILABLE_VOICES)) /\
  (preview_voice None (js "2026-01-01T00:00:00.000Z") init_state
     (Some (JStr (js "xx_nobody"))) None).1 = (init_state, []).
Proof.
  assert (H : forall v, Some (JStr (js "xx_nobody")) = Some (JStr v) ->
                        ~ In v (map v_id AVAILABLE_VOICES)).
  { intros v [= <-] Hin. simpl in Hin.
    repeat (destruct Hin as [Hin|Hin]; [discriminate Hin|]). exact Hin. }
  split; [exact H|].
  exact (preview_voice_unknown_inert None (js "2026-01-01T00:00:00.000Z") init_state
           (Some (JStr (js "xx_nobody"))) None H).
Defined.

(** X19 ([POST /api/control] with [set_voice], then [speakToolHandler]):
    the endpoint stores any string as the default voice, without checking it
    against the available voices (unlike [set_default_voice]), broadcasts the
    status, and a later speak request without a voice is sent in it. *)
Theorem api_control_set_voice_unchecked st pb v index env now text speed mp3 mp3_path ann :
  exists st',
    api_control st pb (Some (JStr (js "set_voice"))) (Some (JStr v)) index
      = Some (st', pb, [Base BroadcastStatus]) /\
    st'.(default_voice) = v /\ st'.(history) = st.(history) /\ st'.(jobs) = st.(jobs) /\
    map it_voice (speak_writes (speakToolHandler env now st' text None speed mp3 mp3_path ann).1.2)
      = [v].
Proof.
  eexists. split; [reflexivity|]. repeat split.
  unfold speakToolHandler, uuidv4.
  pose proof (speak_writes_resolve env now mp3 mp3_path) as Hr.
  destruct (resolve_mp3_path env now mp3 mp3_path) as [r e1]. simpl in Hr.
  unfold addToHistory. simpl. rewrite !speak_writes_app, Hr. reflexivity.
Qed.

(** X20 ([POST /api/control], other commands): apart from [set_voice],
    the endpoint never changes the server state nor the playback index; it
    changes the playback flags only for [pause], [resume] and [stop]; and
    every control line it writes carries the requested command. *)
Theorem api_control_other_commands st pb command voice index :
  is_str command "set_voice" = false ->
  exists pb' effs,
    api_control st pb command voice index = Some (st, pb', effs) /\
    pb'.(currentIndex) = pb.(currentIndex) /\
    (pb' = pb \/ exists c, command = Some (JStr c) /\
                  In c (map js ["pause"; "resume"; "stop"]%string)) /\
    Forall (fun e => e = Base BroadcastStatus \/
                     exists c ps, e = WriteControl c ps /\ command = Some (JStr c)) effs.
Proof.
  intros Hs. unfold api_control. rewrite Hs.
  destruct command as [[| | |c| |]|];
    try (do 2 eexists; split; [reflexivity|]; split; [done|]; split; [by left|]; apply List.Forall_nil).
  case_bool_decide as Hp.
  - do 2 eexists. split; [reflexivity|].
    split; [by repeat case_bool_decide|].
    split.
    + destruct (decide (c = js "pause")) as [->|N1];
        [right; eexists; split; [done|]; by left|].
      destruct (decide (c = js "resume")) as [->|N2];
        [right; eexists; split; [done|]; right; by left|].
      destruct (decide (c = js "stop")) as [->|N3];
        [right; eexists; split; [done|]; right; right; by left|].
      left. rewrite !bool_decide_eq_false_2 by done. by destruct pb.
    + constructor; [right; by exists c, []|]. constructor; [by left|]. constructor.
  - case_bool_decide.
    + destruct index as [[| |q| | |]|];
        try (do 2 eexists; split; [reflexivity|]; split; [done|]; split; [by left|]; apply List.Forall_nil).
      do 2 eexists. split; [reflexivity|]. split; [done|]. split; [by left|].
      constructor; [|constructor]. right. by exists c, [(js "index", JNum q)].
    + do 2 eexists. split; [reflexivity|]. split; [done|]. split; [by left|]. constructor.
Qed.

Lemma api_control_other_commands_witness :
  is_str (Some (JStr (js "start_at"))) "set_voice" = false /\
  exists pb' effs,
    api_control init_state (mkPlayback false JNull 0) (Some (JStr (js "start_at"))) None
      (Some (JNum 3)) = Some (init_state, pb', effs) /\
    pb'.(currentIndex) = 0.
Proof.
  assert (H : is_str (Some (JStr (js "start_at"))) "set_voice" = false) by reflexivity.
  split; [exact H|].
  destruct (api_control_other_commands init_state (mkPlayback false JNull 0)
              (Some (JStr (js "start_at"))) None (Some (JNum 3)) H)
    as (pb' & effs & E & Hi & _).
  exists pb', effs. split; assumption.
Defined.

Lemma head_addToHistory st x : head (addToHistory st x).1.(history) = Some x.
Proof.
  unfold addToHistory. simpl. destruct (history st) as [|h t]; [reflexivity|].
  destruct (50 <? _); reflexivity.
Qed.

Lemma addToHistory_cons st x : exists rest, (addToHistory st x).1.(history) = x :: rest.
Proof.
  pose proof (head_addToHistory st x) as H.
  destruct ((addToHistory st x).1.(history)) as [|y rest]; [done|].
  injection H as ->. by exists rest.
Qed.

Lemma container_to_host_some env p :
  containerToHostPath env (Some p) = Some (host_output_path env p).
Proof.
  unfold host_output_path, containerToHostPath.
  destruct (bool_decide (p = [])); [reflexivity|].
  destruct (starts_with p CONTAINER_DATA_PREFIX); reflexivity.
Qed.

(** X21 ([POST /api/speak], then [POST /api/replay]): a request with a
    non-empty text is accepted with status 200 and an id; exactly one
    payload, carrying that id and the text, is written to the processor;
    and a replay of the returned id is accepted and writes a copy with the
    same text, voice, speed and MP3 path under a new id. *)
Theorem api_speak_then_replay env now now' st t voice speed mp3 mp3_path ann :
  t <> [] ->
  exists id st' effs p,
    api_speak env now st (Some t) voice speed mp3 mp3_path ann = (st', effs, (200, Some id)) /\
    speak_writes effs = [p] /\ p.(it_id) = id /\ p.(it_text) = t /\
    (api_replay now' st' (Some (JStr id))).2 = 200 /\
    exists p', speak_writes (api_replay now' st' (Some (JStr id))).1.2 = [p'] /\
      p'.(it_text) = t /\ p'.(it_voice) = p.(it_voice) /\ p'.(it_speed) = p.(it_speed) /\
      p'.(it_mp3_path) = p.(it_mp3_path) /\ p'.(it_id) <> id.
Proof.
  intros Ht. unfold api_speak. rewrite bool_decide_eq_false_2 by done.
  unfold uuidv4. cbn beta iota zeta.
  pose proof (speak_writes_resolve env now mp3 mp3_path) as Hr.
  destruct (resolve_mp3_path env now mp3 mp3_path) as [res e1]. cbn [snd] in Hr.
  set (payload := mkItem (uuid_of st.(uuid_seed)) None t
                    (select_voice (set_seed st (S st.(uuid_seed))) voice) (select_speed speed)
                    mp3 res ann None).
  destruct (addToHistory_cons (set_seed st (S st.(uuid_seed))) (with_timestamp payload now))
    as [rest Hh].
  destruct (addToHistory (set_seed st (S st.(uuid_seed))) (with_timestamp payload now))
    as [st2 e2] eqn:Ea.
  assert (e2 = [BroadcastHistory]) as -> by (unfold addToHistory in Ea; by injection Ea).
  cbn [fst] in Hh.
  do 4 eexists. split; [reflexivity|].
  split; [by rewrite speak_writes_app, Hr|]. split; [done|]. split; [done|].
  assert (Hf : find (id_matches (Some (JStr (uuid_of st.(uuid_seed))))) st2.(history)
               = Some (with_timestamp payload now)).
  { rewrite Hh. simpl. by rewrite bool_decide_eq_true_2. }
  unfold api_replay. rewrite Hf. unfold uuidv4. cbn beta iota zeta.
  split; [by destruct (addToHistory _ _)|].
  eexists. split.
  - simpl. reflexivity.
  - simpl. repeat split. intros E. apply uuid_of_inj in E.
    unfold addToHistory in Ea. injection Ea as <-. simpl in E. lia.
Qed.

Lemma api_speak_then_replay_witness :
  js "Hi" <> [] /\
  exists id st' effs p,
    api_speak None (js "2026-01-01T00:00:00.000Z") init_state (Some (js "Hi")) None None
      false None false = (st', effs, (200, Some id)) /\
    speak_writes effs = [p] /\ p.(it_id) = id /\ p.(it_text) = js "Hi" /\
    (api_replay (js "2026-01-02T00:00:00.000Z") st' (Some (JStr id))).2 = 200.
Proof.
  assert (H : js "Hi" <> []) by discriminate.
  split; [exact H|].
  destruct (api_speak_then_replay None (js "2026-01-01T00:00:00.000Z")
              (js "2026-01-02T00:00:00.000Z") init_state (js "Hi") None None false None false H)
    as (id & st' & effs & p & E & Hw & Hi & Ht & Hc & _).
  exists id, st', effs, p. repeat split; assumption.
Defined.

(** X22 ([speakToolHandler]): with [mp3] set and a path under the host
    prefix, the payload written to the processor carries the same path
    under [/app/data], and the answer names the path as given; with [mp3]
    set and no path (or an empty one), the directory [/app/data/mp3] is
    created first, the payload carries [/app/data/mp3/tts-<timestamp>.mp3],
    and the answer gives that file under the host prefix. *)
Theorem speak_tool_mp3_paths env now st text voice speed x p ann :
  falsy_path p = true ->
  (exists it,
     speak_writes (speakToolHandler env now st text voice speed true
                     (Some (MP3_HOST_PREFIX env ++ x)) ann).1.2 = [it] /\
     it.(it_mp3) = true /\ it.(it_mp3_path) = Some (CONTAINER_DATA_PREFIX ++ x)) /\
  (speakToolHandler env now st text voice speed true (Some (MP3_HOST_PREFIX env ++ x)) ann).2
    = (js "MP3 will be saved to " ++ MP3_HOST_PREFIX env ++ x, false) /\
  (exists it,
     speak_writes (speakToolHandler env now st text voice speed true p ann).1.2 = [it] /\
     it.(it_mp3) = true /\
     it.(it_mp3_path) = Some (js "/app/data/mp3/tts-" ++ iso_to_filename now ++ js ".mp3")) /\
  head (speakToolHandler env now st text voice speed true p ann).1.2
    = Some (MkdirSync (js "/app/data/mp3")) /\
  (speakToolHandler env now st text voice speed true p ann).2
    = (js "MP3 will be saved to " ++ MP3_HOST_PREFIX env ++ js "/mp3/tts-"
         ++ iso_to_filename now ++ js ".mp3", false).
Proof.
  intros Hp.
  assert (E1 : resolve_mp3_path env now true (Some (MP3_HOST_PREFIX env ++ x)) =
               (Some (CONTAINER_DATA_PREFIX ++ x), [])).
  { unfold resolve_mp3_path, falsy_path.
    rewrite bool_decide_eq_false_2
      by (pose proof (MP3_HOST_PREFIX_nonempty env); by destruct (MP3_HOST_PREFIX env)).
    rewrite host_to_container_app. cbn [andb negb].
    by rewrite bool_decide_eq_false_2. }
  assert (E2 : resolve_mp3_path env now true p =
               (Some (CONTAINER_DATA_PREFIX ++ js "/mp3/tts-" ++ iso_to_filename now ++ js ".mp3"),
                [MkdirSync (js "/app/data/mp3")])).
  { unfold resolve_mp3_path. rewrite Hp. reflexivity. }
  unfold speakToolHandler, uuidv4. cbn beta iota zeta.
  rewrite E1, E2. cbn beta iota zeta.
  rewrite !container_to_host_app.
  split; [|split; [|split; [|split]]].
  - eexists. split; [reflexivity|]. split; reflexivity.
  - reflexivity.
  - eexists. split; [reflexivity|]. split; reflexivity.
  - reflexivity.
  - reflexivity.
Qed.

Lemma speak_tool_mp3_paths_witness :
  falsy_path None = true /\
  head (speakToolHandler None (js "2026-01-01T00:00:00.000Z") init_state (js "Hi") None None
          true None false).1.2 = Some (MkdirSync (js "/app/data/mp3")).
Proof.
  split; [reflexivity|].
  exact (proj1 (proj2 (proj2 (proj2 (speak_tool_mp3_paths None (js "2026-01-01T00:00:00.000Z")
           init_state (js "Hi") None None [] None false eq_refl))))).
Defined.

(** X23 ([speak_mp3_combined], then [get_job_status] of the MCP server
    or of the reverse client): asked for the id of the job just started,
    both tools report the same combine job, and its output path is the path
    named in the answer of [speak_mp3_combined]. *)
Theorem combined_job_status_matches_reply env now st text voice speed mp3_path m cl :
  exists j,
    mcp_get_job_status env (speak_mp3_combined env now st text voice speed mp3_path m cl).1.1
      (Some (uuid_of st.(uuid_seed))) = JobDetail j /\
    rc_get_job_status env (speak_mp3_combined env now st text voice speed mp3_path m cl).1.1
      (Some (uuid_of st.(uuid_seed))) = JobDetail j /\
    j.(job_id) = uuid_of st.(uuid_seed) /\ j.(job_type) = js "combine" /\
    (speak_mp3_combined env now st text voice speed mp3_path m cl).2 =
      js "MP3 combine job started (" ++ uuid_of st.(uuid_seed) ++ js "). "
        ++ js_of_Z (Z.of_nat (length (splitTextIntoSections text (select_max_chars m))))
        ++ js " section(s) queued. Output: " ++ j.(outputPath)
        ++ js ". Use get_job_status to track progress.".
Proof.
  destruct (speak_mp3_combined_spec env now st text voice speed mp3_path m cl)
    as (Hj & _ & Hr).
  eexists. split; [|split; [|split; [|split]]].
  - unfold mcp_get_job_status. rewrite bool_decide_eq_false_2 by apply uuid_of_nonempty.
    rewrite Hj, lookup_insert_eq. reflexivity.
  - unfold rc_get_job_status. rewrite Hj.
    rewrite bool_decide_eq_false_2 by apply insert_non_empty.
    rewrite bool_decide_eq_false_2 by apply uuid_of_nonempty.
    rewrite lookup_insert_eq. reflexivity.
  - reflexivity.
  - reflexivity.
  - rewrite Hr, container_to_host_some. reflexivity.
Qed.

(** X24 ([get_job_status] of the reverse client and of the MCP server):
    when no job exists the reverse client answers "No active jobs." for any
    job id (the MCP tool would report the id as not found); when some job
    exists both tools give the same answer for every job id. *)
Theorem job_status_tools_agree env st job_id :
  rc_get_job_status env st job_id =
    if bool_decide (st.(jobs) = ∅) then JobText (js "No active jobs.")
    else mcp_get_job_status env st job_id.
Proof.
  unfold rc_get_job_status, mcp_get_job_status.
  case_bool_decide as He; [done|].
  assert (Hl : map (fun kv => job_summary env kv.1 kv.2) (map_to_list st.(jobs)) <> []).
  { intros E. apply He. apply map_to_list_empty_iff.
    by destruct (map_to_list st.(jobs)). }
  destruct job_id as [k|].
  - case_bool_decide; [|done].
    by destruct (map (fun kv => job_summary env kv.1 kv.2) (map_to_list st.(jobs))).
  - by destruct (map (fun kv => job_summary env kv.1 kv.2) (map_to_list st.(jobs))).
Qed.

(** X25 (playback tools and [POST /api/control]): each of the pause,
    resume, stop, restart, next and previous tools writes one control line
    with its command and leaves the same playback state in the MCP server
    and in the reverse client (only the MCP tools broadcast the status);
    [POST /api/control] with the same command writes the same line and
    agrees with them, except for [restart], which the endpoint forwards
    without clearing [paused]. *)
Theorem playback_tools_agree st pb t voice index :
  (rc_playback_tool pb t).1.1 = (mcp_playback_tool pb t).1.1 /\
  (rc_playback_tool pb t).1.2 = [WriteControl (tool_command t) []] /\
  head (mcp_playback_tool pb t).1.2 = Some (WriteControl (tool_command t) []) /\
  (rc_playback_tool pb t).2 = (mcp_playback_tool pb t).2 /\
  (mcp_playback_tool pb TRestart).1.1 = mkPlayback false pb.(currentJobId) pb.(currentIndex) /\
  exists effs,
    api_control st pb (Some (JStr (tool_command t))) voice index =
      Some (st, match t with TRestart => pb | _ => (mcp_playback_tool pb t).1.1 end, effs) /\
    head effs = Some (WriteControl (tool_command t) []).
Proof.
  destruct t; repeat split; eexists; split; reflexivity.
Qed.
